(** * Evaluation utilities of GLM (tasks/eval_utils.py)

    A shallow embedding of [accuracy_metric], [accuracy_func_provider]
    (with the [metrics_func] closure it returns) and [evaluate_metrics],
    followed by the properties of the scoring pass, of the cross-worker
    reduction and of the combination over datasets.

    Numbers are modelled as the code has them: Python [float] is IEEE
    binary64, [torch.cuda.FloatTensor] is binary32, both through the
    Standard Library's [SpecFloat]; Python [int] is [Z]. *)

From stdpp Require Import list strings sorting pretty.
From Stdlib Require Import ZArith Lia SpecFloat Ascii.

Local Open Scope Z_scope.

(** ** Floating-point formats *)

(** The floating dtypes of torch. *)
Inductive dtype := float16 | bfloat16 | float32 | float64.

Definition prec_of (dt : dtype) : Z :=
  match dt with float16 => 11 | bfloat16 => 8 | float32 => 24 | float64 => 53 end.

Definition emax_of (dt : dtype) : Z :=
  match dt with float16 => 16 | bfloat16 => 128 | float32 => 128 | float64 => 1024 end.

Definition fadd (dt : dtype) := SFadd (prec_of dt) (emax_of dt).
Definition fsub (dt : dtype) := SFsub (prec_of dt) (emax_of dt).
Definition fmul (dt : dtype) := SFmul (prec_of dt) (emax_of dt).
Definition fdiv (dt : dtype) := SFdiv (prec_of dt) (emax_of dt).


(** Conversion of an integer, rounding to nearest even. *)
Definition of_int (dt : dtype) (n : Z) : spec_float :=
  binary_normalize (prec_of dt) (emax_of dt) n 0 false.

(** Conversion between formats ([tensor.float()], [tolist()], the
    constructor of a typed tensor), rounding to nearest even. *)
Definition cast (dt : dtype) (x : spec_float) : spec_float :=
  match x with
  | S754_finite s m e => binary_round (prec_of dt) (emax_of dt) s m e
  | _ => x
  end.

Definition is_zero (x : spec_float) : bool :=
  match x with S754_zero _ => true | _ => false end.

(** [m * 2^k] on mantissas. *)
Definition shl (m : positive) (k : Z) : positive :=
  match k with Zpos p => Pos.iter xO m p | _ => m end.

(** [(M, E)] denotes the same number as the pair [(m, e)]. *)
Definition same_value (m : positive) (e : Z) (M : positive) (E : Z) : Prop :=
  (E <= e /\ Zpos M = Zpos m * 2 ^ (e - E)) \/
  (e <= E /\ Zpos m = Zpos M * 2 ^ (E - e)).

(** ** Python values *)

(** A Python [float]. *)
Abbreviation pyfloat := spec_float (only parsing).

Definition py_zero : pyfloat := S754_zero false.

(** A Python number as the counters of this file hold it: [total]
    starts as the [int] 0 and becomes a [float] once a reduced count is
    added to it. *)
Inductive pynum := PyInt (n : Z) | PyFloat (x : pyfloat).

(** [float(n)] *)
Definition py_float (n : pynum) : pyfloat :=
  match n with PyInt k => of_int float64 k | PyFloat x => x end.

(** [n + x] for a float [x]. *)
Definition py_add (n : pynum) (x : pyfloat) : pynum :=
  PyFloat (fadd float64 (py_float n) x).

(** The place an exception of this file is raised from. *)
Inductive site :=
  | metrics_func_single_worker      (* assert, line 58 *)
  | evaluate_metrics_single_worker  (* assert, line 108 *)
  | load_directory                  (* assert, line 85 *)
  | accuracy_lengths                (* assert, line 32 *)
  | dataset_report                  (* division, line 181 *)
  | overall_rate.                   (* division, line 76 *)

Inductive exn :=
  | AssertionError (s : site)
  | ZeroDivisionError (s : site)
  | KeyError (key : string)
  | ExampleLookupError
  | IndexError
  | RuntimeError (what : string)
  | InMetric (key : string) (e : exn)   (* raised inside a metric function *)
  | InModel (e : exn).                  (* raised inside the model's forward *)

Inductive result (A : Type) :=
  | Ok (a : A)
  | Raise (e : exn).
Arguments Ok {A} a.
Arguments Raise {A} e.

Global Instance result_ret : MRet result := fun _ a => Ok a.
Global Instance result_bind : MBind result := fun _ _ f r =>
  match r with Ok a => f a | Raise e => Raise e end.

Definition is_ok {A} (r : result A) : bool :=
  match r with Ok _ => true | Raise _ => false end.

(** [assert c] *)
Definition py_assert (c : bool) (s : site) : result unit :=
  if c then Ok tt else Raise (AssertionError s).

(** [x / y] on floats: Python raises on a zero divisor. *)
Definition py_truediv (s : site) (x y : pyfloat) : result pyfloat :=
  if is_zero y then Raise (ZeroDivisionError s) else Ok (fdiv float64 x y).

(** A [for] loop threading the local variables [s]. *)
Fixpoint for_each {A S : Type} (l : list A) (body : S -> A -> result S) (s : S)
  : result S :=
  match l with
  | [] => Ok s
  | x :: l' => s' ← body s x; for_each l' body s'
  end.

(** A list comprehension whose element expression may raise. *)
Fixpoint comprehension {A B : Type} (f : A -> result B) (l : list A)
  : result (list B) :=
  match l with
  | [] => Ok []
  | x :: l' => y ← f x; ys ← comprehension f l'; Ok (y :: ys)
  end.

(** *** Dictionaries

    A Python [dict] (or [OrderedDict]): keys are unique and keep their
    insertion order. *)
Abbreviation dict V := (list (string * V)) (only parsing).

Definition dict_keys {V} (d : dict V) : list string := d.*1.

Fixpoint dict_get {V} (d : dict V) (k : string) : option V :=
  match d with
  | [] => None
  | (k', v) :: d' => if decide (k = k') then Some v else dict_get d' k
  end.

(** [d[k] = v]: in place for a key of [d], at the end otherwise. *)
Fixpoint dict_set {V} (d : dict V) (k : string) (v : V) : dict V :=
  match d with
  | [] => [(k, v)]
  | (k', v') :: d' =>
      if decide (k = k') then (k', v) :: d' else (k', v') :: dict_set d' k v
  end.

(** [d[k]] *)
Definition dict_item {V} (d : dict V) (k : string) : result V :=
  match dict_get d k with Some v => Ok v | None => Raise (KeyError k) end.

Definition dict_wf {V} (d : dict V) : Prop := NoDup (dict_keys d).

(** [keys.sort()] on strings. *)
Definition sort_keys (keys : list string) : list string :=
  merge_sort String.le keys.

(** *** Paths and formats *)

Definition starts_with_sep (s : string) : bool :=
  match s with
  | String c _ => bool_decide (c = "/"%char)
  | EmptyString => false
  end.

Fixpoint ends_with_sep (s : string) : bool :=
  match s with
  | EmptyString => false
  | String c EmptyString => bool_decide (c = "/"%char)
  | String _ s' => ends_with_sep s'
  end.

(** [os.path.join(a, b)] of posixpath, two components. *)
Definition os_path_join (a b : string) : string :=
  if starts_with_sep b then b
  else if bool_decide (a = "") || ends_with_sep a then a +:+ b
  else a +:+ "/" +:+ b.

(** Nearest integer to [num / den], ties to even ([den] positive). *)
Definition round_half_even (num den : Z) : Z :=
  let q := num / den in
  match 2 * (num mod den) ?= den with
  | Lt => q
  | Gt => q + 1
  | Eq => if Z.even q then q else q + 1
  end.

(** [|x| * 10^4] rounded to an integer, for [x = m * 2^e]. *)
Definition scaled4 (m : positive) (e : Z) : Z :=
  if 0 <=? e then Zpos m * 2 ^ e * 10000
  else round_half_even (Zpos m * 10000) (2 ^ (- e)).

Definition digit_char (d : Z) : ascii := ascii_of_nat (48 + Z.to_nat d).

Definition four_digits (n : Z) : string :=
  String (digit_char (n / 1000 mod 10))
    (String (digit_char (n / 100 mod 10))
       (String (digit_char (n / 10 mod 10))
          (String (digit_char (n mod 10)) EmptyString))).

Definition sign_str (s : bool) : string := if s then "-" else "".

(** ["{:.4f}".format(x)] *)
Definition format_4f (x : pyfloat) : string :=
  match x with
  | S754_nan => "nan"
  | S754_infinity s => sign_str s +:+ "inf"
  | S754_zero s => sign_str s +:+ "0.0000"
  | S754_finite s m e =>
      let q := scaled4 m e in
      sign_str s +:+ pretty (q / 10000) +:+ "." +:+ four_digits (q mod 10000)
  end.

(** ** Tensors

    A tensor of rank two or more is the list of its rows along
    dimension 0; each row lists its entries along dimension 1 (an entry
    is a scalar, or a slice over the remaining dimensions).  [size(1)] of
    a tensor without rows reads as 0. *)
Abbreviation tensor A := (list (list A)) (only parsing).

Definition size0 {A} (t : tensor A) : Z := Z.of_nat (length t).

Definition size1 {A} (t : tensor A) : Z :=
  match t with [] => 0 | r :: _ => Z.of_nat (length r) end.

(** The lengths of the rows. *)
Definition shape {A} (t : tensor A) : list nat := length <$> t.

(** [t[:, a:b]] for [0 <= a <= b]. *)
Definition slice1 {A} (a b : Z) (t : tensor A) : tensor A :=
  (fun r => take (Z.to_nat (b - a)) (drop (Z.to_nat a) r)) <$> t.

(** [torch.cat(ts, dim=1)]: the tensors must agree on dimension 0, and
    there must be one at least. *)
Fixpoint cat1 {A} (ts : list (tensor A)) : result (tensor A) :=
  match ts with
  | [] => Raise (RuntimeError "torch.cat: empty list")
  | [t] => Ok t
  | t :: ts' =>
      r ← cat1 ts';
      if bool_decide (length t = length r) then Ok (zip_with app t r)
      else Raise (RuntimeError "torch.cat: sizes do not match")
  end.

(** An elementwise binary operation on tensors of one shape.  Shapes
    that torch would broadcast are outside the model and are reported
    like the ones it rejects. *)
Definition tensor_zip {A} (f : A -> A -> A) (a b : tensor A) : result (tensor A) :=
  if bool_decide (shape a = shape b) then Ok (zip_with (zip_with f) a b)
  else Raise (RuntimeError "size mismatch").

(** A floating tensor, [batch x n]. *)
Abbreviation ftensor := (list (list spec_float)) (only parsing).

(** [segment_length = 10] *)
Definition segment_length : Z := 10.

(** ** The collaborators of the file *)

(** The fields of [args] this file reads. *)
Record args := {
  pretrained_bert : bool;
  cloze_eval : bool;
  test_data : option (list string);
  valid_data : option (list string);
  batch_size : Z;
  num_workers : Z;
  load : option string
}.

(** What [mpu] and [torch.distributed] answer on this worker.
    [peer_vectors k] lists, in group order, the vectors the other members
    of the data-parallel group contribute to the [k]-th collective. *)
Record dist_env := {
  data_parallel_world_size : Z;
  rank : Z;
  peer_vectors : nat -> list (list spec_float)
}.

(** The dictionary [process_batch] returns. *)
Record data (elt : Type) := {
  d_text : option (tensor elt);
  d_types : option (tensor elt);
  d_label : option (list Z);
  d_position : option (tensor elt);
  d_attention_mask : option (tensor elt);
  d_target : option (tensor elt);
  d_logit_mask : option (tensor elt);
  d_loss_mask : option ftensor
}.
Arguments d_text {elt} _.
Arguments d_types {elt} _.
Arguments d_label {elt} _.
Arguments d_position {elt} _.
Arguments d_attention_mask {elt} _.
Arguments d_target {elt} _.
Arguments d_logit_mask {elt} _.
Arguments d_loss_mask {elt} _.

(** The model: its forward pass in evaluation mode, returning the logits
    (the memories the GLM model also returns are dropped by the caller),
    and the dtype it computes them in. *)
Record Model (elt : Type) := {
  forward : list (tensor elt) -> result ftensor;
  logits_dtype : dtype
}.
Arguments forward {elt} _ _.
Arguments logits_dtype {elt} _.

Record dataset (uid example : Type) := {
  dataset_name : string;
  labeled : bool;
  examples : option (uid -> option example)
}.
Arguments dataset_name {uid example} _.
Arguments labeled {uid example} _.
Arguments examples {uid example} _.

(** A dataloader: its dataset and the batches one iteration yields. *)
Record dataloader (uid example batch : Type) := {
  dl_dataset : dataset uid example;
  dl_batches : list batch
}.
Arguments dl_dataset {uid example batch} _.
Arguments dl_batches {uid example batch} _.

(** A metric function. *)
Definition metric (example : Type) : Type :=
  list Z -> list Z -> option (list example) -> result pyfloat.

(** [(softmaxes, labels, ids)] *)
Definition predictions (uid : Type) : Type :=
  (list (list pyfloat) * list Z * list uid)%type.

Inductive log_line :=
  | Calculating
  | Overall (epoch : Z) (total : pynum) (rates : list (string * string)).

(** What a call does to the outside, in order. *)
Inductive event (uid : Type) :=
  | ModelEval
  | ModelTrain
  | AllReduce (sent : list spec_float)
  | PrintRank0 (line : log_line)
  | AddScalar (tag : string) (value : pyfloat) (step : Z)
  | TorchSave (filename : string) (content : list (string * predictions uid)).
Arguments ModelEval {uid}.
Arguments ModelTrain {uid}.
Arguments AllReduce {uid} sent.
Arguments PrintRank0 {uid} line.
Arguments AddScalar {uid} tag value step.
Arguments TorchSave {uid} filename content.

(** The mutable state a call works on: the mode flag of the model, the
    gradient mode of torch, the number of collectives done so far, and
    the events so far. *)
Record world (uid : Type) := {
  training : bool;
  grad_enabled : bool;
  collectives : nat;
  trace : list (event uid)
}.
Arguments training {uid} _.
Arguments grad_enabled {uid} _.
Arguments collectives {uid} _.
Arguments trace {uid} _.

(** Functions imported from other modules. *)
Class External (elt uid example batch : Type) := {
  process_batch : batch -> args -> data elt;
  (** [batch['uid']], as a plain list *)
  batch_uid : batch -> list uid;
  (** [torch.argmax(logits, dim=-1).tolist()] *)
  torch_argmax : ftensor -> list Z;
  (** [torch.nn.Softmax(dim=-1)(logits.float()).tolist()] *)
  torch_softmax : ftensor -> list (list pyfloat);
  (** [build_data_loader(dataset, batch_size, num_workers, drop_last, shuffle)] *)
  build_data_loader :
    dataset uid example -> Z -> Z -> bool -> bool -> dataloader uid example batch
}.

(** ** Computations on the world: state and exceptions *)

Definition M (uid A : Type) : Type := world uid -> result A * world uid.

Global Instance M_ret {uid} : MRet (M uid) := fun _ a w => (Ok a, w).
Global Instance M_bind {uid} : MBind (M uid) := fun _ _ f c w =>
  match c w with
  | (Ok a, w') => f a w'
  | (Raise e, w') => (Raise e, w')
  end.

Definition lift {uid A} (r : result A) : M uid A := fun w => (r, w).

Definition emit {uid} (e : event uid) : M uid unit := fun w =>
  (Ok tt,
   {| training := training w; grad_enabled := grad_enabled w;
      collectives := collectives w; trace := trace w ++ [e] |}).

Definition set_training {uid} (b : bool) : M uid unit := fun w =>
  (Ok tt,
   {| training := b; grad_enabled := grad_enabled w;
      collectives := collectives w; trace := trace w |}).

Definition set_grad {uid} (b : bool) (w : world uid) : world uid :=
  {| training := training w; grad_enabled := b;
     collectives := collectives w; trace := trace w |}.

(** [model.eval()] and [model.train()] *)
Definition model_eval {uid} : M uid unit := set_training false;; emit ModelEval.
Definition model_train {uid} : M uid unit := set_training true;; emit ModelTrain.

(** [with torch.no_grad(): body]: the gradient mode is put back on every
    exit of [body]. *)
Definition no_grad {uid A} (body : M uid A) : M uid A := fun w =>
  let '(r, w') := body (set_grad false w) in (r, set_grad (grad_enabled w) w').

(** A [for] loop whose body works on the world. *)
Fixpoint for_eachM {uid A S : Type} (l : list A) (body : S -> A -> M uid S) (s : S)
  : M uid S :=
  match l with
  | [] => mret s
  | x :: l' => s' ← body s x; for_eachM l' body s'
  end.

(** ** accuracy_metric *)

Definition accuracy_metric {example : Type} : metric example :=
  fun predictions labels examples =>
    py_assert (bool_decide (length predictions = length labels)) accuracy_lengths;;
    let count :=
      foldl (fun count pl => count + (if bool_decide (pl.1 = pl.2) then 1 else 0))
            0 (zip predictions labels) in
    Ok (fmul float64 (of_int float64 count) (of_int float64 100)).

Section Evaluation.
Context {elt uid example batch : Type}.
Context `{!External elt uid example batch}.
Variable env : dist_env.

(** *** evaluate_metrics: one forward pass *)

(** [data[key]] *)
Definition field {A} (key : string) (o : option A) : result A :=
  match o with Some a => Ok a | None => Raise (KeyError key) end.

(** The inputs of the model and the labels, by the mode of [args]. *)
Definition select_inputs (a : args) (d : data elt)
  : result (list (tensor elt) * list Z) :=
  if pretrained_bert a then
    tokens ← field "text" (d_text d);
    types ← field "types" (d_types d);
    labels_ ← field "label" (d_label d);
    attention_mask ← field "attention_mask" (d_attention_mask d);
    Ok ([tokens; types; attention_mask], labels_)
  else if cloze_eval a then
    tokens ← field "text" (d_text d);
    labels_ ← field "label" (d_label d);
    position_ids ← field "position" (d_position d);
    attention_mask ← field "attention_mask" (d_attention_mask d);
    target_ids ← field "target" (d_target d);
    logit_mask ← field "logit_mask" (d_logit_mask d);
    Ok ([tokens; position_ids; attention_mask; target_ids; logit_mask], labels_)
  else
    tokens ← field "text" (d_text d);
    labels_ ← field "label" (d_label d);
    position_ids ← field "position" (d_position d);
    attention_mask ← field "attention_mask" (d_attention_mask d);
    Ok ([tokens; position_ids; attention_mask], labels_).

(** The call of the model on the unpacked inputs. *)
Definition call_model (model : Model elt) (inputs : list (tensor elt))
  : result ftensor :=
  match forward model inputs with
  | Ok logits => Ok logits
  | Raise e => Raise (InModel e)
  end.

(** [len(range((len - 1) // segment_length + 1))] *)
Definition n_chunks (len : Z) : nat :=
  Z.to_nat ((len - 1) / segment_length + 1).

(** [[arg[:, i * segment_length: (i + 1) * segment_length] for arg in inputs]] *)
Definition input_batch (inputs : list (tensor elt)) (i : Z) : list (tensor elt) :=
  slice1 (i * segment_length) ((i + 1) * segment_length) <$> inputs.

(** The branch of long inputs: one call per segment, logits
    concatenated along dimension 1. *)
Definition forward_chunked (model : Model elt) (inputs : list (tensor elt))
  : result ftensor :=
  logit_list ←
    comprehension (fun i => call_model model (input_batch inputs (Z.of_nat i)))
                  (seq 0 (n_chunks (size1 (hd [] inputs))));
  cat1 logit_list.

(** The other branch: one call. *)
Definition forward_full (model : Model elt) (inputs : list (tensor elt))
  : result ftensor :=
  call_model model inputs.

Definition run_forward (model : Model elt) (inputs : list (tensor elt))
  : result ftensor :=
  if bool_decide (segment_length < size1 (hd [] inputs))
  then forward_chunked model inputs
  else forward_full model inputs.

(** [x * m - 10000.0 * (1.0 - m)] on one entry, in the dtype [dt]. *)
Definition mask_entry (dt : dtype) (x m : spec_float) : spec_float :=
  fsub dt (fmul dt x m)
       (fmul dt (cast dt (of_int float64 10000)) (fsub dt (cast dt (of_int float64 1)) m)).

(** [logits * loss_mask - 10000.0 * (1.0 - loss_mask)] *)
Definition apply_loss_mask (dt : dtype) (logits loss_mask : ftensor)
  : result ftensor :=
  tensor_zip (mask_entry dt) logits loss_mask.

(** *** evaluate_metrics: the loop over the batches *)

(** The local variables of the loop. *)
Record scoring := {
  total : Z;
  score_dict : dict pyfloat;
  softmaxes : list (list pyfloat);
  labels : list Z;
  ids : list uid
}.

(** [score_dict[key] += metric(predicted, labels_, example_batch)] for
    every metric. *)
Definition add_scores (metric_dict : dict (metric example))
    (predicted labels_ : list Z) (example_batch : option (list example))
    (sd : dict pyfloat) : result (dict pyfloat) :=
  for_each metric_dict
    (fun sd km =>
       current ← dict_item sd km.1;
       value ← match km.2 predicted labels_ example_batch with
               | Ok v => Ok v
               | Raise e => Raise (InMetric km.1 e)
               end;
       Ok (dict_set sd km.1 (fadd float64 current value)))
    sd.

(** The body of the loop. *)
Definition score_batch (model : Model elt) (metric_dict : dict (metric example))
    (examples : option (uid -> option example)) (output_predictions : bool)
    (a : args) (labeled : bool) (st : scoring) (b : batch) : result scoring :=
  let d := process_batch b a in
  '(inputs, labels_) ← select_inputs a d;
  logits ← run_forward model inputs;
  logits ← match d_loss_mask d with
           | Some loss_mask => apply_loss_mask (logits_dtype model) logits loss_mask
           | None => Ok logits
           end;
  let uid_list := batch_uid b in
  let st :=
    if output_predictions then
      {| total := total st; score_dict := score_dict st;
         softmaxes := softmaxes st ++ torch_softmax logits;
         labels := labels st ++ labels_;
         ids := ids st ++ uid_list |}
    else st in
  example_batch ←
    match examples with
    | Some ex =>
        l ← comprehension
              (fun u => match ex u with
                        | Some e => Ok e
                        | None => Raise ExampleLookupError
                        end) uid_list;
        Ok (Some l)
    | None => Ok None
    end;
  let predicted := torch_argmax logits in
  sd ← (if labeled
        then add_scores metric_dict predicted labels_ example_batch (score_dict st)
        else Ok (score_dict st));
  Ok {| total := total st + Z.of_nat (length labels_); score_dict := sd;
        softmaxes := softmaxes st; labels := labels st; ids := ids st |}.

(** The body of [with torch.no_grad()], lines 104-163. *)
Definition scoring_block (model : Model elt) (dl : dataloader uid example batch)
    (metric_dict : dict (metric example))
    (examples : option (uid -> option example)) (output_predictions : bool)
    (a : args) (labeled : bool) : result scoring :=
  let st := {| total := 0;
               score_dict := (fun km => (km.1, py_zero)) <$> metric_dict;
               softmaxes := []; labels := []; ids := [] |} in
  (if output_predictions
   then py_assert (bool_decide (data_parallel_world_size env = 1))
                  evaluate_metrics_single_worker
   else Ok tt);;
  for_each (dl_batches dl)
           (score_batch model metric_dict examples output_predictions a labeled) st.

(** *** evaluate_metrics: the reduction *)

(** [torch.cuda.FloatTensor(l)] *)
Definition float_tensor (l : list pynum) : list spec_float :=
  (fun n => cast float32 (py_float n)) <$> l.

(** [t.tolist()] *)
Definition tolist (t : list spec_float) : list pyfloat := cast float64 <$> t.

(** The sum of the group, accumulated from this worker's vector in
    group order. *)
Definition group_sum (mine : list spec_float) (peers : list (list spec_float))
  : list spec_float :=
  foldl (zip_with (fadd float32)) mine peers.

(** [torch.distributed.all_reduce(t, group=mpu.get_data_parallel_group())].
    Members that present vectors of different lengths are reported as
    an error. *)
Definition all_reduce (t : list spec_float) : M uid (list spec_float) := fun w =>
  let peers := peer_vectors env (collectives w) in
  let w' := {| training := training w; grad_enabled := grad_enabled w;
               collectives := S (collectives w);
               trace := trace w ++ [AllReduce t] |} in
  if forallb (fun p => bool_decide (length p = length t)) peers
  then (Ok (group_sum t peers), w')
  else (Raise (RuntimeError "all_reduce: sizes do not match"), w').

(** [for i, key in enumerate(keys): score_dict[key] = unreduced[i]] *)
Definition unpack_scores (keys : list string) (unreduced : list pyfloat)
    (sd : dict pyfloat) : result (dict pyfloat) :=
  for_each (imap (fun i key => (i, key)) keys)
    (fun sd ik =>
       match unreduced !! ik.1 with
       | Some v => Ok (dict_set sd ik.2 v)
       | None => Raise IndexError
       end)
    sd.

(** Lines 167-177. *)
Definition reduce_scores (sd : dict pyfloat) (total : Z)
  : M uid (dict pyfloat * pyfloat) :=
  let keys := sort_keys (dict_keys sd) in
  values ← lift (comprehension (dict_item sd) keys);
  let unreduced := float_tensor ((PyFloat <$> values) ++ [PyInt total]) in
  reduced ← all_reduce unreduced;
  let unreduced := tolist reduced in
  sd ← lift (unpack_scores keys unreduced sd);
  total_count ← lift (match last unreduced with
                      | Some v => Ok v
                      | None => Raise IndexError
                      end);
  mret (sd, total_count).

(** Lines 179-182: the report is built and dropped; what remains of it
    is the division. *)
Definition report_rates (sd : dict pyfloat) (total_count : pyfloat)
  : result (list string) :=
  comprehension
    (fun kv => r ← py_truediv dataset_report kv.2 total_count; Ok (format_4f r)) sd.

Definition evaluate_metrics (name : string) (model : Model elt)
    (dl : dataloader uid example batch) (metric_dict : dict (metric example))
    (examples : option (uid -> option example)) (epoch : Z)
    (output_predictions : bool) (a : args) (labeled : bool)
  : M uid (dict pyfloat * pyfloat * option (predictions uid)) :=
  model_eval;;
  st ← no_grad (lift (scoring_block model dl metric_dict examples
                                    output_predictions a labeled));
  model_train;;
  '(sd, total_count) ← reduce_scores (score_dict st) (total st);
  lift (report_rates sd total_count);;
  mret (sd, total_count,
        if output_predictions then Some (softmaxes st, labels st, ids st)
        else None).

(** *** accuracy_func_provider *)

(** Lines 41-44. *)
Definition datapaths (a : args) (is_test : bool) : list string :=
  if is_test
  then match test_data a with Some l => l | None => ["test"] end
  else match valid_data a with Some l => l | None => ["dev"] end.

(** Lines 45-51. *)
Definition build_dataloaders (single_dataset_provider : string -> dataset uid example)
    (a : args) (is_test : bool)
  : list (string * dataloader uid example batch) :=
  (fun datapath =>
     let dataset := single_dataset_provider datapath in
     let dataloader :=
       build_data_loader dataset (batch_size a) (num_workers a)
                         (bool_decide (1 < data_parallel_world_size env)) false in
     (dataset_name dataset, dataloader)) <$> datapaths a is_test.

(** The local variables of the loop of [metrics_func]. *)
Record combining := {
  c_score_dict : dict pyfloat;
  c_total : pynum;
  named_predictions : list (string * predictions uid);
  names : string
}.

(** [for key in score_dict: score_dict[key] += single_dict[key]] *)
Definition add_single (single_dict : dict pyfloat) (sd : dict pyfloat)
  : result (dict pyfloat) :=
  for_each (dict_keys sd)
    (fun sd key =>
       current ← dict_item sd key;
       value ← dict_item single_dict key;
       Ok (dict_set sd key (fadd float64 current value)))
    sd.

(** The body of the loop over the dataloaders, lines 62-75. *)
Definition combine_dataset (metric_dict : dict (metric example)) (a : args)
    (model : Model elt) (epoch : Z) (output_predictions : bool)
    (c : combining) (nd : string * dataloader uid example batch)
  : M uid combining :=
  let name := nd.1 in
  let dataloader := nd.2 in
  let examples := examples (dl_dataset dataloader) in
  output ← evaluate_metrics name model dataloader metric_dict examples epoch
                            output_predictions a (labeled (dl_dataset dataloader));
  let '(single_dict, total_count, preds) := output in
  np ← lift (if output_predictions then
               match preds with
               | Some p =>
                   Ok (named_predictions c ++ [(name, p)], names c +:+ "_" +:+ name)
               | None => Raise (RuntimeError "not enough values to unpack")
               end
             else Ok (named_predictions c, names c));
  sd ← lift (add_single single_dict (c_score_dict c));
  mret {| c_score_dict := sd; c_total := py_add (c_total c) total_count;
          named_predictions := np.1; names := np.2 |}.

(** Lines 54-75: the scoring passes. *)
Definition scoring_passes (dataloaders : list (string * dataloader uid example batch))
    (metric_dict : dict (metric example)) (a : args)
    (model : Model elt) (epoch : Z) (output_predictions : bool)
  : M uid combining :=
  emit (PrintRank0 Calculating);;
  lift (if output_predictions
        then py_assert (bool_decide (data_parallel_world_size env = 1))
                       metrics_func_single_worker
        else Ok tt);;
  for_eachM dataloaders
    (combine_dataset metric_dict a model epoch output_predictions)
    {| c_score_dict := (fun km => (km.1, py_zero)) <$> metric_dict;
       c_total := PyInt 0;
       named_predictions := [];
       names := "predictions" |}.

(** Line 76. *)
Definition rates (sd : dict pyfloat) (total : pynum) : result (dict pyfloat) :=
  comprehension
    (fun kv => r ← py_truediv overall_rate kv.2 (py_float total); Ok (kv.1, r)) sd.

(** Lines 77-82: the telemetry of every key, then the summary line. *)
Definition report (is_test : bool) (epoch : Z) (summary_writer : bool)
    (total : pynum) (sd : dict pyfloat) : M uid unit :=
  for_eachM sd
    (fun _ kv =>
       if summary_writer && bool_decide (0 <= epoch) && negb is_test
       then emit (AddScalar ("Train/valid_" +:+ kv.1) kv.2 epoch)
       else mret tt) tt;;
  emit (PrintRank0 (Overall epoch total ((fun kv => (kv.1, format_4f kv.2)) <$> sd))).

(** Lines 84-87. *)
Definition persist (a : args) (output_predictions : bool) (c : combining)
  : M uid unit :=
  if output_predictions && bool_decide (rank env = 0) then
    match load a with
    | None => lift (Raise (AssertionError load_directory))
    | Some dir =>
        emit (TorchSave (os_path_join dir (names c +:+ ".pt")) (named_predictions c))
    end
  else mret tt.

Definition metrics_func (dataloaders : list (string * dataloader uid example batch))
    (metric_dict : dict (metric example)) (a : args) (is_test : bool)
    (model : Model elt) (epoch : Z) (output_predictions : bool)
    (summary_writer : bool) : M uid (dict pyfloat) :=
  c ← scoring_passes dataloaders metric_dict a model epoch output_predictions;
  sd ← lift (rates (c_score_dict c) (c_total c));
  report is_test epoch summary_writer (c_total c) sd;;
  persist a output_predictions c;;
  mret sd.

Definition accuracy_func_provider
    (single_dataset_provider : string -> dataset uid example)
    (metric_dict : dict (metric example)) (a : args) (is_test : bool) :=
  metrics_func (build_dataloaders single_dataset_provider a is_test)
               metric_dict a is_test.

End Evaluation.

(** ** Notions the statements use *)



(** ** Sample values *)

Module Sample.
(** 1.5, -0.75 and 3 as numbers of [dt]. *)
Definition x1 (dt : dtype) := fdiv dt (of_int dt 3) (of_int dt 2).
Definition x2 (dt : dtype) := fdiv dt (of_int dt (-3)) (of_int dt 4).
Definition x3 (dt : dtype) := of_int dt 3.

Definition logits : ftensor :=
  [[x1 float32; x2 float32; S754_zero true];
   [x3 float32; S754_infinity false; S754_nan]].
End Sample.

Module SampleForward.
(** Two rows of 23 tokens, and the positions and mask that go with
    them. *)
Definition tokens : tensor Z :=
  [Z.of_nat <$> seq 100 23; Z.of_nat <$> seq 200 23].
Definition position_ids : tensor Z :=
  [Z.of_nat <$> seq 0 23; Z.of_nat <$> seq 0 23].
Definition attention_mask : tensor Z := [replicate 23 1; replicate 23 1].
Definition inputs : list (tensor Z) := [tokens; position_ids; attention_mask].

(** A model that scores every position by its token. *)
Definition model : Model Z :=
  {| forward := fun ins =>
       Ok ((fun r : list Z => of_int float32 <$> r) <$> hd [] ins);
     logits_dtype := float32 |}.

(** A batch of sequence length 7. *)
Definition short_inputs : list (tensor Z) :=
  [[Z.of_nat <$> seq 100 7]; [Z.of_nat <$> seq 0 7]; [replicate 7 1]].

(** A batch of sequence length 0, and a model that answers it. *)
Definition empty_inputs : list (tensor Z) := [[[]]; [[]]; [[]]].
Definition constant_model : Model Z :=
  {| forward := fun _ => Ok [[]]; logits_dtype := float32 |}.
End SampleForward.

Module SampleEval.
(** A batch that carries what [process_batch] makes of it. *)
Record sample_batch := { sb_uid : list Z; sb_data : data Z }.

(** The first index of the largest entry of a row. *)
Fixpoint argmax_from (best_i : Z) (best : spec_float) (i : Z)
    (r : list spec_float) : Z :=
  match r with
  | [] => best_i
  | x :: r' =>
      match SFcompare x best with
      | Some Gt => argmax_from i x (i + 1) r'
      | _ => argmax_from best_i best (i + 1) r'
      end
  end.

Definition argmax_row (r : list spec_float) : Z :=
  match r with [] => 0 | x :: r' => argmax_from 0 x 1 r' end.

(** Stand-ins for the imported functions: the softmax is replaced by
    the conversion of the logits, and the dataloader built has no
    batch. *)
Global Instance external : External Z Z string sample_batch := {|
  process_batch b _ := sb_data b;
  batch_uid := sb_uid;
  torch_argmax l := argmax_row <$> l;
  torch_softmax l := (fun r : list spec_float => cast float64 <$> r) <$> l;
  build_data_loader ds _ _ _ _ := {| dl_dataset := ds; dl_batches := [] |}
|}.

Definition single_worker : dist_env :=
  {| data_parallel_world_size := 1; rank := 0; peer_vectors := fun _ => [] |}.

Definition default_args : args :=
  {| pretrained_bert := false; cloze_eval := false;
     test_data := None; valid_data := None;
     batch_size := 2; num_workers := 1; load := Some "/ckpt" |}.

Definition batch_of (uids : list Z) (text : tensor Z) (label : list Z)
  : sample_batch :=
  {| sb_uid := uids;
     sb_data := {| d_text := Some text; d_types := None; d_label := Some label;
                   d_position := Some text; d_attention_mask := Some text;
                   d_target := None; d_logit_mask := None;
                   d_loss_mask := None |} |}.

Definition plain_dataset (name : string) : dataset Z string :=
  {| dataset_name := name; labeled := true; examples := None |}.

(** Two batches, three examples. *)
Definition loader : dataloader Z string sample_batch :=
  {| dl_dataset := plain_dataset "dev";
     dl_batches := [batch_of [7; 8] [[1; 2; 3]; [6; 5; 4]] [2; 2];
                    batch_of [9] [[3; 1; 2]] [0]] |}.

Definition empty_loader : dataloader Z string sample_batch :=
  {| dl_dataset := plain_dataset "dev"; dl_batches := [] |}.

Definition failing_metric : metric string :=
  fun _ _ _ => Raise (RuntimeError "metric failed").

(** The model in training mode, before the call. *)
Definition start : world Z :=
  {| training := true; grad_enabled := true; collectives := 0; trace := [] |}.
End SampleEval.

(** ** Notions the statements on [metrics_func] use *)

(** The files written, in order. *)
Definition saved {uid} (evs : list (event uid))
  : list (string * list (string * predictions uid)) :=
  omap (fun e => match e with TorchSave f c => Some (f, c) | _ => None end) evs.

(** [predictions_{dataset1}_{dataset2}....pt] *)
Definition predictions_file (dataset_names : list string) : string :=
  foldl (fun acc name => acc +:+ "_" +:+ name) "predictions" dataset_names +:+ ".pt".

(** The exception of the assertion on [args.load]. *)
Definition is_load_assert (e : exn) : bool :=
  match e with AssertionError load_directory => true | _ => false end.

(** The persistence step was attempted: the file was written, or the
    assertion on the load directory stopped the call. *)
Definition write_attempted {uid A} (before after : list (event uid))
    (r : result A) : Prop :=
  r = Raise (AssertionError load_directory) \/ saved after <> saved before.

(** Zero (of either sign), a positive number, or plus infinity. *)
Definition nonneg (x : spec_float) : bool :=
  match x with
  | S754_nan => false
  | S754_zero _ => true
  | S754_finite s _ _ | S754_infinity s => negb s
  end.

(** A positive number or plus infinity. *)
Definition positive_float (x : spec_float) : bool :=
  match x with
  | S754_finite s _ _ | S754_infinity s => negb s
  | _ => false
  end.

(** A pure step that does not raise the assertion on [args.load]. *)
Definition rsafe {A} (r : result A) : Prop :=
  forall e, r = Raise e -> is_load_assert e = false.

(** A computation that writes no file and does not raise the assertion
    on [args.load]. *)
Definition calm {uid A} (c : M uid A) : Prop :=
  forall w, saved (trace (c w).2) = saved (trace w) /\ rsafe (c w).1.

(** What the loop over the dataloaders keeps true. *)
Definition combined {uid example batch : Type} (metric_dict : dict (metric example))
    (output_predictions : bool) (c : combining (uid:=uid))
    (seen : list (string * dataloader uid example batch)) : Prop :=
  dict_keys (c_score_dict c) = dict_keys metric_dict
  /\ (output_predictions = true ->
      (named_predictions c).*1 = seen.*1
      /\ names c = foldl (fun acc name => acc +:+ "_" +:+ name) "predictions" seen.*1).

(** The peers contribute counts: the last entry of each of their vectors
    is zero or above. *)
Definition peers_report_counts (env : dist_env) : Prop :=
  forall k, Forall (fun p => exists y, last p = Some y /\ nonneg y = true)
                   (peer_vectors env k).

(** The size of the label tensor of a batch along dimension 0. *)
Definition label_count {elt uid example batch : Type}
    `{!External elt uid example batch} (a : args) (b : batch) : Z :=
  match d_label (process_batch b a) with
  | Some labels_ => Z.of_nat (length labels_)
  | None => 0
  end.

Definition sum_Z (l : list Z) : Z := foldr Z.add 0 l.

Module SampleReduce.
(** 0.75 and 200.0, which a float32 holds, and 0.1, which it does
    not. *)
Definition three_quarters : pyfloat := fdiv float64 (of_int float64 3) (of_int float64 4).
Definition two_hundred : pyfloat := of_int float64 200.
Definition one_tenth : pyfloat := fdiv float64 (of_int float64 1) (of_int float64 10).

Definition scores : dict pyfloat := [("f1", three_quarters); ("acc", two_hundred)].



(** A peer that reports a metric sum of 300 over 5 examples. *)
Definition small_group : dist_env :=
  {| data_parallel_world_size := 2; rank := 0;
     peer_vectors := fun _ =>
       [float_tensor [PyFloat (of_int float64 300); PyInt 5]] |}.
End SampleReduce.

Module SampleCombine.
(** A dataloader of one batch of [n] examples. *)
Definition loader_of (name : string) (n : nat)
  : dataloader Z string SampleEval.sample_batch :=
  {| dl_dataset := SampleEval.plain_dataset name;
     dl_batches := [SampleEval.batch_of (Z.of_nat <$> seq 0 n)
                                        (replicate n [1; 2; 3]) (replicate n 0)] |}.

(** A metric that scores 80 on a batch of 100 and 150 otherwise. *)
Definition score : metric string :=
  fun _ labels_ _ =>
    Ok (of_int float64 (if bool_decide (length labels_ = 100%nat) then 80 else 150)).
End SampleCombine.

(** ** Notions of the further properties *)

(** The number of positions at which predictions and labels agree. *)
Definition matches (predictions labels : list Z) : Z :=
  Z.of_nat (length (filter (fun pl => pl.1 = pl.2) (zip predictions labels))).


Module SampleMask.
(** A mask that keeps the first logit of the first row and the last of
    the second. *)
Definition loss_mask : ftensor :=
  [[of_int float32 1; S754_zero false; S754_zero false];
   [S754_zero false; S754_zero false; of_int float32 1]].
End SampleMask.

(** [labels_.tolist()] of a batch. *)
Definition label_list {elt uid example batch : Type}
    `{!External elt uid example batch} (a : args) (b : batch) : list Z :=
  match d_label (process_batch b a) with
  | Some labels_ => labels_
  | None => []
  end.

(** A field that is there. *)
Definition present {A} (o : option A) : bool :=
  match o with Some _ => true | None => false end.

(** [key in data] *)
Definition has_field {elt} (d : data elt) (key : string) : bool :=
  if decide (key = "text") then present (d_text d)
  else if decide (key = "types") then present (d_types d)
  else if decide (key = "label") then present (d_label d)
  else if decide (key = "position") then present (d_position d)
  else if decide (key = "attention_mask") then present (d_attention_mask d)
  else if decide (key = "target") then present (d_target d)
  else if decide (key = "logit_mask") then present (d_logit_mask d)
  else if decide (key = "loss_mask") then present (d_loss_mask d)
  else false.

(** The fields lines 115-126 read, in the order they read them. *)
Definition fields_read (a : args) : list string :=
  if pretrained_bert a then ["text"; "types"; "label"; "attention_mask"]
  else if cloze_eval a
       then ["text"; "label"; "position"; "attention_mask"; "target"; "logit_mask"]
       else ["text"; "label"; "position"; "attention_mask"].

Module SampleOrder.
(** The scores of [SampleReduce.scores], inserted in the other order. *)
Definition scores : dict pyfloat :=
  [("acc", SampleReduce.two_hundred); ("f1", SampleReduce.three_quarters)].

(** A worker that sums 10 over 50 examples, and a peer that reports 15
    over 50. *)
Definition mine : dict pyfloat := [("accuracy", of_int float64 10)].
End SampleOrder.

(** The events of the scoring passes. *)
Definition scoring_event {uid} (e : event uid) : Prop :=
  match e with
  | ModelEval | ModelTrain | AllReduce _ | PrintRank0 Calculating => True
  | _ => False
  end.

(** [w'] continues [w]: the gradient mode is the same, no collective is
    taken back, and the trace is extended by events of [P]. *)
Definition follows {uid} (P : event uid -> Prop) (w w' : world uid) : Prop :=
  grad_enabled w' = grad_enabled w
  /\ (collectives w <= collectives w')%nat
  /\ exists new, trace w' = trace w ++ new /\ Forall P new.

(** The outcome of a pure step: a value of [Q], or an exception of [E]. *)
Definition yields {A} (E : exn -> Prop) (Q : A -> Prop) (r : result A) : Prop :=
  match r with Ok a => Q a | Raise e => E e end.

(** The same for a step on the world, which it continues by events of
    [P]. *)
Definition delivers {uid A} (P : event uid -> Prop) (E : exn -> Prop)
    (Q : A -> Prop) (c : M uid A) : Prop :=
  forall w, follows P w (c w).2 /\ yields E Q (c w).1.

(** The exceptions of a scoring pass, its assertion apart. *)
Definition pass_error (a : args) (e : exn) : Prop :=
  match e with
  | KeyError key => key ∈ fields_read a
  | RuntimeError what =>
      what ∈ ["torch.cat: sizes do not match"; "size mismatch";
              "all_reduce: sizes do not match"]
  | ZeroDivisionError s => s = dataset_report
  | ExampleLookupError | InMetric _ _ | InModel _ => True
  | AssertionError _ | IndexError => False
  end.

(** The scalars handed to the summary writer, in order. *)
Definition scalars {uid} (evs : list (event uid)) : list (string * pyfloat * Z) :=
  omap (fun e => match e with AddScalar t v s => Some (t, v, s) | _ => None end) evs.

(** The logits the loop computes for a batch, lines 114-144. *)
Definition batch_logits {elt uid example batch : Type}
    `{!External elt uid example batch} (model : Model elt) (a : args) (b : batch)
  : result ftensor :=
  let d := process_batch b a in
  '(inputs, _) ← select_inputs a d;
  logits ← run_forward model inputs;
  match d_loss_mask d with
  | Some loss_mask => apply_loss_mask (logits_dtype model) logits loss_mask
  | None => Ok logits
  end.

(** The number of examples of a batch whose predicted label is their
    label. *)
Definition correct_in {elt uid example batch : Type}
    `{!External elt uid example batch} (model : Model elt) (a : args) (b : batch) : Z :=
  match batch_logits model a b with
  | Ok logits => matches (torch_argmax logits) (label_list a b)
  | Raise _ => 0
  end.

(** The separator [os.path.join] puts after [dir]. *)
Definition sep_after (dir : string) : string :=
  if bool_decide (dir = "") || ends_with_sep dir then "" else "/".


(** * Properties *)

(** ** Rounding of numbers the format holds *)

Lemma iter_pos_nat {A} (f : A -> A) p x :
  iter_pos f p x = Nat.iter (Pos.to_nat p) f x.
Proof.
  revert x; induction p as [p IH|p IH|]; intros x.
  - cbn [iter_pos]. rewrite !IH, Pos2Nat.inj_xI.
    replace (S (2 * Pos.to_nat p))%nat with (Pos.to_nat p + S (Pos.to_nat p))%nat by lia.
    rewrite Nat.iter_add, Nat.iter_succ_r. reflexivity.
  - cbn [iter_pos]. rewrite !IH, Pos2Nat.inj_xO.
    replace (2 * Pos.to_nat p)%nat with (Pos.to_nat p + Pos.to_nat p)%nat by lia.
    now rewrite Nat.iter_add.
  - reflexivity.
Qed.

Lemma shl_nat m p : Pos.iter xO m p = Nat.iter (Pos.to_nat p) xO m.
Proof. rewrite Pos2Nat.inj_iter. reflexivity. Qed.

Lemma shl_value m k : 0 <= k -> Zpos (shl m k) = Zpos m * 2 ^ k.
Proof.
  destruct k as [|p|p]; [simpl; lia | | lia]. intros _.
  cbn [shl]. rewrite shl_nat, <- (positive_nat_Z p).
  induction (Pos.to_nat p) as [|n IH]; [simpl; lia|].
  rewrite Nat2Z.inj_succ, Z.pow_succ_r by lia.
  change (Nat.iter (S n) xO m) with (xO (Nat.iter n xO m)).
  rewrite Pos2Z.inj_xO, IH. ring.
Qed.

Lemma shl_digits m k :
  0 <= k -> Zpos (digits2_pos (shl m k)) = Zpos (digits2_pos m) + k.
Proof.
  destruct k as [|p|p]; [simpl; lia | | lia]. intros _.
  cbn [shl]. rewrite shl_nat, <- (positive_nat_Z p).
  induction (Pos.to_nat p) as [|n IH]; [simpl; lia|].
  change (Nat.iter (S n) xO m) with (xO (Nat.iter n xO m)).
  cbn [digits2_pos]. rewrite Pos2Z.inj_succ, IH. lia.
Qed.

Lemma shl_unique m M k : 0 <= k -> Zpos M = Zpos m * 2 ^ k -> M = shl m k.
Proof. intros Hk HM. apply Pos2Z.inj. now rewrite shl_value. Qed.

Lemma shr_shl m e k :
  0 <= k ->
  shr (Build_shr_record (Zpos (shl m k)) false false) e k
  = (Build_shr_record (Zpos m) false false, e + k).
Proof.
  destruct k as [|p|p]; [intros _; simpl; f_equal; lia | | lia]. intros _.
  cbn [shr shl]. f_equal. rewrite iter_pos_nat, shl_nat.
  induction (Pos.to_nat p) as [|n IH]; [reflexivity|].
  rewrite Nat.iter_succ_r.
  change (Nat.iter (S n) xO m) with (xO (Nat.iter n xO m)).
  cbn [shr_1 orb]. exact IH.
Qed.

Lemma digits2_bounds p :
  2 ^ (Zpos (digits2_pos p) - 1) <= Zpos p < 2 ^ Zpos (digits2_pos p).
Proof.
  induction p as [p IH|p IH|]; cbn [digits2_pos]; [| |simpl; lia];
    rewrite Pos2Z.inj_succ;
    replace (Z.succ (Zpos (digits2_pos p)) - 1) with (Z.succ (Zpos (digits2_pos p) - 1)) by lia;
    rewrite !Z.pow_succ_r by lia; lia.
Qed.

Section Format.
Variables prec emax : Z.
Hypothesis Hprec : 0 < prec.
Hypothesis Hemax : prec < emax.

Lemma bounded_inv m e :
  bounded prec emax m e = true ->
  fexp prec emax (Zpos (digits2_pos m) + e) = e /\ e <= emax - prec.
Proof.
  unfold bounded, canonical_mantissa. intros H.
  apply andb_prop in H as [H1 H2]. split; [now apply Z.eqb_eq | now apply Z.leb_le].
Qed.

Lemma bounded_intro m e :
  fexp prec emax (Zpos (digits2_pos m) + e) = e -> e <= emax - prec ->
  bounded prec emax m e = true.
Proof.
  intros H1 H2. unfold bounded, canonical_mantissa.
  apply andb_true_intro. split; [now apply Z.eqb_eq | now apply Z.leb_le].
Qed.

(** Rounding a mantissa that carries [k] extra zero bits gives the
    number itself. *)
Lemma binary_round_aux_shl s m e k :
  bounded prec emax m e = true -> 0 <= k ->
  binary_round_aux prec emax s (Zpos (shl m k)) (e - k) loc_Exact
  = S754_finite s m e.
Proof.
  intros Hb Hk. destruct (bounded_inv _ _ Hb) as [Hc He].
  unfold binary_round_aux, shr_fexp. cbn [Zdigits2 shr_record_of_loc].
  rewrite shl_digits by assumption.
  replace (Zpos (digits2_pos m) + k + (e - k)) with (Zpos (digits2_pos m) + e) by lia.
  rewrite Hc. replace (e - (e - k)) with k by lia.
  rewrite shr_shl by assumption. cbn [shr_m loc_of_shr_record round_nearest_even Zdigits2].
  replace (e - k + k) with e by lia. rewrite Hc, Z.sub_diag. cbn [shr shr_m].
  apply Z.leb_le in He. now rewrite He.
Qed.

Lemma binary_round_aux_exact s m e :
  bounded prec emax m e = true ->
  binary_round_aux prec emax s (Zpos m) e loc_Exact = S754_finite s m e.
Proof.
  intros Hb. pose proof (binary_round_aux_shl s m e 0 Hb (Z.le_refl 0)) as H.
  now rewrite Z.sub_0_r in H.
Qed.

(** Rounding any pair that denotes a number of the format gives that
    number. *)
Lemma binary_round_same_value s m e M E :
  bounded prec emax m e = true -> same_value m e M E ->
  binary_round prec emax s M E = S754_finite s m e.
Proof.
  intros Hb [[HE HM]|[HE HM]]; destruct (bounded_inv _ _ Hb) as [Hc He].
  - apply shl_unique in HM; [subst M|lia].
    unfold binary_round. rewrite shl_digits by lia.
    replace (Zpos (digits2_pos m) + (e - E) + E) with (Zpos (digits2_pos m) + e) by lia.
    rewrite Hc. unfold shl_align.
    destruct (e - E) as [|p|p] eqn:Hd; try lia.
    + assert (E = e) as -> by lia. now apply binary_round_aux_exact.
    + replace E with (e - Zpos p) by lia.
      apply (binary_round_aux_shl s m e (Zpos p)); [assumption|lia].
  - apply shl_unique in HM as Hm; [|lia].
    unfold binary_round.
    replace (Zpos (digits2_pos M) + E) with (Zpos (digits2_pos m) + e).
    2:{ rewrite Hm, shl_digits by lia. lia. }
    rewrite Hc. unfold shl_align.
    destruct (e - E) as [|p|p] eqn:Hd; try lia.
    + assert (E = e) as -> by lia. rewrite Z.sub_diag in Hm. cbn in Hm. subst M.
      now apply binary_round_aux_exact.
    + replace (E - e) with (Zpos p) in Hm by lia. cbn [shl] in Hm. rewrite <- Hm.
      now apply binary_round_aux_exact.
Qed.

(** [same_value] through a common scale [2^c]. *)
Lemma same_value_scaled c m e M E :
  0 <= e + c -> 0 <= E + c ->
  Zpos m * 2 ^ (e + c) = Zpos M * 2 ^ (E + c) -> same_value m e M E.
Proof.
  intros He HE H. destruct (Z_le_gt_dec E e) as [Hle|Hgt]; [left|right]; split; try lia.
  - replace (e + c) with ((e - E) + (E + c)) in H by lia.
    rewrite (Z.pow_add_r 2 (e - E) (E + c)), Z.mul_assoc in H by lia.
    apply Z.mul_reg_r in H; [lia|]. apply Z.pow_nonzero; lia.
  - replace (E + c) with ((E - e) + (e + c)) in H by lia.
    rewrite (Z.pow_add_r 2 (E - e) (e + c)), Z.mul_assoc in H by lia.
    apply Z.mul_reg_r in H; [exact H|]. apply Z.pow_nonzero; lia.
Qed.

Lemma scaled_same_value c m e M E :
  0 <= e + c -> 0 <= E + c ->
  same_value m e M E -> Zpos m * 2 ^ (e + c) = Zpos M * 2 ^ (E + c).
Proof.
  intros He HE [[Hle H]|[Hle H]]; rewrite H.
  - replace (e + c) with ((e - E) + (E + c)) by lia.
    rewrite (Z.pow_add_r 2 (e - E) (E + c)) by lia. ring.
  - replace (E + c) with ((E - e) + (e + c)) by lia.
    rewrite (Z.pow_add_r 2 (E - e) (e + c)) by lia. ring.
Qed.

(** The number 1 of the format. *)
Lemma bounded_one : bounded prec emax (shl 1 (prec - 1)) (1 - prec) = true.
Proof.
  apply bounded_intro; [|lia].
  rewrite shl_digits by lia. cbn [digits2_pos]. unfold fexp, emin. lia.
Qed.


(** The positive integers the format holds: at most [prec] digits. *)
Lemma bounded_int n :
  Zpos (digits2_pos n) <= prec ->
  bounded prec emax (shl n (prec - Zpos (digits2_pos n)))
          (Zpos (digits2_pos n) - prec) = true.
Proof.
  intros Hd. apply bounded_intro; [|lia].
  rewrite shl_digits by lia. unfold fexp, emin. lia.
Qed.

(** Every integer from 1 to [2^prec] is a number of the format. *)
Lemma int_canonical n :
  Zpos n <= 2 ^ prec ->
  exists m e, bounded prec emax m e = true /\ same_value m e n 0
              /\ 1 - prec <= e <= 1.
Proof.
  intros Hn. pose proof (digits2_bounds n) as [Hlo Hhi].
  destruct (Z_le_gt_dec (Zpos (digits2_pos n)) prec) as [Hd|Hd].
  - exists (shl n (prec - Zpos (digits2_pos n))), (Zpos (digits2_pos n) - prec).
    split; [now apply bounded_int|]. split; [|lia].
    right. split; [lia|]. rewrite shl_value by lia. f_equal. f_equal. lia.
  - assert (Zpos n = 2 ^ prec) as Hn'.
    { assert (2 ^ prec <= 2 ^ (Zpos (digits2_pos n) - 1))
        by (apply Z.pow_le_mono_r; lia). lia. }
    exists (shl 1 (prec - 1)), 1. split; [|split; [|lia]].
    + apply bounded_intro; [|lia].
      rewrite shl_digits by lia. cbn [digits2_pos]. unfold fexp, emin. lia.
    + left. split; [lia|]. rewrite Hn', shl_value by lia.
      replace prec with ((prec - 1) + 1) at 1 by lia.
      rewrite Z.pow_add_r by lia. replace (1 - 0) with 1 by lia. ring.
Qed.

Lemma shl_align_fst m e e' :
  e' <= e -> Zpos (fst (shl_align m e e')) = Zpos m * 2 ^ (e - e').
Proof.
  intros Hle. unfold shl_align. destruct (e' - e) as [|p|p] eqn:Hd; try lia.
  - replace (e - e') with 0 by lia. cbn [fst]. lia.
  - cbn [fst]. change (Pos.iter xO m p) with (shl m (Zpos p)).
    rewrite shl_value by lia. f_equal. f_equal. lia.
Qed.

(** The conversion of an integer from 1 to [2^prec] is exact. *)
Lemma binary_normalize_int n :
  0 < n <= 2 ^ prec ->
  exists m e,
    binary_normalize prec emax n 0 false = S754_finite false m e
    /\ bounded prec emax m e = true
    /\ Zpos m * 2 ^ (e + prec) = n * 2 ^ prec
    /\ 1 - prec <= e <= 1.
Proof.
  intros [Hpos Hn]. destruct n as [|p|p]; try lia.
  destruct (int_canonical p Hn) as (m & e & Hb & Hv & He).
  exists m, e. split; [|split; [exact Hb|split; [|exact He]]].
  - cbn [binary_normalize]. now apply binary_round_same_value.
  - rewrite (scaled_same_value prec m e p 0) by (assumption || lia).
    reflexivity.
Qed.

(** Adding two counts whose sum is at most [2^prec] is exact. *)
Lemma SFadd_int a b :
  0 <= a -> 0 <= b -> a + b <= 2 ^ prec ->
  SFadd prec emax (binary_normalize prec emax a 0 false)
                  (binary_normalize prec emax b 0 false)
  = binary_normalize prec emax (a + b) 0 false.
Proof.
  intros Ha Hb Hab.
  destruct (Z.eq_dec a 0) as [->|Ha0].
  { rewrite Z.add_0_l.
    destruct (Z.eq_dec b 0) as [->|Hb0]; [reflexivity|].
    destruct (binary_normalize_int b) as (m & e & -> & _); [lia|reflexivity]. }
  destruct (Z.eq_dec b 0) as [->|Hb0].
  { rewrite Z.add_0_r.
    destruct (binary_normalize_int a) as (m & e & -> & _); [lia|reflexivity]. }
  destruct (binary_normalize_int a) as (ma & ea & -> & _ & Hva & Hea); [lia|].
  destruct (binary_normalize_int b) as (mb & eb & -> & _ & Hvb & Heb); [lia|].
  destruct (binary_normalize_int (a + b)) as (mn & en & -> & Hbn & Hvn & Hen); [lia|].
  cbn [SFadd cond_Zopp]. set (ez := Z.min ea eb).
  rewrite !shl_align_fst by lia.
  assert (0 < Zpos ma * 2 ^ (ea - ez) + Zpos mb * 2 ^ (eb - ez)) as Hpos.
  { assert (0 < 2 ^ (ea - ez)) by (apply Z.pow_pos_nonneg; lia).
    assert (0 < 2 ^ (eb - ez)) by (apply Z.pow_pos_nonneg; lia). nia. }
  destruct (Zpos ma * 2 ^ (ea - ez) + Zpos mb * 2 ^ (eb - ez)) as [|p|p] eqn:Hsum;
    try lia.
  cbn [binary_normalize]. apply binary_round_same_value; [exact Hbn|].
  apply (same_value_scaled prec); [lia|lia|].
  rewrite Hvn, <- Hsum, Z.mul_add_distr_r, Z.mul_add_distr_r, <- Hva, <- Hvb.
  rewrite <- !Z.mul_assoc, <- !Z.pow_add_r by lia.
  f_equal; f_equal; f_equal; lia.
Qed.

(** *** Signs *)

Lemma shr_1_nonneg mrs : 0 <= shr_m mrs -> 0 <= shr_m (shr_1 mrs).
Proof. destruct mrs as [[|[p|p|]|p] r s]; cbn; lia. Qed.

Lemma shr_nonneg mrs e n : 0 <= shr_m mrs -> 0 <= shr_m (fst (shr mrs e n)).
Proof.
  intros H. destruct n as [|p|p]; cbn [shr fst]; try assumption.
  rewrite iter_pos_nat. induction (Pos.to_nat p) as [|k IH]; [assumption|].
  cbn [Nat.iter]. now apply shr_1_nonneg.
Qed.

Lemma shr_fexp_nonneg m e l :
  0 <= m -> 0 <= shr_m (fst (shr_fexp prec emax m e l)).
Proof.
  intros H. unfold shr_fexp. apply shr_nonneg.
  destruct l as [|[]]; cbn; assumption.
Qed.

Lemma round_nearest_even_nonneg m l : 0 <= m -> 0 <= round_nearest_even m l.
Proof. destruct l as [|[]]; cbn; try destruct (Z.even m); lia. Qed.

(** Rounding a non-negative mantissa gives a zero, a number or an
    infinity of the sign asked for. *)
Lemma binary_round_aux_sign s m e l :
  0 <= m ->
  match binary_round_aux prec emax s m e l with
  | S754_nan => False
  | S754_zero s' | S754_infinity s' | S754_finite s' _ _ => s' = s
  end.
Proof.
  intros Hm. unfold binary_round_aux.
  pose proof (shr_fexp_nonneg m e l Hm) as H1.
  destruct (shr_fexp prec emax m e l) as [mrs1 e1]. cbn [fst] in H1.
  pose proof (shr_fexp_nonneg _ e1 loc_Exact
                (round_nearest_even_nonneg _ (loc_of_shr_record mrs1) H1)) as H2.
  destruct (shr_fexp prec emax _ e1 loc_Exact) as [mrs2 e2]. cbn [fst] in H2.
  destruct (shr_m mrs2) as [|p|p]; [reflexivity| |lia].
  destruct (e2 <=? emax - prec); reflexivity.
Qed.

Lemma binary_round_sign s m e :
  match binary_round prec emax s m e with
  | S754_nan => False
  | S754_zero s' | S754_infinity s' | S754_finite s' _ _ => s' = s
  end.
Proof.
  unfold binary_round. destruct (shl_align _ _ _) as [mz ez].
  apply binary_round_aux_sign. lia.
Qed.

Lemma binary_round_nonneg m e : nonneg (binary_round prec emax false m e) = true.
Proof.
  pose proof (binary_round_sign false m e) as H.
  destruct (binary_round prec emax false m e); cbn; try reflexivity;
    try (now rewrite H). contradiction.
Qed.

Lemma binary_normalize_nonneg n :
  0 <= n -> nonneg (binary_normalize prec emax n 0 false) = true.
Proof.
  intros Hn. destruct n as [|p|p]; try lia; cbn [binary_normalize]; [reflexivity|].
  apply binary_round_nonneg.
Qed.

Lemma SFadd_nonneg x y :
  nonneg x = true -> nonneg y = true -> nonneg (SFadd prec emax x y) = true.
Proof.
  destruct x as [sx|sx| |sx mx ex], y as [sy|sy| |sy my ey]; cbn [nonneg SFadd];
    try discriminate; try (destruct sx; discriminate || reflexivity);
    try (destruct sy; discriminate || reflexivity);
    try (destruct sx, sy; discriminate || reflexivity).
  destruct sx, sy; try discriminate. intros _ _. cbn [cond_Zopp].
  match goal with |- context [binary_normalize _ _ ?n _ _] =>
    assert (0 < n) as Hn by lia; destruct n as [|p|p]; try lia end.
  cbn [binary_normalize]. apply binary_round_nonneg.
Qed.
End Format.

(** Conversion of a count between two formats that both hold it. *)
Section Convert.
Variables prec1 emax1 prec2 emax2 : Z.
Hypothesis Hprec1 : 0 < prec1.
Hypothesis Hemax1 : prec1 < emax1.
Hypothesis Hprec2 : 0 < prec2.
Hypothesis Hemax2 : prec2 < emax2.

Lemma convert_int n :
  0 <= n -> n <= 2 ^ prec1 -> n <= 2 ^ prec2 ->
  match binary_normalize prec1 emax1 n 0 false with
  | S754_finite s m e => binary_round prec2 emax2 s m e
  | x => x
  end = binary_normalize prec2 emax2 n 0 false.
Proof.
  intros Hn H1 H2. destruct (Z.eq_dec n 0) as [->|Hn0]; [reflexivity|].
  destruct (binary_normalize_int prec1 emax1 Hprec1 Hemax1 n)
    as (m1 & e1 & -> & _ & Hv1 & He1); [lia|].
  destruct (binary_normalize_int prec2 emax2 Hprec2 Hemax2 n)
    as (m2 & e2 & -> & Hb2 & Hv2 & He2); [lia|].
  apply (binary_round_same_value prec2 emax2); [exact Hb2|].
  apply (same_value_scaled (prec1 + prec2)); [lia|lia|].
  replace (e2 + (prec1 + prec2)) with ((e2 + prec2) + prec1) by lia.
  replace (e1 + (prec1 + prec2)) with ((e1 + prec1) + prec2) by lia.
  rewrite (Z.pow_add_r 2 (e2 + prec2) prec1), (Z.pow_add_r 2 (e1 + prec1) prec2)
    by lia.
  rewrite !Z.mul_assoc, Hv1, Hv2. ring.
Qed.
End Convert.

(** ** The loss mask *)

Lemma fmt_ok dt : 0 < prec_of dt /\ prec_of dt < emax_of dt.
Proof. destruct dt; cbn; lia. Qed.












(** ** The segments of a long input *)

Section Chunks.
Context {elt : Type}.
Implicit Types (t : tensor elt) (inputs : list (tensor elt)) (model : Model elt).

Lemma shape_slice1 (a b : Z) t :
  shape (slice1 a b t)
  = (fun n => Nat.min (Z.to_nat (b - a)) (n - Z.to_nat a)) <$> shape t.
Proof.
  unfold shape, slice1. rewrite <- !list_fmap_compose.
  apply list_fmap_ext. intros i r _. cbn.
  now rewrite length_take, length_drop.
Qed.

Lemma length_slice1 (a b : Z) t : length (slice1 a b t) = length t.
Proof. unfold slice1. apply length_fmap. Qed.

Lemma length_shape {A} (t : tensor A) : length (shape t) = length t.
Proof. unfold shape. apply length_fmap. Qed.

Lemma cat1_three {A} (a b c : tensor A) :
  length a = length b -> length b = length c ->
  cat1 [a; b; c] = Ok (zip_with app a (zip_with app b c)).
Proof.
  intros Hab Hbc. cbn.
  rewrite (bool_decide_eq_true_2 _ Hbc). cbn.
  rewrite bool_decide_eq_true_2; [reflexivity|].
  rewrite length_zip_with. lia.
Qed.

Lemma shape_zip_with_app {A} (a b : tensor A) :
  shape (zip_with app a b) = zip_with Nat.add (shape a) (shape b).
Proof.
  unfold shape. revert b; induction a as [|r a IH]; intros [|r' b]; cbn;
    try reflexivity.
  now rewrite length_app, <- IH.
Qed.

Lemma zip_with_add_replicate (B n m : nat) :
  zip_with Nat.add (replicate B n) (replicate B m) = replicate B (n + m)%nat.
Proof. induction B as [|B IH]; cbn; [reflexivity|]. now rewrite IH. Qed.

(** Three consecutive slices of ten cover a row of at most thirty. *)
Lemma slices_cover_row {A} (r : list A) :
  (length r <= 30)%nat ->
  take 10 (drop 0 r) ++ take 10 (drop 10 r) ++ take 10 (drop 20 r) = r.
Proof.
  intros Hr. rewrite drop_0.
  replace (drop 20 r) with (drop 10 (drop 10 r)) by (rewrite drop_drop; reflexivity).
  rewrite (take_ge (drop 10 (drop 10 r))) by (rewrite !length_drop; lia).
  now rewrite !take_drop.
Qed.

Lemma slices_cover t :
  Forall (fun r => (length r <= 30)%nat) t ->
  zip_with app (slice1 0 10 t) (zip_with app (slice1 10 20 t) (slice1 20 30 t)) = t.
Proof.
  unfold slice1. induction 1 as [|r t Hr _ IH]; [reflexivity|].
  cbn [fmap list_fmap zip_with]. rewrite IH. f_equal.
  exact (slices_cover_row r Hr).
Qed.

Lemma size1_of_shape t (B n : nat) :
  (0 < B)%nat -> shape t = replicate B n -> size1 t = Z.of_nat n.
Proof.
  destruct B as [|B]; [lia|]. intros _. destruct t as [|r t]; [discriminate|].
  cbn. intros [= -> _]. reflexivity.
Qed.

Lemma rows_of_shape t (B n : nat) :
  shape t = replicate B n -> Forall (fun r => length r = n) t.
Proof.
  unfold shape. revert B; induction t as [|r t IH]; intros B H; [constructor|].
  destruct B as [|B]; [discriminate|]. cbn in H. injection H as Hr Ht.
  constructor; [assumption|]. now apply (IH B).
Qed.

(** C2. For a batch of sequence length 23 [evaluate_metrics] takes the
    chunked path, which makes exactly three segments; every input tensor is cut into consecutive
    pieces of 10, 10 and 3 positions (which concatenate back to it),
    and when the model keeps the sequence length of what it is given,
    the logits of the three segments are concatenated in that order
    into logits of sequence length 23. *)
Theorem chunking_of_length_23 inputs (B : nat) :
  inputs <> [] -> (0 < B)%nat ->
  Forall (fun t => shape t = replicate B 23%nat) inputs ->
  n_chunks (size1 (hd [] inputs)) = 3%nat
  /\ (forall model, run_forward model inputs = forward_chunked model inputs)
  /\ Forall (fun t => shape t = replicate B 10%nat) (input_batch inputs 0)
  /\ Forall (fun t => shape t = replicate B 10%nat) (input_batch inputs 1)
  /\ Forall (fun t => shape t = replicate B 3%nat) (input_batch inputs 2)
  /\ Forall (fun t => cat1 [slice1 0 10 t; slice1 10 20 t; slice1 20 30 t] = Ok t)
            inputs
  /\ forall model l0 l1 l2,
      forward model (input_batch inputs 0) = Ok l0 ->
      forward model (input_batch inputs 1) = Ok l1 ->
      forward model (input_batch inputs 2) = Ok l2 ->
      shape l0 = replicate B 10%nat -> shape l1 = replicate B 10%nat ->
      shape l2 = replicate B 3%nat ->
      forward_chunked model inputs = Ok (zip_with app l0 (zip_with app l1 l2))
      /\ shape (zip_with app l0 (zip_with app l1 l2)) = replicate B 23%nat.
Proof.
  intros Hne HB Hall.
  assert (size1 (hd [] inputs) = 23) as Hlen.
  { destruct inputs as [|t inputs]; [congruence|]. cbn [hd].
    apply Forall_cons in Hall as [Ht _].
    exact (size1_of_shape t B 23 HB Ht). }
  assert (n_chunks (size1 (hd [] inputs)) = 3%nat) as Hn
      by (rewrite Hlen; reflexivity).
  assert (forall (a b : Z) (n : nat),
             Nat.min (Z.to_nat (b - a)) (23 - Z.to_nat a) = n ->
             Forall (fun t => shape t = replicate B n)
                    (slice1 a b <$> inputs)) as Hslice.
  { intros a b n Hmin. apply Forall_fmap. eapply Forall_impl; [exact Hall|].
    intros t Ht. cbn. rewrite shape_slice1, Ht, fmap_replicate. now rewrite Hmin. }
  split; [exact Hn|].
  split; [intros model; unfold run_forward; rewrite Hlen; reflexivity|].
  split; [apply Hslice; reflexivity|].
  split; [apply Hslice; reflexivity|].
  split; [apply Hslice; reflexivity|].
  split.
  - eapply Forall_impl; [exact Hall|]. intros t Ht. cbn beta.
    rewrite cat1_three by (now rewrite !length_slice1).
    f_equal. apply slices_cover.
    eapply Forall_impl; [exact (rows_of_shape t B 23 Ht)|]. cbn. lia.
  - intros model l0 l1 l2 H0 H1 H2 S0 S1 S2.
    assert (length l0 = B /\ length l1 = B /\ length l2 = B) as (L0 & L1 & L2).
    { rewrite <- !(length_shape (A:=spec_float)), S0, S1, S2, !length_replicate. auto. }
    split.
    + unfold forward_chunked. rewrite Hn. cbn [seq comprehension].
      unfold call_model.
      change (Z.of_nat 0) with 0. change (Z.of_nat 1) with 1.
      change (Z.of_nat 2) with 2. rewrite H0, H1, H2.
      cbn [mbind result_bind]. now apply cat1_three; congruence.
    + rewrite !shape_zip_with_app, S0, S1, S2, !zip_with_add_replicate.
      reflexivity.
Qed.
End Chunks.

Lemma chunking_of_length_23_witness :
  n_chunks (size1 (hd [] SampleForward.inputs)) = 3%nat
  /\ exists logits,
      forward_chunked SampleForward.model SampleForward.inputs = Ok logits
      /\ shape logits = [23; 23]%nat.
Proof.
  destruct (chunking_of_length_23 SampleForward.inputs 2)
    as (Hn & _ & _ & _ & _ & _ & Hm).
  - discriminate.
  - lia.
  - repeat (constructor; [reflexivity|]). constructor.
  - split; [exact Hn|].
    edestruct (Hm SampleForward.model) as [Hf Hs];
      [reflexivity | reflexivity | reflexivity | | | |].
    + vm_compute; reflexivity.
    + vm_compute; reflexivity.
    + vm_compute; reflexivity.
    + eexists. split; [exact Hf | exact Hs].
Defined.

Section Short.
Context {elt : Type}.

Lemma slice1_whole (t : tensor elt) :
  Forall (fun r => (length r <= 10)%nat) t ->
  slice1 (0 * segment_length) ((0 + 1) * segment_length) t = t.
Proof.
  unfold slice1. induction 1 as [|r t Hr _ IH]; [reflexivity|].
  cbn [fmap list_fmap]. rewrite IH. f_equal.
  change (Z.to_nat (0 * segment_length)) with 0%nat.
  change (Z.to_nat ((0 + 1) * segment_length - 0 * segment_length)) with 10%nat.
  rewrite drop_0. now apply take_ge.
Qed.

Lemma input_batch_whole (inputs : list (tensor elt)) :
  Forall (Forall (fun r => (length r <= 10)%nat)) inputs ->
  input_batch inputs 0 = inputs.
Proof.
  unfold input_batch. induction 1 as [|t inputs Ht _ IH]; [reflexivity|].
  cbn [fmap list_fmap]. rewrite IH. f_equal. now apply slice1_whole.
Qed.

Lemma n_chunks_short (len : Z) :
  1 <= len <= segment_length -> n_chunks len = 1%nat.
Proof.
  unfold n_chunks, segment_length. intros H.
  rewrite Z.div_small by lia. reflexivity.
Qed.

(** C3, amended. For a batch of sequence length from 1 to the segment
    length, the chunked path (a single segment, a single call, a
    concatenation of one tensor) and the direct path return the same
    result, whatever the model; the direct path is the one
    [evaluate_metrics] takes there. *)
Theorem chunked_equals_full_when_short (model : Model elt)
    (inputs : list (tensor elt)) :
  1 <= size1 (hd [] inputs) <= segment_length ->
  Forall (Forall (fun r => (length r <= 10)%nat)) inputs ->
  forward_chunked model inputs = forward_full model inputs
  /\ run_forward model inputs = forward_full model inputs.
Proof.
  intros Hlen Hrows. split.
  2:{ unfold run_forward. rewrite bool_decide_eq_false_2 by lia. reflexivity. }
  unfold forward_chunked, forward_full.
  rewrite (n_chunks_short _ Hlen). cbn [seq comprehension].
  change (Z.of_nat 0) with 0. rewrite (input_batch_whole inputs Hrows).
  destruct (call_model model inputs); reflexivity.
Qed.
End Short.

Lemma chunked_equals_full_when_short_witness :
  1 <= size1 (hd [] SampleForward.short_inputs) <= segment_length
  /\ forward_chunked SampleForward.model SampleForward.short_inputs
     = forward_full SampleForward.model SampleForward.short_inputs.
Proof.
  assert (1 <= size1 (hd [] SampleForward.short_inputs) <= segment_length) as Hlen
      by (vm_compute; split; discriminate).
  split; [exact Hlen|].
  refine (proj1 (chunked_equals_full_when_short SampleForward.model
                   SampleForward.short_inputs Hlen _)).
  repeat (constructor; [repeat (constructor; [vm_compute; lia|]); constructor|]).
  constructor.
Defined.

(** C3 as stated fails at sequence length 0: the chunked path makes no
    segment and [torch.cat] rejects the empty list, while the direct
    path returns what the model answers. *)
Lemma chunked_differs_at_length_0 :
  size1 (hd [] SampleForward.empty_inputs) <= segment_length
  /\ forward_full SampleForward.constant_model SampleForward.empty_inputs = Ok [[]]
  /\ forward_chunked SampleForward.constant_model SampleForward.empty_inputs
     = Raise (RuntimeError "torch.cat: empty list")
  /\ forward_chunked SampleForward.constant_model SampleForward.empty_inputs
     <> forward_full SampleForward.constant_model SampleForward.empty_inputs.
Proof.
  split; [vm_compute; discriminate|].
  split; [reflexivity|]. split; [reflexivity|]. discriminate.
Qed.

(** ** The scoring pass and the mode of the model *)

Section Pass.
Context {elt uid example batch : Type}.
Context `{!External elt uid example batch}.
Variable env : dist_env.

Lemma all_reduce_world t (w : world uid) :
  (all_reduce env t w).2
  = {| training := training w; grad_enabled := grad_enabled w;
       collectives := S (collectives w); trace := trace w ++ [AllReduce t] |}.
Proof. unfold all_reduce. now destruct (forallb _ _). Qed.

(** The reduction leaves the two modes alone and only adds events. *)
Lemma reduce_scores_world sd total (w : world uid) :
  let w' := (reduce_scores env sd total w).2 in
  training w' = training w /\ grad_enabled w' = grad_enabled w
  /\ exists rest, trace w' = trace w ++ rest.
Proof.
  unfold reduce_scores, lift, mbind, M_bind, mret, M_ret. cbn beta zeta.
  destruct (comprehension _ _) as [values|e]; cbn [snd].
  2:{ repeat split; try reflexivity. exists []. now rewrite app_nil_r. }
  pose proof (all_reduce_world
                (float_tensor ((PyFloat <$> values) ++ [PyInt total])) w) as Hw.
  destruct (all_reduce env _ w) as [[reduced|e] w1]; cbn [snd] in Hw; subst w1.
  2:{ cbn. repeat split; try reflexivity. eexists; reflexivity. }
  destruct (unpack_scores _ _ _) as [sd'|e].
  2:{ cbn. repeat split; try reflexivity. eexists; reflexivity. }
  destruct (last _); cbn; repeat split; try reflexivity; eexists; reflexivity.
Qed.

(** The steps of [evaluate_metrics], one after the other. *)
Lemma evaluate_metrics_steps name model dl metric_dict examples epoch
    output_predictions a labeled (w : world uid) :
  evaluate_metrics env name model dl metric_dict examples epoch
                   output_predictions a labeled w
  = match scoring_block env model dl metric_dict examples output_predictions
                        a labeled with
    | Raise e =>
        (Raise e,
         {| training := false; grad_enabled := grad_enabled w;
            collectives := collectives w; trace := trace w ++ [ModelEval] |})
    | Ok st =>
        match reduce_scores env (score_dict st) (total st)
                {| training := true; grad_enabled := grad_enabled w;
                   collectives := collectives w;
                   trace := (trace w ++ [ModelEval]) ++ [ModelTrain] |} with
        | (Raise e, w') => (Raise e, w')
        | (Ok (sd, total_count), w') =>
            match report_rates sd total_count with
            | Raise e => (Raise e, w')
            | Ok _ =>
                (Ok (sd, total_count,
                     if output_predictions
                     then Some (softmaxes st, labels st, ids st) else None), w')
            end
        end
    end.
Proof.
  unfold evaluate_metrics, model_eval, model_train, no_grad, lift, set_training,
    emit, set_grad, mbind, M_bind, mret, M_ret.
  cbn [training grad_enabled collectives trace].
  destruct (scoring_block _ _ _ _ _ _ _ _) as [st|e]; [|reflexivity].
  cbn [training grad_enabled collectives trace].
  destruct (reduce_scores _ _ _ _) as [[[sd total_count]|e] w']; [|reflexivity].
  destruct (report_rates _ _); reflexivity.
Qed.

(** C1, amended. The scoring pass switches the model to evaluation
    mode at entry.  When the batch loop completes, the model is put
    back in training mode before the reduction, whatever happens
    after; when the loop raises (a metric function, the model, a
    missing field, the single-worker assertion), the exception leaves
    the call with the model still in evaluation mode.  The gradient
    mode is restored on both paths. *)
Theorem evaluate_metrics_mode name model dl metric_dict examples epoch
    output_predictions a labeled (w : world uid) :
  let out := evaluate_metrics env name model dl metric_dict examples epoch
                              output_predictions a labeled w in
  grad_enabled out.2 = grad_enabled w
  /\ match scoring_block env model dl metric_dict examples output_predictions
                         a labeled with
     | Raise e =>
         out.1 = Raise e /\ training out.2 = false
         /\ trace out.2 = trace w ++ [ModelEval]
     | Ok _ =>
         training out.2 = true
         /\ exists rest, trace out.2 = trace w ++ ModelEval :: ModelTrain :: rest
     end.
Proof.
  cbn zeta. rewrite evaluate_metrics_steps.
  destruct (scoring_block _ _ _ _ _ _ _ _) as [st|e]; [|cbn; auto].
  match goal with |- context [reduce_scores env ?sd ?t ?w0] =>
    pose proof (reduce_scores_world sd t w0) as (Ht & Hg & rest & Hr);
    destruct (reduce_scores env sd t w0) as [[[sd' total_count]|e] w']
  end; cbn in Ht, Hg, Hr.
  - assert (grad_enabled w' = grad_enabled w /\ training w' = true
            /\ exists rest, trace w' = trace w ++ ModelEval :: ModelTrain :: rest)
      as (? & ? & ?).
    { repeat split; try assumption. exists rest. rewrite Hr.
      now rewrite <- !app_assoc. }
    destruct (report_rates _ _); cbn; auto.
  - cbn. repeat split; try assumption. exists rest. rewrite Hr.
    now rewrite <- !app_assoc.
Qed.
End Pass.

(** C1 as stated fails when a metric function raises: the call ends
    with the exception and the model, in training mode before the call,
    is left in evaluation mode. *)
Lemma mode_not_restored_when_metric_raises :
  let out := evaluate_metrics SampleEval.single_worker "dev" SampleForward.model
               SampleEval.loader [("acc", SampleEval.failing_metric)] None 0 false
               SampleEval.default_args true SampleEval.start in
  training SampleEval.start = true
  /\ out.1 = Raise (InMetric "acc" (RuntimeError "metric failed"))
  /\ training out.2 = false.
Proof. vm_compute. repeat split; reflexivity. Qed.

(** ** accuracy_func_provider: the setup *)

Section Setup.
Context {elt uid example batch : Type}.
Context `{!External elt uid example batch}.
Variable env : dist_env.

(** C9. The setup takes the test paths when [is_test] and the
    validation paths otherwise, and a one-element default list
    (['test'], ['dev']) when the chosen list is unset; it builds one
    dataloader per path, in order, with the batch size and the worker
    count of [args], without shuffling, and dropping the last partial
    batch exactly when the data-parallel world size is above 1.  The
    function returned works on these dataloaders. *)
Theorem accuracy_func_provider_setup
    (single_dataset_provider : string -> dataset uid example)
    (metric_dict : dict (metric example)) (a : args) (is_test : bool) :
  datapaths a is_test
  = (if is_test then default ["test"] (test_data a)
     else default ["dev"] (valid_data a))
  /\ (exists drop_last : bool,
        (drop_last = true <-> 1 < data_parallel_world_size env)
        /\ build_dataloaders env single_dataset_provider a is_test
           = (fun datapath =>
                (dataset_name (single_dataset_provider datapath),
                 build_data_loader (single_dataset_provider datapath)
                   (batch_size a) (num_workers a) drop_last false))
             <$> datapaths a is_test)
  /\ accuracy_func_provider env single_dataset_provider metric_dict a is_test
     = metrics_func env (build_dataloaders env single_dataset_provider a is_test)
                    metric_dict a is_test.
Proof.
  split; [|split].
  - unfold datapaths. destruct is_test; [destruct (test_data a)|destruct (valid_data a)];
      reflexivity.
  - exists (bool_decide (1 < data_parallel_world_size env)). split.
    + apply bool_decide_eq_true.
    + reflexivity.
  - reflexivity.
Qed.
End Setup.

(** ** What the scoring never does

    Outside its last step, [metrics_func] writes no file and never
    raises the assertion on the load directory. *)


Lemma rsafe_ok {A} (a : A) : rsafe (Ok a).
Proof. intros e H. discriminate. Qed.

Lemma rsafe_raise {A} e : is_load_assert e = false -> rsafe (@Raise A e).
Proof. intros He e' [= <-]. exact He. Qed.

Lemma rsafe_bind {A B} (r : result A) (f : A -> result B) :
  rsafe r -> (forall a, r = Ok a -> rsafe (f a)) -> rsafe (r ≫= f).
Proof.
  intros Hr Hf e. destruct r as [a|e']; cbn.
  - now apply Hf.
  - intros [= <-]. now apply Hr.
Qed.

Lemma rsafe_for_each {A S} (l : list A) (body : S -> A -> result S) s :
  (forall s x, rsafe (body s x)) -> rsafe (for_each l body s).
Proof.
  intros Hb. revert s; induction l as [|x l IH]; intros s; cbn [for_each].
  - apply rsafe_ok.
  - apply rsafe_bind; [apply Hb|]. intros s' _. apply IH.
Qed.

Lemma rsafe_comprehension {A B} (f : A -> result B) (l : list A) :
  (forall x, rsafe (f x)) -> rsafe (comprehension f l).
Proof.
  intros Hf. induction l as [|x l IH]; cbn [comprehension].
  - apply rsafe_ok.
  - apply rsafe_bind; [apply Hf|]. intros y _.
    apply rsafe_bind; [apply IH|]. intros ys _. apply rsafe_ok.
Qed.

Lemma rsafe_dict_item {V} (d : dict V) k : rsafe (dict_item d k).
Proof. unfold dict_item. destruct (dict_get d k); [apply rsafe_ok|now apply rsafe_raise]. Qed.

Lemma rsafe_field {A} key (o : option A) : rsafe (field key o).
Proof. destruct o; [apply rsafe_ok|now apply rsafe_raise]. Qed.

Lemma rsafe_cat1 {A} (ts : list (tensor A)) : rsafe (cat1 ts).
Proof.
  induction ts as [|t ts IH]; cbn [cat1]; [now apply rsafe_raise|].
  destruct ts as [|t' ts]; [apply rsafe_ok|].
  apply rsafe_bind; [exact IH|]. intros r _.
  destruct (bool_decide _); [apply rsafe_ok|now apply rsafe_raise].
Qed.

Section Calm.
Context {elt uid example batch : Type}.
Context `{!External elt uid example batch}.
Variable env : dist_env.


Lemma calm_lift {A} (r : result A) : rsafe r -> calm (lift (uid:=uid) r).
Proof. intros Hr w. split; [reflexivity|exact Hr]. Qed.

Lemma calm_ret {A} (a : A) : calm (mret (M:=M uid) a).
Proof. intros w. split; [reflexivity|apply rsafe_ok]. Qed.

Lemma calm_bind {A B} (c : M uid A) (f : A -> M uid B) :
  calm c -> (forall a, calm (f a)) -> calm (c ≫= f).
Proof.
  intros Hc Hf w. unfold mbind, M_bind.
  destruct (Hc w) as [Hs Hr]. destruct (c w) as [[a|e] w1]; cbn [fst snd] in *.
  - destruct (Hf a w1) as [Hs' Hr']. split; [congruence|exact Hr'].
  - split; [exact Hs|]. apply rsafe_raise. now apply Hr.
Qed.

Lemma saved_snoc (evs : list (event uid)) e :
  (forall f c, e <> TorchSave f c) -> saved (evs ++ [e]) = saved evs.
Proof.
  intros He. unfold saved. rewrite omap_app. cbn.
  destruct e; try (now rewrite app_nil_r). now destruct (He filename content).
Qed.

Lemma calm_emit (e : event uid) :
  (forall f c, e <> TorchSave f c) -> calm (emit e).
Proof. intros He w. split; [now apply saved_snoc|apply rsafe_ok]. Qed.

Lemma calm_set_training b : calm (set_training (uid:=uid) b).
Proof. intros w. split; [reflexivity|apply rsafe_ok]. Qed.

Lemma calm_no_grad {A} (body : M uid A) : calm body -> calm (no_grad body).
Proof.
  intros Hb w. unfold no_grad. destruct (Hb (set_grad false w)) as [Hs Hr].
  destruct (body (set_grad false w)) as [r w1]. exact (conj Hs Hr).
Qed.

Lemma calm_for_eachM {A S} (l : list A) (body : S -> A -> M uid S) s :
  (forall s x, calm (body s x)) -> calm (for_eachM l body s).
Proof.
  intros Hb. revert s; induction l as [|x l IH]; intros s; cbn [for_eachM].
  - apply calm_ret.
  - apply calm_bind; [apply Hb|]. intros s'. apply IH.
Qed.

Lemma calm_all_reduce t : calm (uid:=uid) (all_reduce env t).
Proof.
  intros w. split.
  - rewrite all_reduce_world. cbn [trace]. now apply saved_snoc.
  - unfold all_reduce. destruct (forallb _ _); [apply rsafe_ok|now apply rsafe_raise].
Qed.

Lemma rsafe_select_inputs a (d : data elt) : rsafe (select_inputs a d).
Proof.
  unfold select_inputs.
  destruct (pretrained_bert a); [|destruct (cloze_eval a)];
    repeat (apply rsafe_bind; [apply rsafe_field|intros ? _]); apply rsafe_ok.
Qed.

Lemma rsafe_call_model (model : Model elt) inputs : rsafe (call_model model inputs).
Proof.
  unfold call_model. destruct (forward model inputs);
    [apply rsafe_ok|now apply rsafe_raise].
Qed.

Lemma rsafe_run_forward (model : Model elt) inputs : rsafe (run_forward model inputs).
Proof.
  unfold run_forward, forward_chunked, forward_full.
  destruct (bool_decide _); [|apply rsafe_call_model].
  apply rsafe_bind.
  - apply rsafe_comprehension. intros i. apply rsafe_call_model.
  - intros l _. apply rsafe_cat1.
Qed.

Lemma rsafe_add_scores (metric_dict : dict (metric example)) p l eb sd :
  rsafe (add_scores metric_dict p l eb sd).
Proof.
  unfold add_scores. apply rsafe_for_each. intros sd' km.
  apply rsafe_bind; [apply rsafe_dict_item|]. intros cur _.
  apply rsafe_bind; [|intros v _; apply rsafe_ok].
  destruct (km.2 p l eb); [apply rsafe_ok|now apply rsafe_raise].
Qed.

Lemma rsafe_score_batch model (metric_dict : dict (metric example)) examples
    output_predictions a labeled st (b : batch) :
  rsafe (score_batch model metric_dict examples output_predictions a labeled st b).
Proof.
  unfold score_batch.
  apply rsafe_bind; [apply rsafe_select_inputs|]. intros [inputs labels_] _.
  apply rsafe_bind; [apply rsafe_run_forward|]. intros logits _.
  apply rsafe_bind.
  { destruct (d_loss_mask _); [|apply rsafe_ok].
    unfold apply_loss_mask, tensor_zip.
    destruct (bool_decide _); [apply rsafe_ok|now apply rsafe_raise]. }
  intros logits' _. apply rsafe_bind.
  { destruct examples as [ex|]; [|apply rsafe_ok].
    apply rsafe_bind; [|intros; apply rsafe_ok].
    apply rsafe_comprehension. intros u.
    destruct (ex u); [apply rsafe_ok|now apply rsafe_raise]. }
  intros example_batch _. apply rsafe_bind; [|intros; apply rsafe_ok].
  destruct labeled; [apply rsafe_add_scores|apply rsafe_ok].
Qed.

Lemma rsafe_scoring_block model dl (metric_dict : dict (metric example)) examples
    output_predictions a labeled :
  rsafe (scoring_block env model dl metric_dict examples output_predictions a labeled).
Proof.
  unfold scoring_block. apply rsafe_bind.
  - destruct output_predictions; [|apply rsafe_ok].
    unfold py_assert. destruct (bool_decide _); [apply rsafe_ok|now apply rsafe_raise].
  - intros _ _. apply rsafe_for_each. intros st b. apply rsafe_score_batch.
Qed.

Lemma calm_reduce_scores sd total : calm (uid:=uid) (reduce_scores env sd total).
Proof.
  unfold reduce_scores.
  apply calm_bind.
  { apply calm_lift, rsafe_comprehension. intros k. apply rsafe_dict_item. }
  intros values. apply calm_bind; [apply calm_all_reduce|]. intros reduced.
  apply calm_bind.
  { apply calm_lift. unfold unpack_scores. apply rsafe_for_each. intros sd' ik.
    destruct (_ !! _); [apply rsafe_ok|now apply rsafe_raise]. }
  intros sd'. apply calm_bind; [|intros; apply calm_ret].
  apply calm_lift. destruct (last _); [apply rsafe_ok|now apply rsafe_raise].
Qed.

Lemma calm_evaluate_metrics name model dl (metric_dict : dict (metric example))
    examples epoch output_predictions a labeled :
  calm (evaluate_metrics env name model dl metric_dict examples epoch
                         output_predictions a labeled).
Proof.
  unfold evaluate_metrics, model_eval, model_train.
  apply calm_bind.
  { apply calm_bind; [apply calm_set_training|]. intros _. now apply calm_emit. }
  intros _. apply calm_bind.
  { apply calm_no_grad, calm_lift, rsafe_scoring_block. }
  intros st. apply calm_bind.
  { apply calm_bind; [apply calm_set_training|]. intros _. now apply calm_emit. }
  intros _. apply calm_bind; [apply calm_reduce_scores|]. intros [sd total_count].
  apply calm_bind; [|intros; apply calm_ret].
  apply calm_lift. unfold report_rates. apply rsafe_comprehension. intros kv.
  apply rsafe_bind; [|intros; apply rsafe_ok].
  unfold py_truediv. destruct (is_zero _); [now apply rsafe_raise|apply rsafe_ok].
Qed.

Lemma rsafe_add_single single_dict sd : rsafe (add_single single_dict sd).
Proof.
  unfold add_single. apply rsafe_for_each. intros sd' key.
  apply rsafe_bind; [apply rsafe_dict_item|]. intros cur _.
  apply rsafe_bind; [apply rsafe_dict_item|]. intros v _. apply rsafe_ok.
Qed.

Lemma calm_combine_dataset (metric_dict : dict (metric example)) a model epoch
    output_predictions c nd :
  calm (combine_dataset env metric_dict a model epoch output_predictions c nd).
Proof.
  unfold combine_dataset. apply calm_bind; [apply calm_evaluate_metrics|].
  intros [[single_dict total_count] preds]. apply calm_bind.
  { apply calm_lift. destruct output_predictions; [|apply rsafe_ok].
    destruct preds; [apply rsafe_ok|now apply rsafe_raise]. }
  intros np. apply calm_bind; [|intros; apply calm_ret].
  apply calm_lift, rsafe_add_single.
Qed.

Lemma calm_scoring_passes dataloaders (metric_dict : dict (metric example)) a
    model epoch output_predictions :
  calm (scoring_passes env dataloaders metric_dict a model epoch output_predictions).
Proof.
  unfold scoring_passes. apply calm_bind; [now apply calm_emit|]. intros _.
  apply calm_bind.
  { apply calm_lift. destruct output_predictions; [|apply rsafe_ok].
    unfold py_assert. destruct (bool_decide _); [apply rsafe_ok|now apply rsafe_raise]. }
  intros _. apply calm_for_eachM. intros c nd. apply calm_combine_dataset.
Qed.

Lemma rsafe_rates sd total : rsafe (rates sd total).
Proof.
  unfold rates. apply rsafe_comprehension. intros kv.
  apply rsafe_bind; [|intros; apply rsafe_ok].
  unfold py_truediv. destruct (is_zero _); [now apply rsafe_raise|apply rsafe_ok].
Qed.

(** The report always goes through and writes no file. *)
Lemma report_ok is_test epoch summary_writer total sd (w : world uid) :
  (report is_test epoch summary_writer total sd w).1 = Ok tt
  /\ saved (trace (report is_test epoch summary_writer total sd w).2)
     = saved (trace w).
Proof.
  unfold report.
  assert (forall l (w : world uid),
             let out := for_eachM l
               (fun (_ : unit) (kv : string * spec_float) =>
                  if summary_writer && bool_decide (0 <= epoch) && negb is_test
                  then emit (AddScalar ("Train/valid_" +:+ kv.1) kv.2 epoch)
                  else mret tt) tt w in
             out.1 = Ok tt /\ saved (trace out.2) = saved (trace w)) as Hloop.
  { induction l as [|kv l IH]; intros w0; cbn [for_eachM]; [split; reflexivity|].
    unfold mbind, M_bind.
    destruct (summary_writer && bool_decide (0 <= epoch) && negb is_test).
    - cbn [emit]. destruct (IH {| training := training w0;
                                  grad_enabled := grad_enabled w0;
                                  collectives := collectives w0;
                                  trace := trace w0 ++
                                    [AddScalar ("Train/valid_" +:+ kv.1) kv.2 epoch] |})
        as [H1 H2].
      split; [exact H1|]. rewrite H2. cbn [trace]. now apply saved_snoc.
    - cbn [mret M_ret]. apply IH. }
  unfold mbind, M_bind. destruct (Hloop sd w) as [H1 H2].
  destruct (for_eachM sd _ tt w) as [r w1]. cbn [fst snd] in *. subst r.
  cbn [emit fst snd trace]. split; [reflexivity|].
  rewrite <- H2. now apply saved_snoc.
Qed.
End Calm.

(** ** metrics_func: the steps and the persistence of predictions *)

Lemma for_each_invariant {A S} (P : S -> Prop) (l : list A)
    (body : S -> A -> result S) s s' :
  (forall s x s', P s -> body s x = Ok s' -> P s') ->
  P s -> for_each l body s = Ok s' -> P s'.
Proof.
  intros Hb. revert s; induction l as [|x l IH]; intros s Hs; cbn [for_each].
  - now intros [= <-].
  - destruct (body s x) as [s1|e] eqn:Hx; cbn; [|discriminate].
    apply IH. now apply (Hb s x).
Qed.

Lemma dict_get_keys {V} (d : dict V) k :
  is_Some (dict_get d k) <-> k ∈ dict_keys d.
Proof.
  unfold dict_keys. induction d as [|[k' v] d IH]; cbn.
  - split; [intros [? [=]]|intros H; inversion H].
  - destruct (decide (k = k')) as [->|Hne].
    + split; [intros _; left|eauto].
    + rewrite IH. split; [now right|]. intros H. inversion H; congruence.
Qed.

Lemma dict_keys_set {V} (d : dict V) k v :
  k ∈ dict_keys d -> dict_keys (dict_set d k v) = dict_keys d.
Proof.
  unfold dict_keys. induction d as [|[k' v'] d IH]; cbn; intros Hk.
  - inversion Hk.
  - destruct (decide (k = k')) as [->|Hne]; cbn; [reflexivity|].
    f_equal. apply IH. inversion Hk; congruence.
Qed.

Lemma dict_item_keys {V} (d : dict V) k v : dict_item d k = Ok v -> k ∈ dict_keys d.
Proof.
  unfold dict_item. intros H. apply dict_get_keys.
  destruct (dict_get d k); [eauto|discriminate].
Qed.

Lemma add_single_keys single_dict sd sd' :
  add_single single_dict sd = Ok sd' -> dict_keys sd' = dict_keys sd.
Proof.
  unfold add_single.
  apply (for_each_invariant (fun d => dict_keys d = dict_keys sd)); [|reflexivity].
  intros d key d' Hd. destruct (dict_item d key) as [cur|] eqn:Hcur; cbn; [|discriminate].
  destruct (dict_item single_dict key); cbn; [|discriminate].
  intros [= <-]. rewrite dict_keys_set; [exact Hd|]. exact (dict_item_keys _ _ _ Hcur).
Qed.

Section Persist.
Context {elt uid example batch : Type}.
Context `{!External elt uid example batch}.
Variable env : dist_env.

Lemma for_eachM_invariant {A S} (P : S -> list A -> Prop) (l : list A)
    (body : S -> A -> M uid S) :
  (forall s seen x w s' w',
      P s seen -> body s x w = (Ok s', w') -> P s' (seen ++ [x])) ->
  forall seen s w s' w',
    P s seen -> for_eachM l body s w = (Ok s', w') -> P s' (seen ++ l).
Proof.
  intros Hb. induction l as [|x l IH]; intros seen s w s' w' Hs; cbn [for_eachM].
  - intros [= <- _]. now rewrite app_nil_r.
  - unfold mbind, M_bind. destruct (body s x w) as [[s1|e] w1] eqn:Hx; [|discriminate].
    intros Hrest. replace (seen ++ x :: l) with ((seen ++ [x]) ++ l)
      by now rewrite <- app_assoc.
    eapply IH; [|exact Hrest]. eapply Hb; eassumption.
Qed.


Lemma scoring_passes_combined dataloaders (metric_dict : dict (metric example)) a
    model epoch output_predictions (w : world uid) c w' :
  scoring_passes env dataloaders metric_dict a model epoch output_predictions w
  = (Ok c, w') ->
  combined metric_dict output_predictions c dataloaders
  /\ (output_predictions = true -> data_parallel_world_size env = 1).
Proof.
  unfold scoring_passes, mbind, M_bind, emit, lift. cbn [fst snd].
  destruct (if output_predictions then _ else _) as [[]|e] eqn:Hassert; [|discriminate].
  intros Hloop. split.
  - assert (forall c seen nd (w : world uid) c' w',
               combined metric_dict output_predictions c seen ->
               combine_dataset env metric_dict a model epoch output_predictions c nd w
               = (Ok c', w') ->
               combined metric_dict output_predictions c' (seen ++ [nd])) as Hbody.
    { clear. intros c seen [name dl] w c' w' [Hk Hn].
      unfold combine_dataset, mbind, M_bind, lift, mret, M_ret. cbn [fst snd].
      destruct (evaluate_metrics _ _ _ _ _ _ _ _ _ _ _)
        as [[[[single_dict total_count] preds]|e] w1]; [|discriminate].
      destruct (if output_predictions then _ else _) as [np|e] eqn:Hnp; [|discriminate].
      destruct (add_single single_dict (c_score_dict c)) as [sd|e] eqn:Hsd;
        [|discriminate].
      intros [= <- _]. split; cbn [c_score_dict named_predictions names].
      - rewrite (add_single_keys _ _ _ Hsd). exact Hk.
      - intros ->. destruct (Hn eq_refl) as [Hp Hnames].
        destruct preds as [p|]; [|discriminate]. injection Hnp as <-.
        cbn [fst snd]. rewrite !fmap_app, foldl_app, Hp, <- Hnames. split; reflexivity. }
    refine (for_eachM_invariant (combined metric_dict output_predictions)
              dataloaders _ Hbody [] _ _ c w' _ Hloop).
    split; cbn [c_score_dict named_predictions names].
    + unfold dict_keys. rewrite <- list_fmap_compose. reflexivity.
    + intros _. split; reflexivity.
  - intros ->. unfold py_assert in Hassert.
    destruct (bool_decide (data_parallel_world_size env = 1)) eqn:Hws; [|discriminate].
    now apply bool_decide_eq_true in Hws.
Qed.

(** The steps of [metrics_func], one after the other. *)
Lemma metrics_func_steps dataloaders (metric_dict : dict (metric example)) a
    is_test model epoch output_predictions summary_writer (w : world uid) :
  metrics_func env dataloaders metric_dict a is_test model epoch output_predictions
               summary_writer w
  = match scoring_passes env dataloaders metric_dict a model epoch
                         output_predictions w with
    | (Raise e, w1) => (Raise e, w1)
    | (Ok c, w1) =>
        match rates (c_score_dict c) (c_total c) with
        | Raise e => (Raise e, w1)
        | Ok sd =>
            let w2 := (report is_test epoch summary_writer (c_total c) sd w1).2 in
            match persist env a output_predictions c w2 with
            | (Raise e, w3) => (Raise e, w3)
            | (Ok _, w3) => (Ok sd, w3)
            end
        end
    end.
Proof.
  unfold metrics_func, mbind, M_bind, lift, mret, M_ret.
  destruct (scoring_passes _ _ _ _ _ _ _ _) as [[c|e] w1]; [|reflexivity].
  destruct (rates _ _) as [sd|e]; [|reflexivity].
  pose proof (report_ok is_test epoch summary_writer (c_total c) sd w1) as [Hr _].
  destruct (report _ _ _ _ _ _) as [r w2]. cbn [fst snd] in *. subst r.
  destruct (persist _ _ _ _ _) as [[[]|e] w3]; reflexivity.
Qed.

Lemma saved_save (evs : list (event uid)) f c :
  saved (evs ++ [TorchSave f c]) = saved evs ++ [(f, c)].
Proof. unfold saved. now rewrite omap_app. Qed.

Lemma saved_grows (l : list (string * list (string * predictions uid))) x :
  l ++ [x] <> l.
Proof. intros H. apply (f_equal length) in H. rewrite length_app in H. cbn in H. lia. Qed.

(** C8, amended. The persistence step is attempted exactly when
    prediction output is requested, the data-parallel world size is 1,
    the rank is 0, and the scoring passes and the computation of the
    rates have completed without raising.  When it is attempted, an
    unset load directory is the assertion failure and nothing is
    written; otherwise the named predictions, one entry per dataset in
    order, are written to
    [os.path.join(load, "predictions_{dataset1}_{dataset2}....pt")] and
    the rates are returned. *)
Theorem persistence_guard dataloaders (metric_dict : dict (metric example)) a
    is_test model epoch output_predictions summary_writer (w : world uid) :
  let out := metrics_func env dataloaders metric_dict a is_test model epoch
                          output_predictions summary_writer w in
  let passes := scoring_passes env dataloaders metric_dict a model epoch
                               output_predictions w in
  (write_attempted (trace w) (trace out.2) out.1
   <-> output_predictions = true /\ data_parallel_world_size env = 1
       /\ rank env = 0
       /\ exists c sd, passes.1 = Ok c /\ rates (c_score_dict c) (c_total c) = Ok sd)
  /\ (write_attempted (trace w) (trace out.2) out.1 ->
      match load a with
      | None =>
          out.1 = Raise (AssertionError load_directory)
          /\ saved (trace out.2) = saved (trace w)
      | Some dir =>
          exists c sd,
            passes.1 = Ok c /\ out.1 = Ok sd
            /\ (named_predictions c).*1 = dataloaders.*1
            /\ saved (trace out.2)
               = saved (trace w)
                 ++ [(os_path_join dir (predictions_file dataloaders.*1),
                      named_predictions c)]
      end).
Proof.
  cbn zeta. rewrite metrics_func_steps.
  pose proof (calm_scoring_passes env dataloaders metric_dict a model epoch
                output_predictions w) as [Hsaved Hsafe].
  pose proof (scoring_passes_combined dataloaders metric_dict a model epoch
                output_predictions w) as Hcomb.
  destruct (scoring_passes _ _ _ _ _ _ _ _) as [[c|e] w1]; cbn [fst snd] in *.
  2:{ assert (~ write_attempted (trace w) (trace w1) (@Raise (dict pyfloat) e)) as Hno.
      { intros [[= ->]|Hs]; [|congruence]. now specialize (Hsafe _ eq_refl). }
      split; [split; [tauto|]|tauto]. intros (_ & _ & _ & c & sd & [=] & _). }
  destruct (Hcomb c w1 eq_refl) as [[_ Hnp] Hws]. clear Hcomb Hsafe.
  destruct (rates (c_score_dict c) (c_total c)) as [sd|e] eqn:Hrates.
  2:{ assert (~ write_attempted (trace w) (trace w1) (@Raise (dict pyfloat) e)) as Hno.
      { intros [[= ->]|Hs]; [|congruence].
        now pose proof (rsafe_rates _ _ _ Hrates). }
      split; [split; [tauto|]|tauto].
      intros (_ & _ & _ & c' & sd & [= <-] & Hsd). congruence. }
  pose proof (report_ok is_test epoch summary_writer (c_total c) sd w1) as [_ Hrep].
  set (w2 := (report is_test epoch summary_writer (c_total c) sd w1).2) in *.
  unfold persist.
  destruct output_predictions; cbn [andb].
  2:{ cbn [mret M_ret fst snd]. unfold write_attempted.
      split; [split|]; [intros [[=]|Hs]; congruence | intros ([=] & _)
                       | intros [[=]|Hs]; congruence]. }
  destruct (Hnp eq_refl) as [Hfst Hnames]. specialize (Hws eq_refl).
  destruct (bool_decide (rank env = 0)) eqn:Hrank.
  2:{ apply bool_decide_eq_false in Hrank. cbn [mret M_ret fst snd].
      unfold write_attempted.
      split; [split|]; [intros [[=]|Hs]; congruence | intros (_ & _ & ? & _); congruence
                       | intros [[=]|Hs]; congruence]. }
  apply bool_decide_eq_true in Hrank.
  destruct (load a) as [dir|].
  - cbn [emit fst snd trace]. unfold write_attempted.
    rewrite saved_save, Hrep, Hsaved.
    unfold predictions_file. rewrite <- Hnames.
    split; [split|].
    + intros _. repeat split; try assumption. exists c, sd. auto.
    + intros _. right. apply saved_grows.
    + intros _. exists c, sd. repeat split; assumption || reflexivity.
  - cbn [lift fst snd]. split; [split|].
    + intros _. repeat split; try assumption. exists c, sd. auto.
    + intros _. now left.
    + intros _. split; [reflexivity|congruence].
Qed.
End Persist.

Lemma persistence_guard_witness :
  let out := metrics_func SampleEval.single_worker [("dev", SampleEval.loader)]
               [("acc", accuracy_metric)] SampleEval.default_args false
               SampleForward.model 3 true true SampleEval.start in
  let passes := scoring_passes SampleEval.single_worker [("dev", SampleEval.loader)]
                  [("acc", accuracy_metric)] SampleEval.default_args
                  SampleForward.model 3 true SampleEval.start in
  write_attempted (trace SampleEval.start) (trace out.2) out.1
  /\ exists c sd,
      passes.1 = Ok c /\ out.1 = Ok sd
      /\ (named_predictions c).*1 = ["dev"]
      /\ saved (trace out.2)
         = [(os_path_join "/ckpt" (predictions_file ["dev"]), named_predictions c)].
Proof.
  cbn zeta.
  assert (write_attempted (trace SampleEval.start)
            (trace (metrics_func SampleEval.single_worker [("dev", SampleEval.loader)]
               [("acc", accuracy_metric)] SampleEval.default_args false
               SampleForward.model 3 true true SampleEval.start).2)
            (metrics_func SampleEval.single_worker [("dev", SampleEval.loader)]
               [("acc", accuracy_metric)] SampleEval.default_args false
               SampleForward.model 3 true true SampleEval.start).1) as Hatt
      by (right; vm_compute; discriminate).
  split; [exact Hatt|].
  exact (proj2 (persistence_guard SampleEval.single_worker [("dev", SampleEval.loader)]
                  [("acc", accuracy_metric)] SampleEval.default_args false
                  SampleForward.model 3 true true SampleEval.start) Hatt).
Defined.

(** C8 as stated fails when the scoring does not complete: prediction
    output is requested, the world size is 1 and the rank is 0, yet a
    metric function raises and nothing is attempted. *)
Lemma no_write_when_scoring_raises :
  let out := metrics_func SampleEval.single_worker [("dev", SampleEval.loader)]
               [("acc", SampleEval.failing_metric)] SampleEval.default_args false
               SampleForward.model 3 true true SampleEval.start in
  data_parallel_world_size SampleEval.single_worker = 1
  /\ rank SampleEval.single_worker = 0
  /\ out.1 = Raise (InMetric "acc" (RuntimeError "metric failed"))
  /\ saved (trace out.2) = saved (trace SampleEval.start)
  /\ ~ write_attempted (trace SampleEval.start) (trace out.2) out.1.
Proof.
  cbn zeta. split; [reflexivity|]. split; [reflexivity|].
  assert ((metrics_func SampleEval.single_worker [("dev", SampleEval.loader)]
             [("acc", SampleEval.failing_metric)] SampleEval.default_args false
             SampleForward.model 3 true true SampleEval.start).1
          = Raise (InMetric "acc" (RuntimeError "metric failed"))) as H1
      by (vm_compute; reflexivity).
  assert (saved (trace (metrics_func SampleEval.single_worker [("dev", SampleEval.loader)]
             [("acc", SampleEval.failing_metric)] SampleEval.default_args false
             SampleForward.model 3 true true SampleEval.start).2)
          = saved (trace SampleEval.start)) as H2
      by (vm_compute; reflexivity).
  split; [exact H1|]. split; [exact H2|].
  intros [H|H]; [rewrite H1 in H; discriminate|]. apply H. exact H2.
Qed.

(** ** The reduction: packing, summing, unpacking *)

Lemma cast_of_int dt1 dt2 n :
  0 <= n -> n <= 2 ^ prec_of dt1 -> n <= 2 ^ prec_of dt2 ->
  cast dt2 (of_int dt1 n) = of_int dt2 n.
Proof.
  intros Hn H1 H2. destruct (fmt_ok dt1) as [Hp1 He1], (fmt_ok dt2) as [Hp2 He2].
  pose proof (convert_int (prec_of dt1) (emax_of dt1) (prec_of dt2) (emax_of dt2)
                Hp1 He1 Hp2 He2 n Hn H1 H2) as H.
  unfold cast, of_int. destruct (binary_normalize (prec_of dt1) _ n 0 false); exact H.
Qed.

Lemma fadd_of_int dt a b :
  0 <= a -> 0 <= b -> a + b <= 2 ^ prec_of dt ->
  fadd dt (of_int dt a) (of_int dt b) = of_int dt (a + b).
Proof. intros. destruct (fmt_ok dt). now apply SFadd_int. Qed.

Lemma nonneg_of_int dt n : 0 <= n -> nonneg (of_int dt n) = true.
Proof. intros. now apply binary_normalize_nonneg. Qed.

Lemma nonneg_cast dt x : nonneg x = true -> nonneg (cast dt x) = true.
Proof.
  destruct x as [s|s| |s m e]; cbn [cast]; try (intros H; exact H).
  cbn [nonneg]. destruct s; [discriminate|]. intros _. apply binary_round_nonneg.
Qed.

Lemma nonneg_fadd dt x y :
  nonneg x = true -> nonneg y = true -> nonneg (fadd dt x y) = true.
Proof. apply SFadd_nonneg. Qed.

Lemma nonneg_nonzero_positive x :
  nonneg x = true -> is_zero x = false -> positive_float x = true.
Proof. destruct x as [s|s| |s m e]; cbn; congruence. Qed.

(** *** Comprehensions and dictionaries *)

Lemma comprehension_Forall2 {A B} (f : A -> result B) l ys :
  comprehension f l = Ok ys <-> Forall2 (fun x y => f x = Ok y) l ys.
Proof.
  revert ys; induction l as [|x l IH]; intros ys; cbn [comprehension].
  - split; [intros [= <-]; constructor|]. intros H; inversion H; reflexivity.
  - split.
    + destruct (f x) as [y|] eqn:Hx; cbn; [|discriminate].
      destruct (comprehension f l) as [ys'|] eqn:Hl; cbn; [|discriminate].
      intros [= <-]. constructor; [exact Hx|]. now apply IH.
    + intros H. inversion H as [|? y ? ys' Hx Hl]; subst.
      rewrite Hx. cbn. apply IH in Hl. rewrite Hl. reflexivity.
Qed.

Lemma comprehension_total {A B} (f : A -> result B) l :
  (forall x, x ∈ l -> exists y, f x = Ok y) ->
  exists ys, comprehension f l = Ok ys.
Proof.
  induction l as [|x l IH]; intros H; cbn [comprehension]; [eauto|].
  destruct (H x) as [y Hy]; [left|]. rewrite Hy. cbn.
  destruct IH as [ys Hys]; [intros; apply H; now right|]. rewrite Hys. cbn. eauto.
Qed.

Lemma dict_get_set_eq {V} (d : dict V) k v : dict_get (dict_set d k v) k = Some v.
Proof.
  induction d as [|[k' v'] d IH]; cbn.
  - now rewrite decide_True.
  - destruct (decide (k = k')) as [->|Hne]; cbn.
    + now rewrite decide_True.
    + now rewrite decide_False.
Qed.

Lemma dict_get_set_ne {V} (d : dict V) k k' v :
  k' <> k -> dict_get (dict_set d k v) k' = dict_get d k'.
Proof.
  intros Hne. induction d as [|[k0 v0] d IH]; cbn.
  - now rewrite decide_False.
  - destruct (decide (k = k0)) as [->|Hk]; cbn.
    + now rewrite !decide_False.
    + destruct (decide (k' = k0)); [reflexivity|exact IH].
Qed.

Lemma dict_get_fmap {V W} (f : V -> W) (d : dict V) k :
  dict_get ((fun kv => (kv.1, f kv.2)) <$> d) k = f <$> dict_get d k.
Proof.
  induction d as [|[k' v] d IH]; cbn; [reflexivity|].
  destruct (decide (k = k')); [reflexivity|exact IH].
Qed.

Lemma dict_keys_fmap {V W} (f : V -> W) (d : dict V) :
  dict_keys ((fun kv => (kv.1, f kv.2)) <$> d) = dict_keys d.
Proof. unfold dict_keys. rewrite <- list_fmap_compose. reflexivity. Qed.

(** Two dictionaries with the same keys in the same order and the same
    items are equal. *)
Lemma dict_ext {V} (d1 d2 : dict V) :
  dict_wf d1 -> dict_keys d1 = dict_keys d2 ->
  (forall k, k ∈ dict_keys d1 -> dict_get d1 k = dict_get d2 k) -> d1 = d2.
Proof.
  unfold dict_wf, dict_keys.
  revert d2; induction d1 as [|[k v1] d1 IH]; intros [|[k' v2] d2]; cbn;
    try discriminate; [reflexivity|].
  intros Hnd [= <- Hk] Hget. apply NoDup_cons in Hnd as [Hnotin Hnd].
  pose proof (Hget k ltac:(left)) as H0. cbn in H0. rewrite !decide_True in H0 by reflexivity.
  injection H0 as <-. f_equal. apply IH; [assumption|assumption|].
  intros k0 Hk0. specialize (Hget k0 ltac:(now right)). cbn in Hget.
  rewrite !decide_False in Hget by (intros ->; contradiction). exact Hget.
Qed.

Lemma sort_keys_perm (l : list string) : sort_keys l ≡ₚ l.
Proof. apply merge_sort_Permutation. Qed.

Lemma pack_values {V} (sd : dict V) (ks : list string) :
  (forall k, k ∈ ks -> k ∈ dict_keys sd) ->
  exists vals, comprehension (dict_item sd) ks = Ok vals
               /\ Forall2 (fun k v => dict_get sd k = Some v) ks vals.
Proof.
  intros Hks. destruct (comprehension_total (dict_item sd) ks) as [vals Hv].
  - intros k Hk. apply Hks, dict_get_keys in Hk as [v Hv].
    exists v. unfold dict_item. now rewrite Hv.
  - exists vals. split; [exact Hv|]. apply comprehension_Forall2 in Hv.
    eapply Forall2_impl; [exact Hv|]. intros k v. unfold dict_item.
    destruct (dict_get sd k); [now intros [= ->]|discriminate].
Qed.

(** Writing back by position: every key listed gets the entry of its
    position, the other keys keep their item, the order of the keys
    stays. *)
Lemma unpack_by_index (g : nat -> nat) (ks : list string) (u : list spec_float)
    (sd : dict pyfloat) :
  NoDup ks -> (forall k, k ∈ ks -> k ∈ dict_keys sd) ->
  (forall i, (i < length ks)%nat -> is_Some (u !! g i)) ->
  exists sd',
    for_each (imap (fun i key => (g i, key)) ks)
      (fun sd ik => match u !! ik.1 with
                    | Some v => Ok (dict_set sd ik.2 v)
                    | None => Raise IndexError
                    end) sd = Ok sd'
    /\ dict_keys sd' = dict_keys sd
    /\ (forall i k, ks !! i = Some k -> dict_get sd' k = u !! g i)
    /\ (forall k, k ∉ ks -> dict_get sd' k = dict_get sd k).
Proof.
  revert g sd; induction ks as [|k ks IH]; intros g sd Hnd Hin Hu.
  - exists sd. cbn. repeat split; try reflexivity. intros i k Hi. discriminate.
  - apply NoDup_cons in Hnd as [Hk Hnd]. cbn [imap for_each fst snd].
    destruct (Hu 0%nat) as [v Hv]; [cbn; lia|]. rewrite Hv. cbn [mbind result_bind].
    assert (dict_keys (dict_set sd k v) = dict_keys sd) as Hkeys
        by (apply dict_keys_set, Hin; left).
    destruct (IH (g ∘ S) (dict_set sd k v) Hnd) as (sd' & Hrun & Hk' & Hidx & Hrest).
    + intros k0 Hk0. rewrite Hkeys. apply Hin. now right.
    + intros i Hi. apply Hu. cbn. lia.
    + exists sd'. split; [exact Hrun|]. split; [congruence|]. split.
      * intros [|i] k0; cbn.
        -- intros [= <-]. rewrite (Hrest k Hk), dict_get_set_eq. now rewrite Hv.
        -- intros Hi. exact (Hidx i k0 Hi).
      * intros k0 Hk0. apply not_elem_of_cons in Hk0 as [Hne Hk0].
        rewrite (Hrest k0 Hk0). now apply dict_get_set_ne.
Qed.

Lemma length_group_sum (t : list spec_float) peers :
  Forall (fun p => length p = length t) peers ->
  length (group_sum t peers) = length t.
Proof.
  unfold group_sum. revert t; induction peers as [|p peers IH]; intros t Hp;
    cbn [foldl]; [reflexivity|].
  apply Forall_cons in Hp as [Hp Hps].
  assert (length (zip_with (fadd float32) t p) = length t) as Hl
      by (rewrite length_zip_with; lia).
  rewrite IH; [exact Hl|]. eapply Forall_impl; [exact Hps|]. cbn. congruence.
Qed.

(** The entry at [i] of the sum of the group: this worker's entry, then
    the entries of the peers added in order. *)
Lemma group_sum_lookup (i : nat) (t : list spec_float) peers x ys :
  t !! i = Some x -> Forall2 (fun p y => p !! i = Some y) peers ys ->
  group_sum t peers !! i = Some (foldl (fadd float32) x ys).
Proof.
  unfold group_sum. intros Hx Hys. revert t x Hx.
  induction Hys as [|p y peers ys Hy _ IH]; intros t x Hx; cbn [foldl]; [exact Hx|].
  apply IH. rewrite lookup_zip_with, Hx. cbn. now rewrite Hy.
Qed.

Section Reduce.
Context {elt uid example batch : Type}.
Context `{!External elt uid example batch}.
Variable env : dist_env.

Lemma all_reduce_ok t (w : world uid) reduced w' :
  all_reduce env t w = (Ok reduced, w') ->
  reduced = group_sum t (peer_vectors env (collectives w))
  /\ Forall (fun p => length p = length t) (peer_vectors env (collectives w)).
Proof.
  unfold all_reduce. destruct (forallb _ _) eqn:Hall; [|discriminate].
  intros [= <- _]. split; [reflexivity|].
  rewrite forallb_forall in Hall. apply Forall_forall.
  intros p Hp. apply list_elem_of_In in Hp. specialize (Hall p Hp).
  now apply bool_decide_eq_true in Hall.
Qed.

Lemma length_float_tensor l : length (float_tensor l) = length l.
Proof. unfold float_tensor. apply length_fmap. Qed.

(** What [reduce_scores] returns, from what [all_reduce] returns. *)
Lemma reduce_scores_spec (sd : dict pyfloat) total (w : world uid) :
  exists vals,
    Forall2 (fun k v => dict_get sd k = Some v) (sort_keys (dict_keys sd)) vals
    /\ match all_reduce env (float_tensor ((PyFloat <$> vals) ++ [PyInt total])) w with
       | (Raise e, w') => reduce_scores env sd total w = (Raise e, w')
       | (Ok reduced, w') =>
           dict_wf sd ->
           exists sd' tc,
             reduce_scores env sd total w = (Ok (sd', tc), w')
             /\ dict_keys sd' = dict_keys sd
             /\ (forall i k, sort_keys (dict_keys sd) !! i = Some k ->
                             dict_get sd' k = tolist reduced !! i)
             /\ tolist reduced !! length vals = Some tc
       end.
Proof.
  destruct (pack_values sd (sort_keys (dict_keys sd))) as (vals & Hpack & Hvals).
  { intros k Hk. now rewrite sort_keys_perm in Hk. }
  exists vals. split; [exact Hvals|].
  unfold reduce_scores, mbind, M_bind, lift, mret, M_ret. rewrite Hpack.
  set (t := float_tensor ((PyFloat <$> vals) ++ [PyInt total])).
  destruct (all_reduce env t w) as [[reduced|e] w'] eqn:Hred; [|reflexivity].
  intros Hwf. apply all_reduce_ok in Hred as [-> Hpeers].
  set (reduced := group_sum t (peer_vectors env (collectives w))).
  assert (length (tolist reduced) = S (length vals)) as Hlen.
  { unfold tolist, reduced. rewrite length_fmap, length_group_sum by assumption.
    unfold t. rewrite length_float_tensor, length_app, length_fmap. cbn. lia. }
  assert (length (sort_keys (dict_keys sd)) = length vals) as Hlk
      by (eapply Forall2_length; exact Hvals).
  destruct (unpack_by_index id (sort_keys (dict_keys sd)) (tolist reduced) sd)
    as (sd' & Hrun & Hkeys & Hidx & _).
  - rewrite sort_keys_perm. exact Hwf.
  - intros k Hk. now rewrite sort_keys_perm in Hk.
  - intros i Hi. apply lookup_lt_is_Some. cbn. lia.
  - unfold unpack_scores. cbn [id] in Hrun. rewrite Hrun.
    rewrite last_lookup, Hlen. cbn [pred].
    destruct (tolist reduced !! length vals) as [tc|] eqn:Htc.
    + exists sd', tc. repeat split; assumption || reflexivity.
    + apply lookup_ge_None in Htc. lia.
Qed.

Lemma all_reduce_no_peers t (w : world uid) :
  peer_vectors env (collectives w) = [] ->
  all_reduce env t w
  = (Ok t, {| training := training w; grad_enabled := grad_enabled w;
              collectives := S (collectives w);
              trace := trace w ++ [AllReduce t] |}).
Proof. intros Hpeers. unfold all_reduce. rewrite Hpeers. reflexivity. Qed.

(** Without peers, every item comes back as the entry packed for its
    key, and the total as the last entry packed. *)
Lemma reduce_scores_no_peers (sd : dict pyfloat) (total : Z) (w : world uid) :
  dict_wf sd -> peer_vectors env (collectives w) = [] ->
  (reduce_scores env sd total w).1
  = Ok ((fun kv => (kv.1, cast float64 (cast float32 kv.2))) <$> sd,
        cast float64 (cast float32 (of_int float64 total))).
Proof.
  intros Hwf Hpeers.
  destruct (reduce_scores_spec sd total w) as (vals & Hvals & Hspec).
  rewrite (all_reduce_no_peers _ w Hpeers) in Hspec.
  destruct (Hspec Hwf) as (sd' & tc & -> & Hkeys & Hidx & Htc).
  cbn [fst]. f_equal.
  assert (length (sort_keys (dict_keys sd)) = length vals) as Hlk
      by (eapply Forall2_length; exact Hvals).
  unfold tolist, float_tensor in Hidx, Htc.
  rewrite <- list_fmap_compose in Hidx, Htc. rewrite fmap_app in Hidx, Htc.
  f_equal.
  - apply dict_ext.
    + unfold dict_wf. now rewrite Hkeys.
    + now rewrite (dict_keys_fmap (fun v => cast float64 (cast float32 v))).
    + intros k Hk. rewrite Hkeys, <- sort_keys_perm in Hk.
      apply list_elem_of_lookup in Hk as [i Hi].
      rewrite (Hidx i k Hi),
        (dict_get_fmap (fun v => cast float64 (cast float32 v))).
      destruct (Forall2_lookup_l _ _ _ i k Hvals Hi) as (v & Hv & Hget).
      rewrite Hget. cbn. rewrite lookup_app_l
        by (rewrite length_fmap, length_fmap; apply lookup_lt_Some in Hv; exact Hv).
      rewrite <- list_fmap_compose, list_lookup_fmap, Hv. reflexivity.
  - rewrite lookup_app_r in Htc by (rewrite !length_fmap; lia).
    rewrite !length_fmap, Nat.sub_diag in Htc. cbn in Htc. congruence.
Qed.

(** C6, amended. Over a data-parallel group of size 1 the sum-reduction
    is the identity on the packed vector, whatever it holds; the
    accumulator comes back with its keys in their order, every metric
    sum being the entry packed for its key (the sum rounded to float32,
    as [torch.cuda.FloatTensor] holds it) and the total the last entry
    packed.  Hence sums that a float32 holds, and totals up to [2^24],
    come back equal to what went in. *)
Theorem single_worker_reduction (sd : dict pyfloat) (total : Z) (w : world uid) :
  dict_wf sd -> peer_vectors env (collectives w) = [] ->
  (forall t, (all_reduce env t w).1 = Ok t)
  /\ (reduce_scores env sd total w).1
     = Ok ((fun kv => (kv.1, cast float64 (cast float32 kv.2))) <$> sd,
           cast float64 (cast float32 (of_int float64 total)))
  /\ (Forall (fun kv => cast float64 (cast float32 kv.2) = kv.2) sd ->
      0 <= total <= 2 ^ 24 ->
      (reduce_scores env sd total w).1 = Ok (sd, of_int float64 total)).
Proof.
  intros Hwf Hpeers.
  pose proof (reduce_scores_no_peers sd total w Hwf Hpeers) as Hred.
  split; [intros t; now rewrite (all_reduce_no_peers t w Hpeers)|].
  split; [exact Hred|].
  intros Hrep Htot. rewrite Hred. f_equal. f_equal.
  - clear -Hrep. induction Hrep as [|[k v] sd Hv _ IH]; [reflexivity|].
    cbn in *. now rewrite Hv, IH.
  - rewrite (cast_of_int float64 float32), (cast_of_int float32 float64);
      cbn [prec_of]; try lia; try reflexivity.
    all: assert (2 ^ 24 <= 2 ^ 53) by (apply Z.pow_le_mono_r; lia); lia.
Qed.
End Reduce.

Lemma single_worker_reduction_witness :
  (reduce_scores (uid:=Z) SampleEval.single_worker SampleReduce.scores 3
                 SampleEval.start).1
  = Ok (SampleReduce.scores, of_int float64 3).
Proof.
  apply (single_worker_reduction (uid:=Z) SampleEval.single_worker SampleReduce.scores
           3 SampleEval.start).
  - change (NoDup ["f1"; "acc"]). apply (bool_decide_unpack _). vm_compute. exact I.
  - reflexivity.
  - repeat (constructor; [vm_compute; reflexivity|]). constructor.
  - lia.
Defined.

(** C6 as stated fails for a metric sum that a float32 does not hold:
    with a single worker the sum 0.1 comes back as the float32 nearest
    to it. *)
Lemma metric_sum_rounded_to_float32 :
  let out := reduce_scores (uid:=Z) SampleEval.single_worker
               [("f1", SampleReduce.one_tenth)] 3 SampleEval.start in
  peer_vectors SampleEval.single_worker (collectives SampleEval.start) = []
  /\ out.1 = Ok ([("f1", cast float64 (cast float32 SampleReduce.one_tenth))],
                 of_int float64 3)
  /\ cast float64 (cast float32 SampleReduce.one_tenth) <> SampleReduce.one_tenth.
Proof. vm_compute. repeat split; try reflexivity. discriminate. Qed.

(** ** The count of examples *)

Lemma sum_Z_nonneg l : Forall (fun n => 0 <= n) l -> 0 <= sum_Z l.
Proof. unfold sum_Z. induction 1; cbn; lia. Qed.

Lemma sum_Z_bound l B :
  Forall (fun n => 0 <= n) l -> sum_Z l <= B -> Forall (fun n => n <= B) l.
Proof.
  unfold sum_Z. intros H. revert B; induction H as [|n l Hn Hl IH]; intros B HB;
    [constructor|]. cbn [foldr] in HB.
  pose proof (sum_Z_nonneg l Hl) as Hs. unfold sum_Z in Hs.
  constructor; [lia|]. apply IH. lia.
Qed.

(** Adding counts in float32 is exact as long as the sum is at most
    [2^24]. *)
Lemma foldl_fadd_counts (a : Z) (ns : list Z) :
  0 <= a -> Forall (fun n => 0 <= n) ns -> a + sum_Z ns <= 2 ^ 24 ->
  foldl (fadd float32) (of_int float32 a) (of_int float32 <$> ns)
  = of_int float32 (a + sum_Z ns).
Proof.
  intros Ha Hns. revert a Ha; induction Hns as [|n ns Hn Hns IH]; intros a Ha Hsum;
    cbn [fmap list_fmap foldl sum_Z foldr] in *.
  - now rewrite Z.add_0_r.
  - pose proof (sum_Z_nonneg ns Hns) as Hs. unfold sum_Z in Hs.
    assert (a + n <= 2 ^ prec_of float32) as Han
        by (change (prec_of float32) with 24; lia).
    rewrite (fadd_of_int float32 a n Ha Hn Han).
    fold (sum_Z ns) in *. rewrite IH by lia. f_equal. lia.
Qed.

Section Total.
Context {elt uid example batch : Type}.
Context `{!External elt uid example batch}.
Variable env : dist_env.

Lemma select_inputs_label a (d : data elt) inputs labels_ :
  select_inputs a d = Ok (inputs, labels_) -> d_label d = Some labels_.
Proof.
  unfold select_inputs, field.
  destruct (pretrained_bert a); [|destruct (cloze_eval a)];
    destruct (d_text d), (d_types d), (d_label d), (d_position d),
      (d_attention_mask d), (d_target d), (d_logit_mask d); cbn;
    congruence.
Qed.

Lemma add_scores_keys (metric_dict : dict (metric example)) p l eb sd sd' :
  add_scores metric_dict p l eb sd = Ok sd' -> dict_keys sd' = dict_keys sd.
Proof.
  unfold add_scores.
  apply (for_each_invariant (fun d => dict_keys d = dict_keys sd)); [|reflexivity].
  intros d km d' Hd. destruct (dict_item d km.1) as [cur|] eqn:Hcur; cbn; [|discriminate].
  destruct (km.2 p l eb); cbn; [|discriminate].
  intros [= <-]. rewrite dict_keys_set; [exact Hd|]. exact (dict_item_keys _ _ _ Hcur).
Qed.

Lemma score_batch_total model (metric_dict : dict (metric example)) examples
    output_predictions a labeled st (b : batch) st' :
  score_batch model metric_dict examples output_predictions a labeled st b = Ok st' ->
  total st' = total st + label_count a b
  /\ dict_keys (score_dict st') = dict_keys (score_dict st).
Proof.
  unfold score_batch, label_count.
  destruct (select_inputs a (process_batch b a)) as [[inputs labels_]|] eqn:Hsel;
    cbn [mbind result_bind]; [|discriminate].
  rewrite (select_inputs_label _ _ _ _ Hsel).
  destruct (run_forward model inputs) as [logits|]; cbn [mbind result_bind];
    [|discriminate].
  destruct (match d_loss_mask (process_batch b a) with
            | Some loss_mask => _ | None => _ end) as [logits'|];
    cbn [mbind result_bind]; [|discriminate].
  destruct (match examples with Some ex => _ | None => _ end) as [example_batch|];
    cbn [mbind result_bind]; [|discriminate].
  destruct labeled.
  - destruct (add_scores _ _ _ _ _) as [sd|] eqn:Hadd; cbn [mbind result_bind];
      [|discriminate].
    intros [= <-]. cbn [total score_dict].
    apply add_scores_keys in Hadd. destruct output_predictions; cbn in *; auto.
  - cbn [mbind result_bind]. intros [= <-]. cbn [total score_dict].
    destruct output_predictions; cbn; auto.
Qed.

Lemma scoring_block_total model dl (metric_dict : dict (metric example)) examples
    output_predictions a labeled st :
  scoring_block env model dl metric_dict examples output_predictions a labeled
  = Ok st ->
  total st = sum_Z (label_count a <$> dl_batches dl)
  /\ dict_keys (score_dict st) = dict_keys metric_dict.
Proof.
  unfold scoring_block.
  destruct (if output_predictions then _ else _) as [[]|]; cbn [mbind result_bind];
    [|discriminate].
  match goal with |- for_each _ _ ?s0 = _ -> _ =>
    assert (total s0 = 0 /\ dict_keys (score_dict s0) = dict_keys metric_dict) as Hinit
      by (split; [reflexivity|]; unfold dict_keys; cbn [score_dict];
          now rewrite <- list_fmap_compose);
    generalize dependent s0 end.
  intros s0 [Ht0 Hk0].
  replace (sum_Z (label_count a <$> dl_batches dl))
    with (total s0 + sum_Z (label_count a <$> dl_batches dl)) by lia.
  rewrite <- Hk0. clear Ht0 Hk0. revert s0.
  induction (dl_batches dl) as [|b bs IH]; intros s0; cbn [for_each].
  - intros [= <-]. unfold sum_Z. cbn [fmap list_fmap foldr]. split; [lia|reflexivity].
  - destruct (score_batch _ _ _ _ _ _ s0 b) as [s1|] eqn:Hb; cbn [mbind result_bind];
      [|discriminate].
    apply score_batch_total in Hb as [Ht Hk]. intros Hrest.
    destruct (IH s1 Hrest) as [Ht' Hk']. split; [|congruence].
    rewrite Ht', Ht. unfold sum_Z. cbn [fmap list_fmap foldr]. lia.
Qed.

Lemma label_count_nonneg a (b : batch) : 0 <= label_count a b.
Proof. unfold label_count. destruct (d_label _); lia. Qed.

(** The total [reduce_scores] returns is the last entry of what
    [all_reduce] returns on the packed vector. *)
Lemma reduce_scores_total (sd : dict pyfloat) total (w : world uid) sd' tc w' :
  reduce_scores env sd total w = (Ok (sd', tc), w') ->
  exists vals reduced,
    all_reduce env (float_tensor ((PyFloat <$> vals) ++ [PyInt total])) w
    = (Ok reduced, w')
    /\ last (tolist reduced) = Some tc.
Proof.
  unfold reduce_scores, mbind, M_bind, lift, mret, M_ret.
  destruct (comprehension _ _) as [vals|]; [|discriminate].
  destruct (all_reduce env _ w) as [[reduced|] w1] eqn:Hred; [|discriminate].
  destruct (unpack_scores _ _ _) as [sd1|]; [|discriminate].
  destruct (last (tolist reduced)) as [v|] eqn:Hlast; [|discriminate].
  intros [= <- <- <-]. exists vals, reduced. split; [exact Hred|exact Hlast].
Qed.

Lemma last_snoc_lookup {A} (l : list A) x : (l ++ [x]) !! length l = Some x.
Proof. rewrite lookup_app_r by lia. now rewrite Nat.sub_diag. Qed.

(** The total after the reduction: this worker's count, converted to
    float32, to which the last entries of the peers are added in
    order. *)
Lemma reduced_total (sd : dict pyfloat) total (w : world uid) sd' tc w' ys :
  reduce_scores env sd total w = (Ok (sd', tc), w') ->
  Forall2 (fun p y => last p = Some y) (peer_vectors env (collectives w)) ys ->
  tc = cast float64
         (foldl (fadd float32) (cast float32 (of_int float64 total)) ys).
Proof.
  intros Hred Hys. apply reduce_scores_total in Hred as (vals & reduced & Hall & Hlast).
  apply all_reduce_ok in Hall as [-> Hlen].
  set (t := float_tensor ((PyFloat <$> vals) ++ [PyInt total])) in *.
  assert (length t = S (length vals)) as Ht.
  { unfold t. rewrite length_float_tensor, length_app, length_fmap. cbn. lia. }
  assert (t !! length vals = Some (cast float32 (of_int float64 total))) as Hx.
  { unfold t, float_tensor. rewrite fmap_app. cbn [fmap list_fmap py_float].
    rewrite <- (length_fmap PyFloat vals),
      <- (length_fmap (fun n => cast float32 (py_float n)) (PyFloat <$> vals)).
    apply last_snoc_lookup. }
  assert (Forall2 (fun p y => p !! length vals = Some y)
                  (peer_vectors env (collectives w)) ys) as Hys'.
  { clear -Hys Hlen Ht. induction Hys as [|p y ps ys Hp _ IH]; [constructor|].
    apply Forall_cons in Hlen as [Hl Hls]. constructor; [|now apply IH].
    rewrite last_lookup, Hl, Ht in Hp. exact Hp. }
  pose proof (group_sum_lookup _ _ _ _ _ Hx Hys') as Hsum.
  unfold tolist in Hlast. rewrite fmap_last, last_lookup in Hlast.
  rewrite length_group_sum, Ht in Hlast by assumption. cbn [pred] in Hlast.
  rewrite Hsum in Hlast. cbn in Hlast. congruence.
Qed.

End Total.



(** ** The rates and the empty evaluation *)

Lemma rates_zero_total (sd : dict pyfloat) total :
  sd <> [] -> is_zero (py_float total) = true ->
  rates sd total = Raise (ZeroDivisionError overall_rate).
Proof.
  destruct sd as [|kv sd]; [congruence|]. intros _ Hz.
  unfold rates. cbn [comprehension]. unfold py_truediv. now rewrite Hz.
Qed.

Lemma rates_ok_nonzero (sd : dict pyfloat) total r :
  sd <> [] -> rates sd total = Ok r -> is_zero (py_float total) = false.
Proof.
  intros Hne Hr. destruct (is_zero (py_float total)) eqn:Hz; [|reflexivity].
  rewrite (rates_zero_total sd total Hne Hz) in Hr. discriminate.
Qed.

Lemma report_rates_zero_total (sd : dict pyfloat) tc :
  sd <> [] -> is_zero tc = true ->
  report_rates sd tc = Raise (ZeroDivisionError dataset_report).
Proof.
  destruct sd as [|kv sd]; [congruence|]. intros _ Hz.
  unfold report_rates. cbn [comprehension]. unfold py_truediv. now rewrite Hz.
Qed.

Lemma dict_keys_nonempty {V W} (d : dict V) (d' : dict W) :
  dict_keys d = dict_keys d' -> d' <> [] -> d <> [].
Proof. destruct d, d'; cbn; congruence. Qed.

Lemma unpack_scores_nonempty keys u (sd sd' : dict pyfloat) :
  unpack_scores keys u sd = Ok sd' -> sd <> [] -> sd' <> [].
Proof.
  unfold unpack_scores. intros Hrun Hne. revert Hne Hrun.
  apply (for_each_invariant (fun d : dict pyfloat => d <> [])).
  intros d ik d' _. destruct (u !! ik.1); [|discriminate].
  intros [= <-]. destruct d as [|[k v] d]; cbn; [discriminate|].
  destruct (decide (ik.2 = k)); discriminate.
Qed.

Section Rates.
Context {elt uid example batch : Type}.
Context `{!External elt uid example batch}.
Variable env : dist_env.


Lemma reduce_scores_nonempty (sd : dict pyfloat) total (w : world uid) sd' tc w' :
  reduce_scores env sd total w = (Ok (sd', tc), w') -> sd <> [] -> sd' <> [].
Proof.
  unfold reduce_scores, mbind, M_bind, lift, mret, M_ret.
  destruct (comprehension _ _) as [vals|]; [|discriminate].
  destruct (all_reduce env _ w) as [[reduced|] w1]; [|discriminate].
  destruct (unpack_scores _ _ _) as [sd1|] eqn:Hun; [|discriminate].
  destruct (last (tolist reduced)); [|discriminate].
  intros [= <- _ _]. now apply (unpack_scores_nonempty _ _ _ _ Hun).
Qed.

(** A scoring pass that returns, with a metric registered, returns a
    total that is not zero; it is positive when the peers report
    counts. *)
Lemma evaluate_metrics_total name model dl (metric_dict : dict (metric example))
    examples epoch output_predictions a labeled (w : world uid) sd tc preds w' :
  metric_dict <> [] ->
  evaluate_metrics env name model dl metric_dict examples epoch output_predictions
                   a labeled w = (Ok (sd, tc, preds), w') ->
  is_zero tc = false /\ (peers_report_counts env -> nonneg tc = true).
Proof.
  intros Hmd Hrun. rewrite evaluate_metrics_steps in Hrun.
  destruct (scoring_block _ _ _ _ _ _ _ _) as [st|] eqn:Hblock; [|discriminate].
  destruct (scoring_block_total _ _ _ _ _ _ _ _ _ Hblock) as [Htotal Hkeys].
  destruct (reduce_scores env (score_dict st) (total st) _)
    as [[[sd1 tc1]|] w1] eqn:Hred; [|discriminate].
  destruct (report_rates sd1 tc1) eqn:Hrep; [|discriminate].
  injection Hrun as <- <- _ <-. split.
  - destruct (is_zero tc1) eqn:Hz; [|reflexivity].
    rewrite report_rates_zero_total in Hrep; [discriminate| |exact Hz].
    apply (reduce_scores_nonempty _ _ _ _ _ _ Hred).
    now apply (dict_keys_nonempty _ metric_dict).
  - intros Hpeers.
    assert (exists ys, Forall2 (fun p y => last p = Some y)
                               (peer_vectors env (collectives w)) ys
                       /\ Forall (fun y => nonneg y = true) ys) as (ys & Hys & Hnn).
    { specialize (Hpeers (collectives w)).
      induction Hpeers as [|p ps (y & Hy & Hn) _ (ys & IH1 & IH2)].
      - exists []. split; constructor.
      - exists (y :: ys). split; constructor; assumption. }
    rewrite (reduced_total env _ _ _ _ _ _ ys Hred Hys).
    apply nonneg_cast.
    assert (nonneg (cast float32 (of_int float64 (total st))) = true) as Hx.
    { apply nonneg_cast, nonneg_of_int. rewrite Htotal.
      apply sum_Z_nonneg, Forall_fmap, Forall_forall. intros b _.
      apply label_count_nonneg. }
    revert Hx. generalize (cast float32 (of_int float64 (total st))).
    clear -Hnn. induction Hnn as [|y ys Hy _ IH]; intros x Hx; cbn [foldl];
      [exact Hx|]. apply IH. now apply nonneg_fadd.
Qed.

Lemma scoring_passes_total dataloaders (metric_dict : dict (metric example)) a
    model epoch output_predictions (w : world uid) c w' :
  metric_dict <> [] -> peers_report_counts env ->
  scoring_passes env dataloaders metric_dict a model epoch output_predictions w
  = (Ok c, w') ->
  nonneg (py_float (c_total c)) = true.
Proof.
  intros Hmd Hpeers. unfold scoring_passes, mbind, M_bind, emit, lift. cbn [fst snd].
  destruct (if output_predictions then _ else _) as [[]|]; [|discriminate].
  intros Hloop.
  refine (for_eachM_invariant
            (fun (c : combining (uid:=uid)) _ => nonneg (py_float (c_total c)) = true)
            dataloaders _ _ [] _ _ c w' _ Hloop); [|reflexivity].
  clear -Hmd Hpeers. intros c seen [name dl] w c' w' Hc.
  unfold combine_dataset, mbind, M_bind, lift, mret, M_ret. cbn [fst snd].
  destruct (evaluate_metrics _ _ _ _ _ _ _ _ _ _ _)
    as [[[[single_dict total_count] preds]|] w1] eqn:Hrun; [|discriminate].
  destruct (if output_predictions then _ else _); [|discriminate].
  destruct (add_single _ _); [|discriminate].
  intros [= <- _]. cbn [c_total py_add py_float].
  apply nonneg_fadd; [exact Hc|].
  now apply (evaluate_metrics_total _ _ _ _ _ _ _ _ _ _ _ _ _ _ Hmd Hrun).
Qed.

(** With no batch and no peer, a scoring pass with a metric
    registered stops at the division of its report. *)
Lemma evaluate_metrics_empty name model dl (metric_dict : dict (metric example))
    examples epoch output_predictions a labeled (w : world uid) :
  metric_dict <> [] -> dict_wf metric_dict -> dl_batches dl = [] ->
  peer_vectors env (collectives w) = [] ->
  (output_predictions = true -> data_parallel_world_size env = 1) ->
  (evaluate_metrics env name model dl metric_dict examples epoch output_predictions
                    a labeled w).1
  = Raise (ZeroDivisionError dataset_report).
Proof.
  intros Hmd Hwf Hdl Hpeers Hws. rewrite evaluate_metrics_steps.
  assert (scoring_block env model dl metric_dict examples output_predictions a labeled
          = Ok {| total := 0;
                  score_dict := (fun km => (km.1, py_zero)) <$> metric_dict;
                  softmaxes := []; labels := []; ids := [] |}) as ->.
  { unfold scoring_block. rewrite Hdl.
    destruct output_predictions; [|reflexivity].
    unfold py_assert. rewrite bool_decide_eq_true_2 by auto. reflexivity. }
  cbn [score_dict total].
  match goal with |- context [reduce_scores env ?sd ?t ?w0] =>
    pose proof (reduce_scores_no_peers env sd t w0) as Hred;
    destruct (reduce_scores env sd t w0) as [[[sd1 tc1]|] w1]
  end; cbn [fst snd collectives] in Hred.
  - assert (dict_wf ((fun km : string * metric example => (km.1, py_zero))
                       <$> metric_dict)) as Hwf'.
    { unfold dict_wf, dict_keys. rewrite <- list_fmap_compose. exact Hwf. }
    specialize (Hred Hwf' Hpeers). injection Hred as -> ->.
    rewrite report_rates_zero_total; [reflexivity| |reflexivity].
    destruct metric_dict; [congruence|discriminate].
  - assert (dict_wf ((fun km : string * metric example => (km.1, py_zero))
                       <$> metric_dict)) as Hwf'.
    { unfold dict_wf, dict_keys. rewrite <- list_fmap_compose. exact Hwf. }
    specialize (Hred Hwf' Hpeers). discriminate.
Qed.

Lemma combine_dataset_raise (metric_dict : dict (metric example)) a model epoch
    output_predictions c name dl (w : world uid) e :
  (evaluate_metrics env name model dl metric_dict (examples (dl_dataset dl)) epoch
                    output_predictions a (labeled (dl_dataset dl)) w).1 = Raise e ->
  (combine_dataset env metric_dict a model epoch output_predictions c (name, dl) w).1
  = Raise e.
Proof.
  unfold combine_dataset, mbind, M_bind. cbn [fst snd].
  destruct (evaluate_metrics _ _ _ _ _ _ _ _ _ _ _) as [[out|e'] w1]; cbn [fst];
    [discriminate|]. now intros [= ->].
Qed.

(** C10, amended. With at least one metric registered: when the
    scoring passes end with a combined total of zero, [metrics_func]
    raises the division by zero of its rate computation; a scoring
    pass never returns a zero total (its own report divides first),
    so when every dataloader is empty and there is no peer the call
    raises a division by zero, in [evaluate_metrics] for the first
    dataset or, without any dataset, in [metrics_func]; and rates are
    returned only for a combined total that is not zero, and positive
    when the peers report counts. *)
Theorem rates_need_examples dataloaders (metric_dict : dict (metric example)) a
    is_test model epoch output_predictions summary_writer (w : world uid) :
  metric_dict <> [] ->
  let out := metrics_func env dataloaders metric_dict a is_test model epoch
                          output_predictions summary_writer w in
  let passes := scoring_passes env dataloaders metric_dict a model epoch
                               output_predictions w in
  (forall c, passes.1 = Ok c -> is_zero (py_float (c_total c)) = true ->
             out = (Raise (ZeroDivisionError overall_rate), passes.2))
  /\ (forall name dl examples labeled (w0 : world uid) sd tc preds w1,
         evaluate_metrics env name model dl metric_dict examples epoch
                          output_predictions a labeled w0
         = (Ok (sd, tc, preds), w1) ->
         is_zero tc = false)
  /\ (dict_wf metric_dict ->
      Forall (fun nd => dl_batches nd.2 = []) dataloaders ->
      peer_vectors env (collectives w) = [] ->
      (output_predictions = true -> data_parallel_world_size env = 1) ->
      out.1 = Raise (ZeroDivisionError
                       (if dataloaders is [] then overall_rate else dataset_report)))
  /\ (forall sd, out.1 = Ok sd ->
         exists c, passes.1 = Ok c /\ is_zero (py_float (c_total c)) = false
                   /\ (peers_report_counts env ->
                       positive_float (py_float (c_total c)) = true)).
Proof.
  intros Hmd. cbn zeta. rewrite metrics_func_steps.
  split; [|split; [|split]].
  - intros c Hc Hz.
    pose proof (scoring_passes_combined env dataloaders metric_dict a model epoch
                  output_predictions w) as Hcomb.
    destruct (scoring_passes _ _ _ _ _ _ _ _) as [[c'|] w1]; cbn [fst snd] in *;
      [|discriminate].
    injection Hc as ->. destruct (Hcomb c w1 eq_refl) as [[Hk _] _].
    rewrite rates_zero_total; [reflexivity| |exact Hz].
    now apply (dict_keys_nonempty _ metric_dict).
  - intros name dl examples labeled w0 sd tc preds w1 Hrun.
    now apply (evaluate_metrics_total _ _ _ _ _ _ _ _ _ _ _ _ _ _ Hmd Hrun).
  - intros Hwf Hempty Hpeers Hws.
    destruct dataloaders as [|[name dl] dataloaders].
    + unfold scoring_passes, mbind, M_bind, emit, lift. cbn [fst snd for_eachM].
      assert ((if output_predictions
               then py_assert (bool_decide (data_parallel_world_size env = 1))
                              metrics_func_single_worker
               else Ok tt) = Ok tt) as ->.
      { destruct output_predictions; [|reflexivity].
        unfold py_assert. rewrite bool_decide_eq_true_2 by auto. reflexivity. }
      cbn [mret M_ret c_score_dict c_total].
      rewrite rates_zero_total; [reflexivity| |reflexivity].
      destruct metric_dict; [congruence|discriminate].
    + apply Forall_cons in Hempty as [Hdl _]. cbn [snd] in Hdl.
      unfold scoring_passes. cbn [for_eachM].
      unfold mbind, M_bind, emit, lift. cbn [fst snd].
      assert ((if output_predictions
               then py_assert (bool_decide (data_parallel_world_size env = 1))
                              metrics_func_single_worker
               else Ok tt) = Ok tt) as ->.
      { destruct output_predictions; [|reflexivity].
        unfold py_assert. rewrite bool_decide_eq_true_2 by auto. reflexivity. }
      set (c0 := {| c_score_dict := (fun km : string * metric example => (km.1, py_zero))
                                      <$> metric_dict;
                    c_total := PyInt 0; named_predictions := [];
                    names := "predictions" |}).
      set (w0 := {| training := training w; grad_enabled := grad_enabled w;
                    collectives := collectives w;
                    trace := trace w ++ [PrintRank0 Calculating] |}).
      pose proof (combine_dataset_raise metric_dict a model epoch output_predictions
                    c0 name dl w0 _
                    (evaluate_metrics_empty name model dl metric_dict _ epoch
                       output_predictions a _ w0 Hmd Hwf Hdl Hpeers Hws)) as Hrun.
      destruct (combine_dataset env metric_dict a model epoch output_predictions c0
                  (name, dl) w0) as [r w1].
      cbn [fst] in Hrun. subst r. reflexivity.
  - intros sd Hout.
    pose proof (scoring_passes_combined env dataloaders metric_dict a model epoch
                  output_predictions w) as Hcomb.
    pose proof (scoring_passes_total dataloaders metric_dict a model epoch
                  output_predictions w) as Htot.
    destruct (scoring_passes _ _ _ _ _ _ _ _) as [[c|] w1]; cbn [fst snd] in *;
      [|discriminate].
    destruct (Hcomb c w1 eq_refl) as [[Hk _] _].
    destruct (rates (c_score_dict c) (c_total c)) as [sd1|] eqn:Hr; [|discriminate].
    exists c. split; [reflexivity|].
    assert (is_zero (py_float (c_total c)) = false) as Hz.
    { apply (rates_ok_nonzero _ _ _ (dict_keys_nonempty _ metric_dict Hk Hmd) Hr). }
    split; [exact Hz|]. intros Hpeers.
    apply nonneg_nonzero_positive; [|exact Hz].
    now apply (Htot c w1 Hmd Hpeers).
Qed.
End Rates.

Lemma rates_need_examples_witness :
  (metrics_func SampleEval.single_worker [("dev", SampleEval.empty_loader)]
     [("acc", accuracy_metric)] SampleEval.default_args false SampleForward.model 0
     false false SampleEval.start).1
  = Raise (ZeroDivisionError dataset_report).
Proof.
  pose proof (rates_need_examples SampleEval.single_worker
                [("dev", SampleEval.empty_loader)] [("acc", accuracy_metric)]
                SampleEval.default_args false SampleForward.model 0 false false
                SampleEval.start ltac:(discriminate)) as (_ & _ & H & _).
  apply H.
  - change (NoDup ["acc"]). apply (bool_decide_unpack _). vm_compute. exact I.
  - repeat constructor.
  - reflexivity.
  - discriminate.
Defined.

(** C10 as stated fails when no metric is registered: the dataloader is
    empty, the combined total is zero, and the call returns the empty
    mapping. *)
Lemma rates_returned_without_metric :
  let out := metrics_func SampleEval.single_worker [("dev", SampleEval.empty_loader)]
               [] SampleEval.default_args false SampleForward.model 0 false false
               SampleEval.start in
  let passes := scoring_passes SampleEval.single_worker
                  [("dev", SampleEval.empty_loader)] [] SampleEval.default_args
                  SampleForward.model 0 false SampleEval.start in
  match passes.1 with
  | Ok c => is_zero (py_float (c_total c)) = true
  | Raise _ => False
  end
  /\ out.1 = Ok [].
Proof. vm_compute. split; reflexivity. Qed.

(** ** The combination over datasets *)

Lemma add_single_one key (x y : pyfloat) :
  add_single [(key, x)] [(key, y)] = Ok [(key, fadd float64 y x)].
Proof.
  unfold add_single, dict_keys, dict_item. cbn.
  rewrite !decide_True by reflexivity. cbn. rewrite !decide_True by reflexivity.
  reflexivity.
Qed.

Section Combine.
Context {elt uid example batch : Type}.
Context `{!External elt uid example batch}.
Variable env : dist_env.

Lemma for_eachM_cons {A S} (x : A) (l : list A) (body : S -> A -> M uid S) s
    (w : world uid) :
  for_eachM (x :: l) body s w
  = match body s x w with
    | (Ok s', w') => for_eachM l body s' w'
    | (Raise e, w') => (Raise e, w')
    end.
Proof. reflexivity. Qed.

(** Without prediction output the scoring passes are the loop, after
    the first line of the log. *)
Lemma scoring_passes_quiet dataloaders (metric_dict : dict (metric example)) a
    model epoch (w : world uid) :
  scoring_passes env dataloaders metric_dict a model epoch false w
  = for_eachM dataloaders (combine_dataset env metric_dict a model epoch false)
      {| c_score_dict := (fun km => (km.1, py_zero)) <$> metric_dict;
         c_total := PyInt 0; named_predictions := []; names := "predictions" |}
      (emit (PrintRank0 Calculating) w).2.
Proof. reflexivity. Qed.

Lemma combine_dataset_ok (metric_dict : dict (metric example)) a model epoch c
    name dl (w w' : world uid) single_dict total_count preds sd :
  evaluate_metrics env name model dl metric_dict (examples (dl_dataset dl)) epoch
                   false a (labeled (dl_dataset dl)) w
  = (Ok (single_dict, total_count, preds), w') ->
  add_single single_dict (c_score_dict c) = Ok sd ->
  combine_dataset env metric_dict a model epoch false c (name, dl) w
  = (Ok {| c_score_dict := sd; c_total := py_add (c_total c) total_count;
           named_predictions := named_predictions c; names := names c |}, w').
Proof.
  intros Hrun Hadd. unfold combine_dataset, mbind, M_bind, lift, mret, M_ret.
  cbn [fst snd]. rewrite Hrun, Hadd. reflexivity.
Qed.

End Combine.


(** ** accuracy_metric *)

Section Product.
Variables prec emax : Z.
Hypothesis Hprec : 0 < prec.
Hypothesis Hemax : prec < emax.

Lemma canonical_int_digits n m e :
  0 < n <= 2 ^ prec ->
  bounded prec emax m e = true -> 1 - prec <= e ->
  2 ^ (prec - 1) <= Zpos m < 2 ^ prec.
Proof.
  intros Hn Hb He. destruct (bounded_inv prec emax m e Hb) as [Hf _].
  unfold fexp, emin in Hf.
  assert (Zpos (digits2_pos m) = prec) as Hd by lia.
  pose proof (digits2_bounds m) as Hm. rewrite Hd in Hm. exact Hm.
Qed.

Lemma SFmul_int a b :
  0 <= a <= 2 ^ prec -> 0 <= b <= 2 ^ prec -> a * b <= 2 ^ prec ->
  SFmul prec emax (binary_normalize prec emax a 0 false)
                  (binary_normalize prec emax b 0 false)
  = binary_normalize prec emax (a * b) 0 false.
Proof.
  intros Ha Hb Hab.
  destruct (Z.eq_dec a 0) as [->|Ha0].
  { rewrite Z.mul_0_l.
    destruct (Z.eq_dec b 0) as [->|Hb0]; [reflexivity|].
    destruct (binary_normalize_int prec emax Hprec Hemax b) as (m & e & -> & _);
      [lia|reflexivity]. }
  destruct (Z.eq_dec b 0) as [->|Hb0].
  { rewrite Z.mul_0_r.
    destruct (binary_normalize_int prec emax Hprec Hemax a) as (m & e & -> & _);
      [lia|reflexivity]. }
  destruct (binary_normalize_int prec emax Hprec Hemax a)
    as (ma & ea & -> & Hba & Hva & Hea); [lia|].
  destruct (binary_normalize_int prec emax Hprec Hemax b)
    as (mb & eb & -> & Hbb & Hvb & Heb); [lia|].
  destruct (binary_normalize_int prec emax Hprec Hemax (a * b))
    as (mn & en & -> & Hbn & Hvn & Hen); [nia|].
  cbn [SFmul xorb].
  pose proof (canonical_int_digits a ma ea ltac:(lia) Hba ltac:(lia)) as Hda.
  pose proof (canonical_int_digits b mb eb ltac:(lia) Hbb ltac:(lia)) as Hdb.
  pose proof (canonical_int_digits (a * b) mn en ltac:(nia) Hbn ltac:(lia)) as Hdn.
  assert (0 < 2 ^ prec) as Hp by (apply Z.pow_pos_nonneg; lia).
  assert (2 ^ prec = 2 * 2 ^ (prec - 1)) as Hp2.
  { rewrite <- (Z.pow_succ_r 2 (prec - 1)) by lia. f_equal. lia. }
  assert (Zpos ma * Zpos mb * 2 ^ (ea + eb + 2 * prec)
          = Zpos mn * 2 ^ (en + 2 * prec)) as Hv.
  { replace (ea + eb + 2 * prec) with ((ea + prec) + (eb + prec)) by lia.
    replace (en + 2 * prec) with ((en + prec) + prec) by lia.
    rewrite (Z.pow_add_r 2 (ea + prec) (eb + prec)) by lia.
    rewrite (Z.pow_add_r 2 (en + prec) prec) by lia.
    transitivity ((Zpos ma * 2 ^ (ea + prec)) * (Zpos mb * 2 ^ (eb + prec))); [ring|].
    rewrite Hva, Hvb. transitivity (a * b * 2 ^ prec * 2 ^ prec); [ring|].
    rewrite <- Hvn. ring. }
  assert (ea + eb <= en) as Hk.
  { destruct (Z_le_gt_dec (ea + eb) en) as [|Hgt]; [assumption|exfalso].
    replace (ea + eb + 2 * prec) with ((en + 2 * prec) + (ea + eb - en)) in Hv by lia.
    rewrite (Z.pow_add_r 2 (en + 2 * prec) (ea + eb - en)) in Hv by lia.
    assert (0 < 2 ^ (en + 2 * prec)) as Hq by (apply Z.pow_pos_nonneg; lia).
    assert (2 ^ 1 <= 2 ^ (ea + eb - en)) as Hr by (apply Z.pow_le_mono_r; lia).
    change (2 ^ 1) with 2 in Hr.
    assert (Zpos ma * Zpos mb * 2 ^ (ea + eb - en) = Zpos mn) as Hm by nia.
    assert (2 ^ (prec - 1) * 2 ^ (prec - 1) <= Zpos ma * Zpos mb) by nia.
    assert (1 <= 2 ^ (prec - 1)) by (apply (Z.pow_le_mono_r 2 0); lia).
    nia. }
  assert ((ma * mb)%positive = shl mn (en - (ea + eb))) as ->.
  { apply shl_unique; [lia|]. rewrite Pos2Z.inj_mul.
    replace (en + 2 * prec) with ((ea + eb + 2 * prec) + (en - (ea + eb))) in Hv by lia.
    rewrite (Z.pow_add_r 2 (ea + eb + 2 * prec) (en - (ea + eb))) in Hv by lia.
    assert (0 < 2 ^ (ea + eb + 2 * prec)) as Hq by (apply Z.pow_pos_nonneg; lia).
    nia. }
  replace (ea + eb) with (en - (en - (ea + eb))) at 2 by lia.
  apply binary_round_aux_shl; [assumption|lia].
Qed.
End Product.

Lemma fmul_of_int dt a b :
  0 <= a <= 2 ^ prec_of dt -> 0 <= b <= 2 ^ prec_of dt -> a * b <= 2 ^ prec_of dt ->
  fmul dt (of_int dt a) (of_int dt b) = of_int dt (a * b).
Proof. intros. destruct (fmt_ok dt). now apply SFmul_int. Qed.

Lemma count_matches (l : list (Z * Z)) (c : Z) :
  foldl (fun count pl => count + (if bool_decide (pl.1 = pl.2) then 1 else 0)) c l
  = c + Z.of_nat (length (filter (fun pl => pl.1 = pl.2) l)).
Proof.
  revert c. induction l as [|pl l IH]; intros c; cbn [foldl]; [cbn; lia|].
  rewrite IH, filter_cons. case_bool_decide; destruct (decide _); try tauto; cbn [length]; lia.
Qed.

Lemma matches_bounds predictions labels :
  0 <= matches predictions labels <= Z.of_nat (length labels).
Proof.
  unfold matches. split; [lia|].
  pose proof (length_filter (fun pl : Z * Z => pl.1 = pl.2) (zip predictions labels)).
  pose proof (length_zip_with pair predictions labels). unfold zip in *. lia.
Qed.

Lemma matches_same labels : matches labels labels = Z.of_nat (length labels).
Proof.
  unfold matches. f_equal.
  induction labels as [|x l IH]; [reflexivity|].
  cbn [zip zip_with]. rewrite filter_cons_True by reflexivity. cbn [length].
  f_equal. exact IH.
Qed.

Lemma accuracy_metric_value {example : Type} (predictions labels : list Z)
    (examples : option (list example)) :
  length predictions = length labels ->
  100 * Z.of_nat (length labels) <= 2 ^ 53 ->
  accuracy_metric predictions labels examples
  = Ok (of_int float64 (100 * matches predictions labels)).
Proof.
  intros Hlen Hsize. pose proof (matches_bounds predictions labels) as Hm.
  unfold accuracy_metric. rewrite bool_decide_eq_true_2 by assumption.
  cbn [py_assert mbind result_bind]. rewrite count_matches, Z.add_0_l.
  fold (matches predictions labels). f_equal.
  rewrite fmul_of_int; change (prec_of float64) with 53; try lia.
  f_equal. lia.
Qed.

(** X1. [accuracy_metric] raises its assertion when the two lists
    differ in length.  On lists of one length (up to [2^53 / 100]
    entries) it returns, as a float, exactly 100 times the number of
    positions at which prediction and label agree; that number lies
    between 0 and the length, and is the length when the predictions
    are the labels.  The examples are not looked at. *)
Theorem accuracy_metric_counts_matches {example : Type} (predictions labels : list Z)
    (examples : option (list example)) :
  (length predictions <> length labels ->
   accuracy_metric predictions labels examples
   = Raise (AssertionError accuracy_lengths))
  /\ (length predictions = length labels ->
      100 * Z.of_nat (length labels) <= 2 ^ 53 ->
      accuracy_metric predictions labels examples
      = Ok (of_int float64 (100 * matches predictions labels))
      /\ 0 <= matches predictions labels <= Z.of_nat (length labels)
      /\ (predictions = labels ->
          accuracy_metric predictions labels examples
          = Ok (of_int float64 (100 * Z.of_nat (length labels))))).
Proof.
  split.
  - intros Hne. unfold accuracy_metric.
    rewrite bool_decide_eq_false_2 by assumption. reflexivity.
  - intros Hlen Hsize.
    split; [now apply accuracy_metric_value|].
    split; [apply matches_bounds|].
    intros ->. rewrite accuracy_metric_value by assumption.
    now rewrite matches_same.
Qed.

Lemma accuracy_metric_counts_matches_witness :
  accuracy_metric (example:=string) [1; 0; 2; 2] [1; 1; 2; 0] None
  = Ok (of_int float64 200).
Proof.
  apply (accuracy_metric_counts_matches (example:=string) [1; 0; 2; 2] [1; 1; 2; 0]
           None); [reflexivity|vm_compute; discriminate].
Defined.

(** ** The segments of long inputs *)

Lemma cat1_cons {A} (t : tensor A) ts :
  ts <> [] ->
  cat1 (t :: ts)
  = (r ← cat1 ts;
     if bool_decide (length t = length r) then Ok (zip_with app t r)
     else Raise (RuntimeError "torch.cat: sizes do not match")).
Proof. destruct ts; [congruence|reflexivity]. Qed.

Lemma slice1_shift {A} (i : nat) (t : tensor A) :
  slice1 (Z.of_nat (S i) * segment_length) ((Z.of_nat (S i) + 1) * segment_length) t
  = slice1 (Z.of_nat i * segment_length) ((Z.of_nat i + 1) * segment_length)
           (drop 10 <$> t).
Proof.
  unfold slice1, segment_length. rewrite <- list_fmap_compose.
  apply list_fmap_ext. intros _ r _. cbn [compose].
  rewrite drop_drop.
  replace (Z.to_nat ((Z.of_nat (S i) + 1) * 10 - Z.of_nat (S i) * 10))
    with (Z.to_nat ((Z.of_nat i + 1) * 10 - Z.of_nat i * 10)) by lia.
  do 2 f_equal. lia.
Qed.

Lemma take_drop_rows {A} (t : tensor A) :
  zip_with app (slice1 (Z.of_nat 0 * segment_length)
                       ((Z.of_nat 0 + 1) * segment_length) t) (drop 10 <$> t) = t.
Proof.
  unfold slice1, segment_length. cbn [Z.of_nat Z.mul Z.add Z.sub Z.to_nat Z.opp Z.pos_sub].
  induction t as [|r t IH]; [reflexivity|].
  cbn [fmap list_fmap zip_with]. f_equal; [|exact IH].
  change (Z.to_nat (1 * 10 - 0)) with 10%nat. cbn [drop]. apply take_drop.
Qed.

(** The segments of a tensor whose rows fit in [n] segments concatenate
    back to it. *)
Lemma cat1_segments {A} (n : nat) (t : tensor A) :
  (0 < n)%nat -> Forall (fun r => (length r <= 10 * n)%nat) t ->
  cat1 ((fun i => slice1 (Z.of_nat i * segment_length)
                         ((Z.of_nat i + 1) * segment_length) t) <$> seq 0 n)
  = Ok t.
Proof.
  revert t. induction n as [|n IH]; intros t Hn Hrows; [lia|].
  cbn [seq fmap list_fmap]. rewrite <- fmap_S_seq, <- list_fmap_compose.
  destruct n as [|n].
  - cbn [seq fmap list_fmap cat1]. f_equal.
    apply (slice1_whole t).
    eapply Forall_impl; [exact Hrows|]. cbn beta. lia.
  - rewrite cat1_cons by (cbn; discriminate).
    erewrite (list_fmap_ext _ (fun i => slice1 (Z.of_nat i * segment_length)
                                 ((Z.of_nat i + 1) * segment_length) (drop 10 <$> t)));
      [|intros _ i _; cbn [compose]; apply slice1_shift].
    rewrite IH; [|lia|].
    + cbn [mbind result_bind].
      rewrite bool_decide_eq_true_2
        by (rewrite length_slice1, length_fmap; reflexivity).
      f_equal. apply take_drop_rows.
    + apply Forall_fmap. eapply Forall_impl; [exact Hrows|].
      intros r Hr. unfold compose. cbn beta in Hr. rewrite length_drop. lia.
Qed.

Lemma comprehension_fmap {A B} (f : A -> result B) (g : A -> B) (l : list A) :
  (forall x, x ∈ l -> f x = Ok (g x)) -> comprehension f l = Ok (g <$> l).
Proof.
  induction l as [|x l IH]; intros Hf; [reflexivity|].
  cbn [comprehension]. rewrite Hf by left.
  cbn [mbind result_bind]. rewrite IH by (intros; apply Hf; now right).
  reflexivity.
Qed.

Lemma n_chunks_ceil (len : Z) :
  1 <= len ->
  10 * (Z.of_nat (n_chunks len) - 1) < len <= 10 * Z.of_nat (n_chunks len).
Proof.
  intros Hl. unfold n_chunks, segment_length.
  pose proof (Z.div_mod (len - 1) 10 ltac:(lia)).
  pose proof (Z.mod_pos_bound (len - 1) 10 ltac:(lia)).
  assert (0 <= (len - 1) / 10) by (apply Z.div_pos; lia).
  rewrite Z2Nat.id by lia. lia.
Qed.

Section Segments.
Context {elt : Type}.

(** X2. For inputs of any sequence length [L >= 1], all of shape
    [B x L], the loop of lines 129-130 makes [ceil (L / 10)] segments;
    segment [i] of every input has [min 10 (L - 10 i)] positions, and
    the segments of an input, concatenated along dimension 1, give the
    input back. *)
Theorem segments_cover_any_length (inputs : list (tensor elt)) (B L : nat) :
  inputs <> [] -> (0 < B)%nat -> (0 < L)%nat ->
  Forall (fun t => shape t = replicate B L) inputs ->
  let n := n_chunks (size1 (hd [] inputs)) in
  (10 * (n - 1) < L <= 10 * n)%nat
  /\ (forall i, (i < n)%nat ->
        input_batch inputs (Z.of_nat i)
        = slice1 (Z.of_nat i * segment_length) ((Z.of_nat i + 1) * segment_length)
            <$> inputs
        /\ Forall (fun t => shape t = replicate B (Nat.min 10 (L - 10 * i)))
                  (input_batch inputs (Z.of_nat i)))
  /\ Forall (fun t =>
       cat1 ((fun i => slice1 (Z.of_nat i * segment_length)
                              ((Z.of_nat i + 1) * segment_length) t) <$> seq 0 n)
       = Ok t) inputs.
Proof.
  intros Hne HB HL Hshape n.
  assert (size1 (hd [] inputs) = Z.of_nat L) as Hsize.
  { destruct inputs as [|t ts]; [congruence|]. cbn [hd].
    apply (size1_of_shape t B L HB). now inversion Hshape. }
  pose proof (n_chunks_ceil (size1 (hd [] inputs)) ltac:(lia)) as Hceil.
  fold n in Hceil. rewrite Hsize in Hceil.
  split; [lia|]. split.
  - intros i Hi. split; [reflexivity|].
    unfold input_batch. apply Forall_fmap.
    eapply Forall_impl; [exact Hshape|]. intros t Ht. cbn [compose].
    rewrite shape_slice1, Ht, fmap_replicate. f_equal. unfold segment_length. lia.
  - eapply Forall_impl; [exact Hshape|]. intros t Ht. cbn beta.
    apply cat1_segments; [lia|].
    eapply Forall_impl; [exact (rows_of_shape t B L Ht)|]. cbn beta. lia.
Qed.

(** X3. For a model that commutes with slicing along dimension 1 (its
    answer on segment [i] of the inputs is segment [i] of its answer on
    the whole inputs, whose rows are no longer than the inputs), the
    segmented forward pass returns the logits of the single call, for
    every sequence length from 1 on; so does [run_forward], whichever
    branch it takes. *)
Theorem chunking_transparent_for_slicing_models (model : Model elt)
    (inputs : list (tensor elt)) (out : ftensor) :
  1 <= size1 (hd [] inputs) ->
  forward model inputs = Ok out ->
  Forall (fun r => Z.of_nat (length r) <= size1 (hd [] inputs)) out ->
  (forall i, (i < n_chunks (size1 (hd [] inputs)))%nat ->
     forward model (input_batch inputs (Z.of_nat i))
     = Ok (slice1 (Z.of_nat i * segment_length) ((Z.of_nat i + 1) * segment_length)
                  out)) ->
  forward_chunked model inputs = Ok out
  /\ forward_full model inputs = Ok out
  /\ run_forward model inputs = Ok out.
Proof.
  intros HL Hfull Hrows Hseg.
  pose proof (n_chunks_ceil _ HL) as Hceil.
  assert (forward_chunked model inputs = Ok out) as Hc.
  { unfold forward_chunked.
    rewrite (comprehension_fmap _
               (fun i => slice1 (Z.of_nat i * segment_length)
                                ((Z.of_nat i + 1) * segment_length) out)).
    - cbn [mbind result_bind]. apply cat1_segments; [lia|].
      eapply Forall_impl; [exact Hrows|]. cbn beta. lia.
    - intros i Hi. apply elem_of_seq in Hi. unfold call_model.
      rewrite Hseg by lia. reflexivity. }
  assert (forward_full model inputs = Ok out) as Hf.
  { unfold forward_full, call_model. now rewrite Hfull. }
  split; [exact Hc|]. split; [exact Hf|].
  unfold run_forward. case_bool_decide; assumption.
Qed.
End Segments.

Lemma segments_cover_any_length_witness :
  (10 * (n_chunks (size1 (hd [] SampleForward.inputs)) - 1) < 23
   <= 10 * n_chunks (size1 (hd [] SampleForward.inputs)))%nat.
Proof.
  apply (segments_cover_any_length SampleForward.inputs 2 23);
    [discriminate|lia|lia|].
  repeat constructor.
Defined.

Lemma chunking_transparent_for_slicing_models_witness :
  exists out,
    forward SampleForward.model SampleForward.inputs = Ok out
    /\ run_forward SampleForward.model SampleForward.inputs = Ok out.
Proof.
  eexists. split; [reflexivity|].
  apply (chunking_transparent_for_slicing_models SampleForward.model
           SampleForward.inputs).
  - vm_compute. discriminate.
  - reflexivity.
  - repeat constructor; vm_compute; discriminate.
  - intros i Hi.
    assert (i = 0 \/ i = 1 \/ i = 2)%nat as [->|[->| ->]]
      by (vm_compute in Hi; lia); vm_compute; reflexivity.
Defined.

(** ** Loss masks of zeros and ones *)








(** ** The loop over the batches *)

Section Loop.
Context {elt uid example batch : Type}.
Context `{!External elt uid example batch}.
Variable env : dist_env.

Lemma zero_scores_keys (md md' : dict (metric example)) :
  dict_keys md' = dict_keys md ->
  ((fun km => (km.1, py_zero)) <$> md' : list (string * spec_float))
  = (fun km => (km.1, py_zero)) <$> md.
Proof.
  intros Hk.
  change ((fun k : string => (k, py_zero)) ∘ fst <$> md'
          = (fun k : string => (k, py_zero)) ∘ fst <$> md).
  rewrite !list_fmap_compose. unfold dict_keys in Hk. now rewrite Hk.
Qed.

Lemma scoring_block_unlabeled_keys model dl (md md' : dict (metric example))
    examples output_predictions a :
  dict_keys md' = dict_keys md ->
  scoring_block env model dl md' examples output_predictions a false
  = scoring_block env model dl md examples output_predictions a false.
Proof.
  intros Hk. unfold scoring_block. rewrite (zero_scores_keys md md' Hk).
  reflexivity.
Qed.

Lemma score_batch_unlabeled model (md : dict (metric example)) examples
    output_predictions a st (b : batch) st' :
  score_batch model md examples output_predictions a false st b = Ok st' ->
  score_dict st' = score_dict st.
Proof.
  unfold score_batch.
  destruct (select_inputs a (process_batch b a)) as [[inputs labels_]|];
    cbn [mbind result_bind]; [|discriminate].
  destruct (run_forward model inputs) as [logits|]; cbn [mbind result_bind];
    [|discriminate].
  destruct (match d_loss_mask (process_batch b a) with
            | Some loss_mask => _ | None => _ end) as [logits'|];
    cbn [mbind result_bind]; [|discriminate].
  destruct (match examples with Some ex => _ | None => _ end) as [example_batch|];
    cbn [mbind result_bind]; [|discriminate].
  intros [= <-]. destruct output_predictions; reflexivity.
Qed.

Lemma scoring_block_unlabeled model dl (md : dict (metric example)) examples
    output_predictions a st :
  scoring_block env model dl md examples output_predictions a false = Ok st ->
  score_dict st = (fun km => (km.1, py_zero)) <$> md.
Proof.
  unfold scoring_block.
  destruct (if output_predictions then _ else _) as [[]|]; cbn [mbind result_bind];
    [|discriminate].
  apply (for_each_invariant
           (fun s => score_dict s = (fun km => (km.1, py_zero)) <$> md));
    [|reflexivity].
  intros s b s' Hs Hb. apply score_batch_unlabeled in Hb. congruence.
Qed.

(** X5. For an unlabeled dataset ([labeled = False]) no metric
    function is called: the outcome of [evaluate_metrics] is the same
    for any metric functions registered under the same keys; every
    metric sum is 0.0 when the loop ends, and is 0.0 in the result of a
    worker without peers. *)
Theorem unlabeled_dataset_calls_no_metric name model dl
    (metric_dict : dict (metric example)) examples epoch output_predictions a
    (w : world uid) :
  (forall metric_dict' : dict (metric example),
      dict_keys metric_dict' = dict_keys metric_dict ->
      evaluate_metrics env name model dl metric_dict' examples epoch
                       output_predictions a false w
      = evaluate_metrics env name model dl metric_dict examples epoch
                         output_predictions a false w)
  /\ (forall st,
         scoring_block env model dl metric_dict examples output_predictions a false
         = Ok st ->
         score_dict st = (fun km => (km.1, py_zero)) <$> metric_dict)
  /\ (forall sd tc preds w',
         dict_wf metric_dict -> peer_vectors env (collectives w) = [] ->
         evaluate_metrics env name model dl metric_dict examples epoch
                          output_predictions a false w
         = (Ok (sd, tc, preds), w') ->
         sd = (fun km => (km.1, py_zero)) <$> metric_dict).
Proof.
  split; [|split].
  - intros md' Hk. rewrite !evaluate_metrics_steps.
    now rewrite (scoring_block_unlabeled_keys model dl metric_dict md').
  - intros st. apply scoring_block_unlabeled.
  - intros sd tc preds w' Hwf Hpeers. rewrite evaluate_metrics_steps.
    destruct (scoring_block env model dl metric_dict examples output_predictions a
                            false) as [st|] eqn:Hb; [|discriminate].
    rewrite (scoring_block_unlabeled _ _ _ _ _ _ _ Hb).
    match goal with |- context [reduce_scores env ?d ?t ?w0] =>
      pose proof (reduce_scores_no_peers env d t w0) as Hred;
      destruct (reduce_scores env d t w0) as [[[sd' tc']|] w1] end;
      [|discriminate].
    cbn [fst] in Hred.
    destruct (report_rates sd' tc'); [|discriminate].
    intros [= <- <- <- <-].
    specialize (Hred ltac:(unfold dict_wf; unfold dict_keys;
                           rewrite <- list_fmap_compose; exact Hwf) Hpeers).
    injection Hred as -> _.
    rewrite <- list_fmap_compose. apply list_fmap_ext. intros _ [k m] _. reflexivity.
Qed.

Lemma score_batch_collects model (md : dict (metric example)) examples
    output_predictions a labeled st (b : batch) st' :
  score_batch model md examples output_predictions a labeled st b = Ok st' ->
  labels st' = labels st ++ (if output_predictions then label_list a b else [])
  /\ ids st' = ids st ++ (if output_predictions then batch_uid b else []).
Proof.
  unfold score_batch, label_list.
  destruct (select_inputs a (process_batch b a)) as [[inputs labels_]|] eqn:Hsel;
    cbn [mbind result_bind]; [|discriminate].
  rewrite (select_inputs_label _ _ _ _ Hsel).
  destruct (run_forward model inputs) as [logits|]; cbn [mbind result_bind];
    [|discriminate].
  destruct (match d_loss_mask (process_batch b a) with
            | Some loss_mask => _ | None => _ end) as [logits'|];
    cbn [mbind result_bind]; [|discriminate].
  destruct (match examples with Some ex => _ | None => _ end) as [example_batch|];
    cbn [mbind result_bind]; [|discriminate].
  destruct (if labeled then _ else _) as [sd|]; cbn [mbind result_bind];
    [|discriminate].
  intros [= <-]. destruct output_predictions; cbn [labels ids];
    rewrite ?app_nil_r; auto.
Qed.

Lemma for_each_collects model (md : dict (metric example)) examples
    output_predictions a labeled (bs : list batch) st st' :
  for_each bs (score_batch model md examples output_predictions a labeled) st
  = Ok st' ->
  labels st'
  = labels st ++ (if output_predictions then concat (label_list a <$> bs) else [])
  /\ ids st'
     = ids st ++ (if output_predictions then concat (batch_uid <$> bs) else []).
Proof.
  revert st. induction bs as [|b bs IH]; intros st; cbn [for_each].
  - intros [= <-]. destruct output_predictions; cbn; rewrite !app_nil_r; auto.
  - destruct (score_batch _ _ _ _ _ _ st b) as [s1|] eqn:Hb; cbn [mbind result_bind];
      [|discriminate].
    intros Hrest. apply score_batch_collects in Hb as [Hl Hi].
    destruct (IH s1 Hrest) as [Hl' Hi']. rewrite Hl', Hi', Hl, Hi.
    destruct output_predictions; cbn [fmap list_fmap concat];
      rewrite <- ?app_assoc, ?app_nil_r; auto.
Qed.

Lemma length_label_list a (bs : list batch) :
  Z.of_nat (length (concat (label_list a <$> bs))) = sum_Z (label_count a <$> bs).
Proof.
  unfold sum_Z. induction bs as [|b bs IH]; [reflexivity|].
  cbn [fmap list_fmap concat foldr]. rewrite length_app, Nat2Z.inj_add, IH.
  f_equal. unfold label_list, label_count. destruct (d_label _); reflexivity.
Qed.

(** X6. When [evaluate_metrics] returns with [output_predictions] set,
    the world size is 1 and the predictions returned hold the labels of
    the batches and the uids of the batches, concatenated in batch
    order; the number of labels is the count [total] before the
    reduction.  Without [output_predictions] nothing is collected and
    no predictions are returned. *)
Theorem predictions_follow_the_batches name model dl
    (metric_dict : dict (metric example)) examples epoch output_predictions a
    labeled (w : world uid) sd tc preds w' :
  evaluate_metrics env name model dl metric_dict examples epoch output_predictions
                   a labeled w = (Ok (sd, tc, preds), w') ->
  exists st,
    scoring_block env model dl metric_dict examples output_predictions a labeled
    = Ok st
    /\ if output_predictions then
         data_parallel_world_size env = 1
         /\ preds = Some (softmaxes st, labels st, ids st)
         /\ labels st = concat (label_list a <$> dl_batches dl)
         /\ ids st = concat (batch_uid <$> dl_batches dl)
         /\ Z.of_nat (length (labels st)) = total st
       else preds = None /\ labels st = [] /\ ids st = [].
Proof.
  rewrite evaluate_metrics_steps.
  destruct (scoring_block env model dl metric_dict examples output_predictions a
                          labeled) as [st|] eqn:Hb; [|discriminate].
  destruct (reduce_scores _ _ _ _) as [[[sd' tc']|] w1]; [|discriminate].
  destruct (report_rates sd' tc'); [|discriminate].
  intros [= <- <- <- <-]. exists st. split; [reflexivity|].
  pose proof (scoring_block_total env _ _ _ _ _ _ _ _ Hb) as [Ht _].
  unfold scoring_block in Hb.
  destruct output_predictions.
  - unfold py_assert in Hb. case_bool_decide as Hws; [|discriminate].
    cbn [mbind result_bind] in Hb. apply for_each_collects in Hb as [Hl Hi].
    cbn [labels ids app] in Hl, Hi.
    repeat split; try assumption.
    rewrite Hl, Ht. apply length_label_list.
  - cbn [mbind result_bind] in Hb. apply for_each_collects in Hb as [Hl Hi].
    cbn in Hl, Hi. auto.
Qed.

(** X7. The fields lines 115-126 read from a batch are those of
    [fields_read], in that order (the encoder mode wins over the cloze
    mode); the first one the batch lacks is the [KeyError] raised.
    When none is missing, the model gets 3 inputs (5 in cloze mode),
    the first of which is [data['text']], and the labels are
    [data['label']]. *)
Theorem select_inputs_first_missing_field (a : args) (d : data elt) :
  match find (fun key => negb (has_field d key)) (fields_read a) with
  | Some key => select_inputs a d = Raise (KeyError key)
  | None =>
      exists inputs labels_,
        select_inputs a d = Ok (inputs, labels_)
        /\ head inputs = d_text d
        /\ d_label d = Some labels_
        /\ length inputs = (if pretrained_bert a then 3
                            else if cloze_eval a then 5 else 3)%nat
  end.
Proof.
  destruct a as [bert cloze ? ? ? ? ?], d as [tx ty lb ps am tg lm ls].
  unfold select_inputs, fields_read, field.
  cbn [pretrained_bert cloze_eval d_text d_types d_label d_position
       d_attention_mask d_target d_logit_mask].
  destruct bert; [|destruct cloze];
    destruct tx, ty, lb, ps, am, tg, lm; vm_compute; eauto 10.
Qed.
End Loop.

(** ** What goes over the wire *)

Lemma sort_keys_permutation (l1 l2 : list string) :
  l1 ≡ₚ l2 -> sort_keys l1 = sort_keys l2.
Proof.
  intros Hp. unfold sort_keys.
  apply (Sorted_unique String.le); try apply Sorted_merge_sort; try apply _.
  now rewrite !merge_sort_Permutation.
Qed.

Lemma comprehension_ext {A B} (f g : A -> result B) (l : list A) :
  (forall x, f x = g x) -> comprehension f l = comprehension g l.
Proof.
  intros Hfg. induction l as [|x l IH]; [reflexivity|].
  cbn [comprehension]. now rewrite Hfg, IH.
Qed.

(** The sum of a group of counts, computed in float32, is exact up to
    [2^24]. *)
Lemma exact_group_sum (n : Z) (ns : list Z) :
  0 <= n -> Forall (fun m => 0 <= m) ns -> n + sum_Z ns <= 2 ^ 24 ->
  cast float64
    (foldl (fadd float32) (cast float32 (of_int float64 n))
           ((fun m => cast float32 (of_int float64 m)) <$> ns))
  = of_int float64 (n + sum_Z ns).
Proof.
  intros Hn Hns Hsum.
  pose proof (sum_Z_nonneg ns Hns) as Hs.
  assert (2 ^ 24 <= 2 ^ 53) as Hpow by (apply Z.pow_le_mono_r; lia).
  assert (Forall (fun m => m <= 2 ^ 24) ns) as Hle
      by (apply (sum_Z_bound ns); [exact Hns|lia]).
  assert ((fun m => cast float32 (of_int float64 m)) <$> ns = of_int float32 <$> ns)
    as ->.
  { apply Forall_fmap_ext_1. rewrite Forall_forall in Hns, Hle |- *.
    intros m Hm. apply cast_of_int; change (prec_of float64) with 53;
      change (prec_of float32) with 24; [apply Hns|specialize (Hle m Hm)|apply Hle];
      auto; lia. }
  rewrite (cast_of_int float64 float32)
    by (change (prec_of float64) with 53; change (prec_of float32) with 24; lia).
  rewrite foldl_fadd_counts by (assumption || lia).
  apply cast_of_int; change (prec_of float64) with 53;
    change (prec_of float32) with 24; lia.
Qed.

Section Wire.
Context {elt uid example batch : Type}.
Context `{!External elt uid example batch}.
Variable env : dist_env.

(** The world after the reduction is the one the collective leaves. *)
Lemma reduce_scores_sends (sd : dict pyfloat) total (w : world uid) :
  exists vals,
    comprehension (dict_item sd) (sort_keys (dict_keys sd)) = Ok vals
    /\ Forall2 (fun k v => dict_get sd k = Some v) (sort_keys (dict_keys sd)) vals
    /\ (reduce_scores env sd total w).2
       = {| training := training w; grad_enabled := grad_enabled w;
            collectives := S (collectives w);
            trace := trace w
                     ++ [AllReduce (float_tensor ((PyFloat <$> vals) ++ [PyInt total]))]
         |}.
Proof.
  destruct (pack_values sd (sort_keys (dict_keys sd))) as (vals & Hpack & Hvals).
  { intros k Hk. now rewrite sort_keys_perm in Hk. }
  exists vals. split; [exact Hpack|]. split; [exact Hvals|].
  rewrite <- (all_reduce_world env _ w).
  unfold reduce_scores, mbind, M_bind, lift, mret, M_ret. rewrite Hpack.
  destruct (all_reduce env _ w) as [[reduced|e] w']; [|reflexivity].
  destruct (unpack_scores _ _ _); [|reflexivity].
  destruct (last _); reflexivity.
Qed.

(** X8. The vector a worker sends to the reduction does not depend on
    the insertion order of its score dict: two dicts that map the same
    keys to the same values are packed in the same, sorted, key order
    into the same values, and leave the same world (the same vector
    sent). *)
Theorem packing_ignores_insertion_order (sd1 sd2 : dict pyfloat) (total : Z)
    (w : world uid) :
  dict_keys sd1 ≡ₚ dict_keys sd2 ->
  (forall k, dict_get sd1 k = dict_get sd2 k) ->
  sort_keys (dict_keys sd1) = sort_keys (dict_keys sd2)
  /\ Sorted String.le (sort_keys (dict_keys sd1))
  /\ comprehension (dict_item sd1) (sort_keys (dict_keys sd1))
     = comprehension (dict_item sd2) (sort_keys (dict_keys sd2))
  /\ (reduce_scores env sd1 total w).2 = (reduce_scores env sd2 total w).2.
Proof.
  intros Hperm Hget.
  pose proof (sort_keys_permutation _ _ Hperm) as Hsort.
  assert (comprehension (dict_item sd1) (sort_keys (dict_keys sd1))
          = comprehension (dict_item sd2) (sort_keys (dict_keys sd2))) as Hpack.
  { rewrite <- Hsort. apply comprehension_ext. intros k. unfold dict_item.
    now rewrite Hget. }
  split; [exact Hsort|]. split; [apply Sorted_merge_sort; apply _|].
  split; [exact Hpack|].
  destruct (reduce_scores_sends sd1 total w) as (v1 & Hp1 & _ & ->).
  destruct (reduce_scores_sends sd2 total w) as (v2 & Hp2 & _ & ->).
  rewrite Hpack, Hp2 in Hp1. injection Hp1 as ->. reflexivity.
Qed.

(** The value a key comes back with: the float32 sum over the group at
    the position of the key. *)
Lemma reduce_scores_value (sd : dict pyfloat) (total : Z) (w : world uid)
    sd' tc w' i k v ys :
  dict_wf sd ->
  reduce_scores env sd total w = (Ok (sd', tc), w') ->
  sort_keys (dict_keys sd) !! i = Some k -> dict_get sd k = Some v ->
  Forall2 (fun p y => p !! i = Some y) (peer_vectors env (collectives w)) ys ->
  dict_keys sd' = dict_keys sd
  /\ dict_get sd' k = Some (cast float64 (foldl (fadd float32) (cast float32 v) ys)).
Proof.
  intros Hwf Hrun Hi Hv Hys.
  destruct (reduce_scores_spec env sd total w) as (vals & Hvals & Hspec).
  destruct (all_reduce env _ w) as [[reduced|e] w1] eqn:Hred;
    [|rewrite Hspec in Hrun; discriminate].
  destruct (Hspec Hwf) as (sd1 & tc1 & Hrun' & Hkeys & Hidx & _).
  rewrite Hrun' in Hrun. injection Hrun as <- <- <-.
  apply all_reduce_ok in Hred as [-> Hlen].
  split; [exact Hkeys|]. rewrite (Hidx i k Hi).
  destruct (Forall2_lookup_l _ _ _ _ _ Hvals Hi) as (v' & Hv' & Hkv).
  cbn beta in Hkv. rewrite Hv in Hkv. injection Hkv as <-.
  assert (float_tensor ((PyFloat <$> vals) ++ [PyInt total]) !! i
          = Some (cast float32 v)) as Hx.
  { unfold float_tensor. rewrite list_lookup_fmap, lookup_app_l
      by (rewrite length_fmap; eapply lookup_lt_Some; exact Hv').
    now rewrite list_lookup_fmap, Hv'. }
  unfold tolist. rewrite list_lookup_fmap.
  now rewrite (group_sum_lookup _ _ _ _ _ Hx Hys).
Qed.


End Wire.

(** ** Outcomes *)

Lemma yields_bind {A B} E (Q : A -> Prop) (Q' : B -> Prop) (r : result A)
    (f : A -> result B) :
  yields E Q r -> (forall a, Q a -> yields E Q' (f a)) -> yields E Q' (r ≫= f).
Proof. destruct r; cbn; auto. Qed.

Lemma yields_weaken {A} (E E' : exn -> Prop) (Q Q' : A -> Prop) (r : result A) :
  (forall e, E e -> E' e) -> (forall a, Q a -> Q' a) -> yields E Q r -> yields E' Q' r.
Proof. destruct r; cbn; auto. Qed.

Lemma yields_for_each {A S} E (I : S -> Prop) (l : list A)
    (body : S -> A -> result S) s :
  (forall s x, x ∈ l -> I s -> yields E I (body s x)) -> I s ->
  yields E I (for_each l body s).
Proof.
  revert s. induction l as [|x l IH]; intros s Hb Hs; cbn [for_each]; [exact Hs|].
  apply (yields_bind E I); [apply Hb; [left|exact Hs]|].
  intros s' Hs'. apply IH; [|exact Hs']. intros s0 y Hy. apply Hb. now right.
Qed.

Lemma yields_comprehension {A B} E (f : A -> result B) (l : list A) :
  (forall x, x ∈ l -> yields E (fun _ => True) (f x)) ->
  yields E (fun ys => length ys = length l) (comprehension f l).
Proof.
  induction l as [|x l IH]; intros Hf; cbn [comprehension]; [reflexivity|].
  apply (yields_bind E (fun _ => True)); [apply Hf; left|]. intros y _.
  apply (yields_bind E (fun ys => length ys = length l)).
  - apply IH. intros z Hz. apply Hf. now right.
  - intros ys Hys. cbn. now rewrite Hys.
Qed.

Lemma yields_cat1 {A} (E : exn -> Prop) (ts : list (tensor A)) :
  ts <> [] -> E (RuntimeError "torch.cat: sizes do not match") ->
  yields E (fun _ => True) (cat1 ts).
Proof.
  intros Hne HE. induction ts as [|t ts IH]; [congruence|].
  destruct ts as [|t' ts]; [exact I|].
  rewrite cat1_cons by discriminate.
  apply (yields_bind E (fun _ => True)); [apply IH; discriminate|].
  intros r _. destruct (bool_decide _); [exact I|exact HE].
Qed.

Lemma follows_refl {uid} (P : event uid -> Prop) w : follows P w w.
Proof.
  split; [reflexivity|]. split; [lia|]. exists []. now rewrite app_nil_r.
Qed.

Lemma follows_trans {uid} (P : event uid -> Prop) w1 w2 w3 :
  follows P w1 w2 -> follows P w2 w3 -> follows P w1 w3.
Proof.
  intros (Hg & Hc & n1 & Ht & Hn1) (Hg' & Hc' & n2 & Ht' & Hn2).
  split; [congruence|]. split; [lia|]. exists (n1 ++ n2).
  split; [now rewrite Ht', Ht, app_assoc|]. now apply Forall_app.
Qed.

Lemma follows_weaken {uid} (P P' : event uid -> Prop) w w' :
  (forall e, P e -> P' e) -> follows P w w' -> follows P' w w'.
Proof.
  intros HP (Hg & Hc & new & Ht & Hn). split; [exact Hg|]. split; [exact Hc|].
  exists new. split; [exact Ht|]. eapply Forall_impl; [exact Hn|exact HP].
Qed.

Lemma follows_scalars {uid} (w w' : world uid) :
  follows scoring_event w w' -> scalars (trace w') = scalars (trace w).
Proof.
  intros (_ & _ & new & -> & Hn). unfold scalars. rewrite omap_app.
  assert (omap (fun e : event uid =>
                  match e with AddScalar t v s => Some (t, v, s) | _ => None end) new
          = []) as ->; [|apply app_nil_r].
  induction Hn as [|e l He _ IH]; [reflexivity|].
  cbn [omap list_omap]. rewrite IH. now destruct e.
Qed.

Section Outcome.
Context {elt uid example batch : Type}.
Context `{!External elt uid example batch}.
Variable env : dist_env.

Lemma delivers_lift {A} P E (Q : A -> Prop) (r : result A) :
  yields E Q r -> delivers (uid:=uid) P E Q (lift r).
Proof. intros Hr w. split; [apply follows_refl|exact Hr]. Qed.

Lemma delivers_ret {A} P E (Q : A -> Prop) (x : A) :
  Q x -> delivers (uid:=uid) P E Q (mret x).
Proof. intros Hx w. split; [apply follows_refl|exact Hx]. Qed.

Lemma delivers_bind {A B} P E (Q : A -> Prop) (Q' : B -> Prop) (c : M uid A)
    (f : A -> M uid B) :
  delivers P E Q c -> (forall x, Q x -> delivers P E Q' (f x)) ->
  delivers P E Q' (c ≫= f).
Proof.
  intros Hc Hf w. unfold mbind, M_bind.
  destruct (Hc w) as [Hw Hr]. destruct (c w) as [[x|e] w1]; cbn [fst snd] in *.
  - destruct (Hf x Hr w1) as [Hw' Hr']. split; [|exact Hr'].
    eapply follows_trans; eassumption.
  - split; assumption.
Qed.

Lemma delivers_weaken {A} (P P' : event uid -> Prop) (E E' : exn -> Prop)
    (Q Q' : A -> Prop) (c : M uid A) :
  (forall e, P e -> P' e) -> (forall e, E e -> E' e) -> (forall x, Q x -> Q' x) ->
  delivers P E Q c -> delivers P' E' Q' c.
Proof.
  intros HP HE HQ Hc w. destruct (Hc w) as [Hw Hr].
  split; [now apply (follows_weaken P)|now apply (yields_weaken E _ Q)].
Qed.

Lemma delivers_emit (P : event uid -> Prop) E (e : event uid) :
  P e -> delivers P E (fun _ => True) (emit e).
Proof.
  intros He w. split; [|exact I]. split; [reflexivity|]. split; [cbn; lia|].
  exists [e]. split; [reflexivity|]. now constructor.
Qed.

Lemma delivers_set_training (P : event uid -> Prop) E b :
  delivers P E (fun _ => True) (set_training b).
Proof.
  intros w. split; [|exact I]. split; [reflexivity|]. split; [cbn; lia|].
  exists []. cbn. now rewrite app_nil_r.
Qed.

Lemma delivers_no_grad {A} (P : event uid -> Prop) E (Q : A -> Prop)
    (body : M uid A) :
  delivers P E Q body -> delivers P E Q (no_grad body).
Proof.
  intros Hb w. unfold no_grad.
  destruct (Hb (set_grad false w)) as [(_ & Hc & Ht) Hr].
  destruct (body (set_grad false w)) as [r w1]. split; [|exact Hr].
  split; [reflexivity|]. split; [exact Hc|exact Ht].
Qed.

Lemma delivers_for_eachM {A S} (P : event uid -> Prop) E (I : S -> Prop)
    (l : list A) (body : S -> A -> M uid S) s :
  (forall s x, x ∈ l -> I s -> delivers P E I (body s x)) -> I s ->
  delivers P E I (for_eachM l body s).
Proof.
  revert s. induction l as [|x l IH]; intros s Hb Hs; cbn [for_eachM].
  - now apply delivers_ret.
  - apply (delivers_bind P E I); [apply Hb; [left|exact Hs]|].
    intros s' Hs'. apply IH; [|exact Hs']. intros s0 y Hy. apply Hb. now right.
Qed.

Lemma delivers_all_reduce (P : event uid -> Prop) (E : exn -> Prop) t :
  P (AllReduce t) -> E (RuntimeError "all_reduce: sizes do not match") ->
  delivers P E (fun r => length r = length t) (all_reduce env t).
Proof.
  intros HP HE w. split.
  - rewrite all_reduce_world. split; [reflexivity|]. split; [cbn; lia|].
    exists [AllReduce t]. split; [reflexivity|]. now constructor.
  - unfold all_reduce.
    destruct (forallb _ _) eqn:Hall; cbn [fst yields]; [|exact HE].
    apply length_group_sum. apply Forall_forall. intros p Hp.
    rewrite forallb_forall in Hall. apply list_elem_of_In in Hp.
    exact (bool_decide_eq_true_1 _ (Hall p Hp)).
Qed.

(** *** The scoring pass *)

Lemma yields_select_inputs a (d : data elt) :
  yields (pass_error a) (fun _ => True) (select_inputs a d).
Proof.
  destruct a as [bert cloze ? ? ? ? ?], d as [tx ty lb ps am tg lm ls].
  unfold select_inputs, field, pass_error, fields_read.
  cbn [pretrained_bert cloze_eval d_text d_types d_label d_position
       d_attention_mask d_target d_logit_mask].
  destruct bert; [|destruct cloze];
    destruct tx, ty, lb, ps, am, tg, lm; cbn; try exact I;
    apply (bool_decide_unpack _); vm_compute; exact I.
Qed.

Lemma yields_call_model a (model : Model elt) inputs :
  yields (pass_error a) (fun _ => True) (call_model model inputs).
Proof. unfold call_model. destruct (forward model inputs); exact I. Qed.

Lemma pass_error_cat a : pass_error a (RuntimeError "torch.cat: sizes do not match").
Proof. unfold pass_error. apply (bool_decide_unpack _). vm_compute. exact I. Qed.

Lemma pass_error_zip a : pass_error a (RuntimeError "size mismatch").
Proof. unfold pass_error. apply (bool_decide_unpack _). vm_compute. exact I. Qed.

Lemma pass_error_all_reduce a :
  pass_error a (RuntimeError "all_reduce: sizes do not match").
Proof. unfold pass_error. apply (bool_decide_unpack _). vm_compute. exact I. Qed.

Lemma yields_run_forward a (model : Model elt) inputs :
  yields (pass_error a) (fun _ => True) (run_forward model inputs).
Proof.
  unfold run_forward, forward_chunked, forward_full.
  case_bool_decide as Hlong; [|apply yields_call_model].
  eapply yields_bind.
  - apply yields_comprehension. intros i _. apply yields_call_model.
  - cbn beta. intros ys Hys. apply yields_cat1; [|apply pass_error_cat].
    intros ->. cbn [length] in Hys. rewrite length_seq in Hys.
    unfold segment_length in Hlong.
    pose proof (n_chunks_ceil (size1 (hd [] inputs)) ltac:(lia)). lia.
Qed.

Lemma yields_add_scores a (metric_dict : dict (metric example)) p l eb sd :
  (forall k, k ∈ dict_keys metric_dict -> k ∈ dict_keys sd) ->
  yields (pass_error a) (fun sd' => dict_keys sd' = dict_keys sd)
         (add_scores metric_dict p l eb sd).
Proof.
  intros Hsub. unfold add_scores.
  apply (yields_for_each _ (fun d => dict_keys d = dict_keys sd)); [|reflexivity].
  intros d km Hkm Hd.
  assert (km.1 ∈ dict_keys d) as Hin.
  { rewrite Hd. apply Hsub. unfold dict_keys. now apply list_elem_of_fmap_2. }
  unfold dict_item. destruct (proj2 (dict_get_keys d km.1) Hin) as [cur ->].
  cbn [mbind result_bind].
  destruct (km.2 p l eb); cbn [mbind result_bind yields pass_error]; [|exact I].
  now rewrite dict_keys_set.
Qed.

Lemma yields_score_batch model (metric_dict : dict (metric example)) examples
    output_predictions a labeled st (b : batch) :
  dict_keys (score_dict st) = dict_keys metric_dict ->
  yields (pass_error a)
         (fun st' => dict_keys (score_dict st') = dict_keys metric_dict)
         (score_batch model metric_dict examples output_predictions a labeled st b).
Proof.
  intros Hk. unfold score_batch.
  eapply yields_bind; [apply yields_select_inputs|]. intros [inputs labels_] _.
  eapply yields_bind; [apply yields_run_forward|]. intros logits _.
  eapply (yields_bind _ (fun _ => True)).
  { destruct (d_loss_mask _); [|exact I].
    unfold apply_loss_mask, tensor_zip.
    destruct (bool_decide _); [exact I|apply pass_error_zip]. }
  intros logits' _. eapply (yields_bind _ (fun _ => True)).
  { destruct examples as [ex|]; [|exact I].
    eapply yields_bind; [|intros; exact I].
    apply yields_comprehension. intros u _. destruct (ex u); exact I. }
  intros example_batch _.
  eapply (yields_bind _ (fun sd => dict_keys sd = dict_keys metric_dict)).
  - destruct labeled.
    + eapply yields_weaken; [| |apply (yields_add_scores a)]; cbn beta.
      * auto.
      * intros sd ->. destruct output_predictions; exact Hk.
      * intros k. destruct output_predictions; cbn [score_dict]; now rewrite Hk.
    + destruct output_predictions; exact Hk.
  - intros sd Hsd. exact Hsd.
Qed.

Lemma yields_scoring_block model dl (metric_dict : dict (metric example)) examples
    output_predictions a labeled :
  yields (fun e => pass_error a e
                   \/ (e = AssertionError evaluate_metrics_single_worker
                       /\ output_predictions = true
                       /\ data_parallel_world_size env <> 1))
         (fun st => dict_keys (score_dict st) = dict_keys metric_dict)
         (scoring_block env model dl metric_dict examples output_predictions
                        a labeled).
Proof.
  unfold scoring_block. eapply (yields_bind _ (fun _ => True)).
  - destruct output_predictions; [|exact I]. unfold py_assert.
    case_bool_decide; [exact I|]. right. auto.
  - intros _ _. apply yields_for_each.
    + intros st b _ Hst. eapply yields_weaken; [| |now apply yields_score_batch];
        cbn beta; auto.
    + unfold dict_keys. cbn [score_dict]. now rewrite <- list_fmap_compose.
Qed.

Lemma delivers_reduce_scores a (sd : dict pyfloat) total :
  delivers (uid:=uid) scoring_event (pass_error a)
           (fun out => dict_keys out.1 = dict_keys sd)
           (reduce_scores env sd total).
Proof.
  unfold reduce_scores.
  eapply (delivers_bind _ _
            (fun vals => length vals = length (sort_keys (dict_keys sd)))).
  { apply delivers_lift. apply yields_comprehension. intros k Hk.
    rewrite sort_keys_perm in Hk. unfold dict_item.
    destruct (proj2 (dict_get_keys sd k) Hk) as [v ->]. exact I. }
  intros vals Hvals.
  eapply delivers_bind;
    [apply delivers_all_reduce; [exact I|apply pass_error_all_reduce]|].
  cbn beta. intros reduced Hred.
  assert (length (tolist reduced) = S (length (sort_keys (dict_keys sd)))) as Hlen.
  { unfold tolist. rewrite length_fmap, Hred, length_float_tensor, length_app,
      length_fmap, Hvals. cbn. lia. }
  eapply (delivers_bind _ _ (fun sd' => dict_keys sd' = dict_keys sd)).
  { apply delivers_lift. unfold unpack_scores.
    apply yields_for_each; [|reflexivity].
    intros d ik Hik Hd. apply elem_of_lookup_imap in Hik as (i & k & -> & Hi).
    cbn [fst snd].
    destruct (tolist reduced !! i) as [v|] eqn:Hv.
    - cbn. rewrite dict_keys_set; [exact Hd|]. rewrite Hd.
      rewrite <- (sort_keys_perm (dict_keys sd)).
      eapply list_elem_of_lookup_2; exact Hi.
    - apply lookup_ge_None in Hv. apply lookup_lt_Some in Hi. lia. }
  intros sd' Hsd'. eapply (delivers_bind _ _ (fun _ => True)).
  { apply delivers_lift. destruct (last (tolist reduced)) eqn:Hlast; [exact I|].
    apply last_None in Hlast. rewrite Hlast in Hlen. discriminate. }
  intros tc _. apply delivers_ret. exact Hsd'.
Qed.

Lemma yields_report_rates a (sd : dict pyfloat) tc :
  yields (pass_error a) (fun _ => True) (report_rates sd tc).
Proof.
  unfold report_rates. eapply yields_weaken; [| |apply yields_comprehension].
  - intros e He. exact He.
  - auto.
  - intros kv _. unfold py_truediv. destruct (is_zero tc); cbn; auto.
Qed.

Lemma delivers_evaluate_metrics name model dl (metric_dict : dict (metric example))
    examples epoch output_predictions a labeled :
  delivers scoring_event
    (fun e => pass_error a e
              \/ (e = AssertionError evaluate_metrics_single_worker
                  /\ output_predictions = true
                  /\ data_parallel_world_size env <> 1))
    (fun out => dict_keys out.1.1 = dict_keys metric_dict
                /\ (output_predictions = true -> is_Some out.2)
                /\ (output_predictions = false -> out.2 = None))
    (evaluate_metrics env name model dl metric_dict examples epoch
                      output_predictions a labeled).
Proof.
  unfold evaluate_metrics, model_eval, model_train.
  eapply (delivers_bind _ _ (fun _ => True)).
  { eapply delivers_bind; [apply delivers_set_training|].
    intros _ _. now apply delivers_emit. }
  intros _ _. eapply delivers_bind.
  { apply delivers_no_grad, delivers_lift, yields_scoring_block. }
  cbn beta. intros st Hst. eapply (delivers_bind _ _ (fun _ => True)).
  { eapply delivers_bind; [apply delivers_set_training|].
    intros _ _. now apply delivers_emit. }
  intros _ _. eapply delivers_bind.
  { eapply delivers_weaken; [| | |apply (delivers_reduce_scores a)]; cbn beta;
      [auto|left; assumption|intros out Hout; exact Hout]. }
  cbn beta. intros [sd tc] Hsd. cbn [fst] in Hsd.
  eapply (delivers_bind _ _ (fun _ => True)).
  { apply delivers_lift. eapply yields_weaken; [| |apply (yields_report_rates a)];
      cbn beta; [left; assumption|auto]. }
  intros _ _. apply delivers_ret. cbn [fst snd].
  split; [congruence|]. destruct output_predictions; split; eauto; discriminate.
Qed.
End Outcome.

(** ** The passes over the dataloaders *)

Lemma rates_keys (sd : dict pyfloat) total r :
  rates sd total = Ok r -> dict_keys r = dict_keys sd.
Proof.
  unfold rates. revert r. induction sd as [|[k v] sd IH]; intros r; cbn [comprehension].
  - intros [= <-]. reflexivity.
  - destruct (py_truediv _ _ _); cbn [mbind result_bind]; [|discriminate].
    destruct (comprehension _ sd) as [ys|]; cbn [mbind result_bind]; [|discriminate].
    intros [= <-]. cbn. f_equal. now apply IH.
Qed.


Section Passes.
Context {elt uid example batch : Type}.
Context `{!External elt uid example batch}.
Variable env : dist_env.

Lemma yields_add_single a (single_dict sd : dict pyfloat) :
  (forall k, k ∈ dict_keys sd -> k ∈ dict_keys single_dict) ->
  yields (pass_error a) (fun sd' => dict_keys sd' = dict_keys sd)
         (add_single single_dict sd).
Proof.
  intros Hsub. unfold add_single.
  apply (yields_for_each _ (fun d => dict_keys d = dict_keys sd)); [|reflexivity].
  intros d key Hkey Hd. unfold dict_item.
  assert (key ∈ dict_keys d) as Hin by now rewrite Hd.
  destruct (proj2 (dict_get_keys d key) Hin) as [cur ->].
  destruct (proj2 (dict_get_keys single_dict key) (Hsub key Hkey)) as [v ->].
  cbn. now rewrite dict_keys_set.
Qed.

Lemma delivers_combine_dataset (metric_dict : dict (metric example)) a model epoch
    output_predictions c nd :
  (output_predictions = true -> data_parallel_world_size env = 1) ->
  dict_keys (c_score_dict c) = dict_keys metric_dict ->
  delivers scoring_event (pass_error a)
    (fun c' => dict_keys (c_score_dict c') = dict_keys metric_dict)
    (combine_dataset env metric_dict a model epoch output_predictions c nd).
Proof.
  intros Hguard Hc. unfold combine_dataset.
  eapply delivers_bind.
  { eapply delivers_weaken; [| | |apply delivers_evaluate_metrics]; cbn beta.
    - auto.
    - intros e [He|(_ & Hop & Hws)]; [exact He|]. now destruct (Hws (Hguard Hop)).
    - intros out Hout. exact Hout. }
  cbn beta. intros [[single_dict total_count] preds] (Hk & Hsome & _).
  cbn [fst snd] in Hk, Hsome.
  eapply (delivers_bind _ _ (fun _ => True)).
  { apply delivers_lift. destruct output_predictions; [|exact I].
    destruct preds; [exact I|]. now destruct (Hsome eq_refl). }
  intros np _.
  eapply (delivers_bind _ _ (fun sd => dict_keys sd = dict_keys metric_dict)).
  { apply delivers_lift. eapply yields_weaken; [| |apply (yields_add_single a)];
      cbn beta.
    - auto.
    - intros sd ->. exact Hc.
    - intros k. now rewrite Hc, Hk. }
  intros sd Hsd. apply delivers_ret. exact Hsd.
Qed.

Lemma delivers_scoring_passes dataloaders (metric_dict : dict (metric example)) a
    model epoch output_predictions :
  delivers scoring_event
    (fun e => pass_error a e
              \/ (e = AssertionError metrics_func_single_worker
                  /\ output_predictions = true
                  /\ data_parallel_world_size env <> 1))
    (fun c => dict_keys (c_score_dict c) = dict_keys metric_dict)
    (scoring_passes env dataloaders metric_dict a model epoch output_predictions).
Proof.
  unfold scoring_passes.
  eapply (delivers_bind _ _ (fun _ => True)); [now apply delivers_emit|].
  intros _ _.
  eapply (delivers_bind _ _
            (fun _ => output_predictions = true -> data_parallel_world_size env = 1)).
  { apply delivers_lift. destruct output_predictions; [|cbn; discriminate].
    unfold py_assert. case_bool_decide; cbn; auto. }
  intros _ Hguard. apply delivers_for_eachM.
  - intros c nd _ Hc.
    eapply delivers_weaken; [| | |now apply delivers_combine_dataset]; cbn beta; auto.
  - unfold dict_keys. cbn [c_score_dict]. now rewrite <- list_fmap_compose.
Qed.

(** The world the report leaves. *)
Lemma report_world is_test epoch summary_writer total sd (w : world uid) :
  report is_test epoch summary_writer total sd w
  = (Ok tt,
     {| training := training w; grad_enabled := grad_enabled w;
        collectives := collectives w;
        trace := trace w
                 ++ (if summary_writer && bool_decide (0 <= epoch) && negb is_test
                     then (fun kv : string * spec_float =>
                             AddScalar ("Train/valid_" +:+ kv.1) kv.2 epoch) <$> sd
                     else [])
                 ++ [PrintRank0 (Overall epoch total
                                   ((fun kv => (kv.1, format_4f kv.2)) <$> sd))] |}).
Proof.
  unfold report.
  assert (forall l (w : world uid),
             for_eachM l
               (fun (_ : unit) (kv : string * spec_float) =>
                  if summary_writer && bool_decide (0 <= epoch) && negb is_test
                  then emit (AddScalar ("Train/valid_" +:+ kv.1) kv.2 epoch)
                  else mret tt) tt w
             = (Ok tt,
                {| training := training w; grad_enabled := grad_enabled w;
                   collectives := collectives w;
                   trace := trace w
                     ++ (if summary_writer && bool_decide (0 <= epoch) && negb is_test
                         then (fun kv : string * spec_float =>
                                 AddScalar ("Train/valid_" +:+ kv.1) kv.2 epoch) <$> l
                         else []) |})) as Hloop.
  { induction l as [|kv l IH]; intros w0; cbn [for_eachM].
    - unfold mret, M_ret. f_equal. destruct w0.
      destruct (_ && _ && _); cbn; now rewrite app_nil_r.
    - unfold mbind, M_bind.
      destruct (summary_writer && bool_decide (0 <= epoch) && negb is_test) eqn:Hc.
      + cbn [emit]. rewrite IH. cbn [training grad_enabled collectives trace].
        rewrite <- app_assoc. reflexivity.
      + cbn [mret M_ret]. rewrite IH. reflexivity. }
  unfold mbind, M_bind. rewrite Hloop.
  unfold emit. cbn [training grad_enabled collectives trace].
  now rewrite <- app_assoc.
Qed.

Lemma persist_world a output_predictions c (w : world uid) :
  persist env a output_predictions c w
  = if output_predictions && bool_decide (rank env = 0) then
      match load a with
      | None => (Raise (AssertionError load_directory), w)
      | Some dir =>
          (Ok tt,
           {| training := training w; grad_enabled := grad_enabled w;
              collectives := collectives w;
              trace := trace w ++ [TorchSave (os_path_join dir (names c +:+ ".pt"))
                                             (named_predictions c)] |})
      end
    else (Ok tt, w).
Proof.
  unfold persist. destruct (_ && _); [|reflexivity]. destruct (load a); reflexivity.
Qed.

(** The world a scoring pass leaves. *)
Lemma evaluate_metrics_world name model dl (metric_dict : dict (metric example))
    examples epoch output_predictions a labeled (w : world uid) :
  match scoring_block env model dl metric_dict examples output_predictions
                      a labeled with
  | Raise e =>
      evaluate_metrics env name model dl metric_dict examples epoch
                       output_predictions a labeled w
      = (Raise e,
         {| training := false; grad_enabled := grad_enabled w;
            collectives := collectives w; trace := trace w ++ [ModelEval] |})
  | Ok st =>
      exists vals,
        Forall2 (fun k v => dict_get (score_dict st) k = Some v)
                (sort_keys (dict_keys metric_dict)) vals
        /\ (evaluate_metrics env name model dl metric_dict examples epoch
                             output_predictions a labeled w).2
           = {| training := true; grad_enabled := grad_enabled w;
                collectives := S (collectives w);
                trace := trace w
                  ++ [ModelEval; ModelTrain;
                      AllReduce (float_tensor ((PyFloat <$> vals)
                                               ++ [PyInt (total st)]))] |}
  end.
Proof.
  rewrite evaluate_metrics_steps.
  destruct (scoring_block env model dl metric_dict examples output_predictions a
                          labeled) as [st|e] eqn:Hb; [|reflexivity].
  pose proof (scoring_block_total env _ _ _ _ _ _ _ _ Hb) as [_ Hk].
  match goal with |- context [reduce_scores env ?d ?t ?w0] =>
    destruct (reduce_scores_sends env d t w0) as (vals & _ & Hvals & Hw);
    destruct (reduce_scores env d t w0) as [[[sd' tc']|e] w1] end;
    cbn [snd] in Hw; subst w1; exists vals; rewrite Hk in Hvals;
    (split; [exact Hvals|]).
  - destruct (report_rates sd' tc'); cbn [snd training grad_enabled collectives trace];
      rewrite <- !app_assoc; reflexivity.
  - cbn [snd training grad_enabled collectives trace]. rewrite <- !app_assoc.
    reflexivity.
Qed.

Lemma combine_dataset_world (metric_dict : dict (metric example)) a model epoch
    output_predictions c name dl (w : world uid) :
  (combine_dataset env metric_dict a model epoch output_predictions c (name, dl) w).2
  = (evaluate_metrics env name model dl metric_dict (examples (dl_dataset dl)) epoch
                      output_predictions a (labeled (dl_dataset dl)) w).2.
Proof.
  unfold combine_dataset. cbn [fst snd]. unfold mbind, M_bind, lift, mret, M_ret.
  destruct (evaluate_metrics _ _ _ _ _ _ _ _ _ _ _) as [[[[sd tc] preds]|e] w1];
    [|reflexivity].
  destruct (if output_predictions then _ else _); [|reflexivity].
  destruct (add_single _ _); reflexivity.
Qed.

Lemma combine_dataset_steps (metric_dict : dict (metric example)) a model epoch
    output_predictions c nd (w : world uid) :
  let out := combine_dataset env metric_dict a model epoch output_predictions c nd w in
  (collectives w <= collectives out.2 <= S (collectives w))%nat
  /\ (is_ok out.1 = true ->
      collectives out.2 = S (collectives w) /\ training out.2 = true).
Proof.
  destruct nd as [name dl]. cbn zeta.
  pose proof (combine_dataset_world metric_dict a model epoch output_predictions c
                name dl w) as Hw.
  pose proof (evaluate_metrics_world name model dl metric_dict (examples (dl_dataset dl))
                epoch output_predictions a (labeled (dl_dataset dl)) w) as Hev.
  destruct (scoring_block _ _ _ _ _ _ _ _) as [st|e].
  - destruct Hev as (vals & _ & Hev). rewrite Hev in Hw. rewrite Hw. cbn. split; [lia|auto].
  - assert ((combine_dataset env metric_dict a model epoch output_predictions c
               (name, dl) w).1 = Raise e) as Hr.
    { apply combine_dataset_raise. now rewrite Hev. }
    rewrite Hev in Hw. rewrite Hw, Hr. cbn. split; [lia|discriminate].
Qed.

Lemma passes_loop_steps (metric_dict : dict (metric example)) a model epoch
    output_predictions l c (w : world uid) :
  let out := for_eachM l (combine_dataset env metric_dict a model epoch
                                          output_predictions) c w in
  (collectives w <= collectives out.2 <= collectives w + length l)%nat
  /\ (is_ok out.1 = true ->
      collectives out.2 = (collectives w + length l)%nat
      /\ (l <> [] -> training out.2 = true))
  /\ (l = [] -> training out.2 = training w).
Proof.
  revert c w. induction l as [|nd l IH]; intros c w; cbn zeta.
  - cbn. split; [lia|]. split; [|reflexivity]. intros _. split; [lia|congruence].
  - rewrite for_eachM_cons.
    pose proof (combine_dataset_steps metric_dict a model epoch output_predictions
                  c nd w) as [Hc Hok].
    destruct (combine_dataset _ _ _ _ _ _ _ _ _) as [[c'|e] w1]; cbn [fst snd] in *.
    + destruct (Hok eq_refl) as [Hc1 Ht1].
      destruct (IH c' w1) as (Hb & Hs & Hnil). cbn zeta in Hb, Hs, Hnil.
      cbn [length]. split; [lia|]. split; [|discriminate].
      intros Hrun. destruct (Hs Hrun) as [Hn Ht]. split; [lia|]. intros _.
      destruct l as [|nd' l]; [now rewrite Hnil|]. now apply Ht.
    + cbn [length is_ok]. split; [lia|]. split; discriminate.
Qed.
End Passes.

(** ** The whole call *)

Lemma scalars_app {uid} (l k : list (event uid)) :
  scalars (l ++ k) = scalars l ++ scalars k.
Proof. apply omap_app. Qed.

Lemma scalars_add_scalar {uid} (sd : dict pyfloat) epoch :
  scalars (uid:=uid)
    ((fun kv : string * spec_float =>
        AddScalar ("Train/valid_" +:+ kv.1) kv.2 epoch) <$> sd)
  = (fun kv : string * spec_float => ("Train/valid_" +:+ kv.1, kv.2, epoch)) <$> sd.
Proof. induction sd as [|kv sd IH]; [reflexivity|]. cbn. now f_equal. Qed.

Section Whole.
Context {elt uid example batch : Type}.
Context `{!External elt uid example batch}.
Variable env : dist_env.

Lemma scoring_passes_unfold dataloaders (metric_dict : dict (metric example)) a
    model epoch output_predictions (w : world uid) :
  scoring_passes env dataloaders metric_dict a model epoch output_predictions w
  = match (if output_predictions
           then py_assert (bool_decide (data_parallel_world_size env = 1))
                          metrics_func_single_worker
           else Ok tt) with
    | Ok _ =>
        for_eachM dataloaders
          (combine_dataset env metric_dict a model epoch output_predictions)
          {| c_score_dict := (fun km => (km.1, py_zero)) <$> metric_dict;
             c_total := PyInt 0; named_predictions := []; names := "predictions" |}
          (emit (PrintRank0 Calculating) w).2
    | Raise e => (Raise e, (emit (PrintRank0 Calculating) w).2)
    end.
Proof.
  unfold scoring_passes, mbind, M_bind, emit, lift.
  destruct (if output_predictions then _ else _); reflexivity.
Qed.

Lemma scoring_passes_steps dataloaders (metric_dict : dict (metric example)) a
    model epoch output_predictions (w : world uid) :
  let out := scoring_passes env dataloaders metric_dict a model epoch
                            output_predictions w in
  (collectives w <= collectives out.2 <= collectives w + length dataloaders)%nat
  /\ (is_ok out.1 = true ->
      collectives out.2 = (collectives w + length dataloaders)%nat
      /\ (dataloaders <> [] -> training out.2 = true))
  /\ (dataloaders = [] -> training out.2 = training w).
Proof.
  cbn zeta. rewrite scoring_passes_unfold.
  destruct (if output_predictions then _ else _) as [[]|e].
  - exact (passes_loop_steps env metric_dict a model epoch output_predictions
             dataloaders _ (emit (PrintRank0 Calculating) w).2).
  - cbn. split; [lia|]. split; [discriminate|reflexivity].
Qed.

(** X10. A scoring pass joins exactly one collective, after
    [model.train()], when its loop completes, and none when the loop
    raises: the events of the call are [model.eval()], [model.train()]
    and one [all_reduce] of a vector with one entry per metric and one
    for the count; or [model.eval()] alone. *)
Theorem evaluate_metrics_one_collective name model dl
    (metric_dict : dict (metric example)) examples epoch output_predictions a
    labeled (w : world uid) :
  let out := evaluate_metrics env name model dl metric_dict examples epoch
                              output_predictions a labeled w in
  match scoring_block env model dl metric_dict examples output_predictions
                      a labeled with
  | Raise e =>
      out.1 = Raise e /\ collectives out.2 = collectives w
      /\ trace out.2 = trace w ++ [ModelEval]
  | Ok st =>
      exists vals,
        Forall2 (fun k v => dict_get (score_dict st) k = Some v)
                (sort_keys (dict_keys metric_dict)) vals
        /\ collectives out.2 = S (collectives w)
        /\ trace out.2
           = trace w
             ++ [ModelEval; ModelTrain;
                 AllReduce (float_tensor ((PyFloat <$> vals) ++ [PyInt (total st)]))]
        /\ length (float_tensor ((PyFloat <$> vals) ++ [PyInt (total st)]))
           = S (length metric_dict)
  end.
Proof.
  cbn zeta.
  pose proof (evaluate_metrics_world env name model dl metric_dict examples epoch
                output_predictions a labeled w) as Hw.
  destruct (scoring_block _ _ _ _ _ _ _ _) as [st|e].
  - destruct Hw as (vals & Hvals & ->). exists vals.
    split; [exact Hvals|]. split; [reflexivity|]. split; [reflexivity|].
    rewrite length_float_tensor, length_app, length_fmap.
    rewrite <- (Forall2_length _ _ _ Hvals). unfold sort_keys, dict_keys.
    rewrite merge_sort_Permutation, length_fmap. cbn. lia.
  - rewrite Hw. auto.
Qed.


(** X12. The dict [evaluate_metrics] returns, and the dict of rates
    [metrics_func] returns, have exactly the keys of [metric_dict], in
    its order; [evaluate_metrics] returns predictions exactly when
    [output_predictions] is set. *)
Theorem results_carry_the_metric_keys dataloaders name dl
    (metric_dict : dict (metric example)) examples a is_test model epoch
    output_predictions summary_writer labeled (w : world uid) :
  (forall sd tc preds w',
      evaluate_metrics env name model dl metric_dict examples epoch
                       output_predictions a labeled w = (Ok (sd, tc, preds), w') ->
      dict_keys sd = dict_keys metric_dict
      /\ (is_Some preds <-> output_predictions = true))
  /\ (forall sd,
         (metrics_func env dataloaders metric_dict a is_test model epoch
                       output_predictions summary_writer w).1 = Ok sd ->
         dict_keys sd = dict_keys metric_dict).
Proof.
  split.
  - intros sd tc preds w' Hr.
    destruct (delivers_evaluate_metrics env name model dl metric_dict examples epoch
                output_predictions a labeled w) as [_ Hy].
    rewrite Hr in Hy. cbn in Hy. destruct Hy as (Hk & Hsome & Hnone).
    split; [exact Hk|]. split; [|exact Hsome].
    intros Hp. destruct output_predictions; [reflexivity|].
    rewrite Hnone in Hp by reflexivity. now destruct Hp.
  - intros sd. rewrite metrics_func_steps.
    destruct (delivers_scoring_passes env dataloaders metric_dict a model epoch
                output_predictions w) as [_ Hy].
    destruct (scoring_passes _ _ _ _ _ _ _ _) as [[c|e'] w1]; cbn [fst yields] in *;
      [|discriminate].
    destruct (rates _ _) as [sd'|e'] eqn:Hrates; [|discriminate].
    cbn zeta. destruct (persist _ _ _ _ _) as [[[]|] w3]; [|discriminate].
    intros [= <-]. apply rates_keys in Hrates. congruence.
Qed.

(** X13. Whatever its outcome, [metrics_func] leaves the gradient mode
    as it found it, only appends to the events and joins at most one
    collective per dataloader.  When it returns, it has joined exactly
    one collective per dataloader and, with one dataloader at least,
    the model is in training mode, whatever its mode before the call;
    with no dataloader the mode of the model is untouched. *)
Theorem metrics_func_world dataloaders (metric_dict : dict (metric example)) a
    is_test model epoch output_predictions summary_writer (w : world uid) :
  let out := metrics_func env dataloaders metric_dict a is_test model epoch
                          output_predictions summary_writer w in
  grad_enabled out.2 = grad_enabled w
  /\ (exists new, trace out.2 = trace w ++ new)
  /\ (collectives w <= collectives out.2 <= collectives w + length dataloaders)%nat
  /\ (is_ok out.1 = true ->
      collectives out.2 = (collectives w + length dataloaders)%nat
      /\ (dataloaders <> [] -> training out.2 = true))
  /\ (dataloaders = [] -> training out.2 = training w).
Proof.
  cbn zeta. rewrite metrics_func_steps.
  destruct (delivers_scoring_passes env dataloaders metric_dict a model epoch
              output_predictions w) as [(Hg & _ & new & Ht & _) _].
  pose proof (scoring_passes_steps dataloaders metric_dict a model epoch
                output_predictions w) as (Hc & Hok & Hnil). cbn zeta in Hc, Hok, Hnil.
  destruct (scoring_passes _ _ _ _ _ _ _ _) as [[c|e'] w1]; cbn [fst snd] in *.
  2:{ split; [exact Hg|]. split; [eauto|]. split; [exact Hc|].
      split; [discriminate|exact Hnil]. }
  destruct (rates _ _) as [sd|e'].
  2:{ split; [exact Hg|]. split; [eauto|]. split; [exact Hc|].
      split; [discriminate|exact Hnil]. }
  cbn zeta. rewrite report_world, persist_world. cbn [snd].
  destruct (_ && _); [destruct (load a)|];
    cbn [fst snd is_ok training grad_enabled collectives trace];
    (split; [exact Hg|]); (split; [rewrite Ht, <- ?app_assoc; eauto|]);
    (split; [exact Hc|]); (split; [|exact Hnil]); try discriminate;
    intros _; now apply Hok.
Qed.

(** X14. When [metrics_func] returns, the scalars it has handed to the
    summary writer are, in the order of the returned dict,
    [Train/valid_<key>] with the rate of the key and the epoch as step,
    if a summary writer is given, the epoch is not negative and the
    call is not a test; otherwise it hands over none. *)
Theorem telemetry_of_metrics_func dataloaders (metric_dict : dict (metric example))
    a is_test model epoch output_predictions summary_writer (w : world uid) :
  let out := metrics_func env dataloaders metric_dict a is_test model epoch
                          output_predictions summary_writer w in
  (forall sd, out.1 = Ok sd ->
     scalars (trace out.2)
     = scalars (trace w)
       ++ (if summary_writer && bool_decide (0 <= epoch) && negb is_test
           then (fun kv : string * spec_float =>
                   ("Train/valid_" +:+ kv.1, kv.2, epoch)) <$> sd
           else []))
  /\ (summary_writer && bool_decide (0 <= epoch) && negb is_test = false ->
      scalars (trace out.2) = scalars (trace w)).
Proof.
  cbn zeta. rewrite metrics_func_steps.
  destruct (delivers_scoring_passes env dataloaders metric_dict a model epoch
              output_predictions w) as [Hf _].
  apply follows_scalars in Hf.
  destruct (scoring_passes _ _ _ _ _ _ _ _) as [[c|e'] w1]; cbn [fst snd] in *.
  2:{ split; [discriminate|auto]. }
  destruct (rates _ _) as [sd|e']; [|split; [discriminate|auto]].
  cbn zeta. rewrite report_world, persist_world. cbn [snd].
  assert (forall tail : list (event uid),
             scalars tail = [] ->
             scalars
               ((trace w1
                 ++ (if summary_writer && bool_decide (0 <= epoch) && negb is_test
                     then (fun kv : string * spec_float =>
                             AddScalar ("Train/valid_" +:+ kv.1) kv.2 epoch) <$> sd
                     else [])
                 ++ [PrintRank0 (Overall epoch (c_total c)
                                   ((fun kv => (kv.1, format_4f kv.2)) <$> sd))])
                ++ tail)
             = scalars (trace w)
               ++ (if summary_writer && bool_decide (0 <= epoch) && negb is_test
                   then (fun kv : string * spec_float =>
                           ("Train/valid_" +:+ kv.1, kv.2, epoch)) <$> sd
                   else [])) as Hsc.
  { intros tail Htail. rewrite !scalars_app, Htail, Hf, app_nil_r.
    destruct (_ && _ && _); [rewrite scalars_add_scalar|]; cbn;
      now rewrite ?app_nil_r. }
  destruct (output_predictions && bool_decide (rank env = 0));
    [destruct (load a)|]; cbn [fst snd trace].
  - split.
    + intros sd' [= <-]. now apply Hsc.
    + intros Hoff. rewrite Hsc by reflexivity. rewrite Hoff. apply app_nil_r.
  - split; [discriminate|].
    intros Hoff. rewrite <- (app_nil_r (_ ++ _ ++ [_])), Hsc by reflexivity.
    rewrite Hoff. apply app_nil_r.
  - split.
    + intros sd' [= <-]. rewrite <- (app_nil_r (_ ++ _ ++ [_])). now apply Hsc.
    + intros Hoff. rewrite <- (app_nil_r (_ ++ _ ++ [_])), Hsc by reflexivity.
      rewrite Hoff. apply app_nil_r.
Qed.
End Whole.

(** ** Accuracy, end to end *)

Lemma of_int_nonzero dt n : 0 < n <= 2 ^ prec_of dt -> is_zero (of_int dt n) = false.
Proof.
  intros Hn. destruct (fmt_ok dt) as [Hp He].
  destruct (binary_normalize_int (prec_of dt) (emax_of dt) Hp He n Hn)
    as (m & e & Hv & _).
  unfold of_int. now rewrite Hv.
Qed.

Lemma starts_with_sep_app (s t : string) :
  s <> "" -> starts_with_sep (s +:+ t) = starts_with_sep s.
Proof. destruct s; [congruence|reflexivity]. Qed.

Lemma names_relative (dataset_names : list string) (acc : string) :
  acc <> "" -> starts_with_sep acc = false ->
  let names := foldl (fun acc name => acc +:+ "_" +:+ name) acc dataset_names in
  names <> "" /\ starts_with_sep names = false.
Proof.
  revert acc. induction dataset_names as [|n l IH]; intros acc Hne Hs; cbn zeta;
    cbn [foldl]; [auto|].
  apply IH.
  - destruct acc; [congruence|discriminate].
  - now rewrite starts_with_sep_app.
Qed.

Lemma predictions_file_relative (dataset_names : list string) :
  starts_with_sep (predictions_file dataset_names) = false.
Proof.
  unfold predictions_file.
  destruct (names_relative dataset_names "predictions") as [Hne Hs];
    [discriminate|reflexivity|]. cbn zeta in Hne, Hs.
  now rewrite starts_with_sep_app.
Qed.

Section Accuracy.
Context {elt uid example batch : Type}.
Context `{!External elt uid example batch}.
Variable env : dist_env.

Lemma score_batch_accuracy model key examples output_predictions a st (b : batch)
    st' m :
  score_dict st = [(key, of_int float64 (100 * m))] -> 0 <= m ->
  100 * (m + label_count a b) <= 2 ^ 53 ->
  score_batch model [(key, accuracy_metric)] examples output_predictions a true st b
  = Ok st' ->
  score_dict st' = [(key, of_int float64 (100 * (m + correct_in model a b)))]
  /\ 0 <= correct_in model a b <= label_count a b.
Proof.
  intros Hsd Hm Hbound.
  unfold score_batch, correct_in, batch_logits, label_list, label_count in *.
  destruct (select_inputs a (process_batch b a)) as [[inputs labels_]|] eqn:Hsel;
    cbn [mbind result_bind]; [|discriminate].
  rewrite (select_inputs_label _ _ _ _ Hsel) in *.
  destruct (run_forward model inputs) as [logits|]; cbn [mbind result_bind];
    [|discriminate].
  destruct (match d_loss_mask (process_batch b a) with
            | Some loss_mask => _ | None => _ end) as [logits'|];
    cbn [mbind result_bind]; [|discriminate].
  destruct (match examples with Some ex => _ | None => _ end) as [example_batch|];
    cbn [mbind result_bind]; [|discriminate].
  assert (score_dict (if output_predictions
                      then {| total := total st; score_dict := score_dict st;
                              softmaxes := softmaxes st ++ torch_softmax logits';
                              labels := labels st ++ labels_;
                              ids := ids st ++ batch_uid b |}
                      else st) = [(key, of_int float64 (100 * m))]) as ->
      by (destruct output_predictions; exact Hsd).
  unfold add_scores. cbn [for_each fst snd]. unfold dict_item. cbn [dict_get].
  rewrite decide_True by reflexivity. cbn [mbind result_bind].
  pose proof (matches_bounds (torch_argmax logits') labels_) as Hmb.
  destruct (decide (length (torch_argmax logits') = length labels_)) as [Hlen|Hlen].
  - rewrite (accuracy_metric_value _ _ _ Hlen) by lia.
    cbn [mbind result_bind dict_set]. rewrite decide_True by reflexivity.
    intros [= <-]. cbn [score_dict]. split; [|lia].
    rewrite fadd_of_int by (change (prec_of float64) with 53; lia).
    do 3 f_equal. lia.
  - unfold accuracy_metric. rewrite bool_decide_eq_false_2 by assumption.
    cbn. discriminate.
Qed.

Lemma scoring_loop_accuracy model key examples output_predictions a (bs : list batch)
    st st' m :
  score_dict st = [(key, of_int float64 (100 * m))] -> 0 <= m ->
  100 * (m + sum_Z (label_count a <$> bs)) <= 2 ^ 53 ->
  for_each bs (score_batch model [(key, accuracy_metric)] examples
                           output_predictions a true) st = Ok st' ->
  score_dict st'
  = [(key, of_int float64 (100 * (m + sum_Z (correct_in model a <$> bs))))]
  /\ 0 <= sum_Z (correct_in model a <$> bs) <= sum_Z (label_count a <$> bs).
Proof.
  revert st m. unfold sum_Z.
  induction bs as [|b bs IH]; intros st m Hsd Hm Hbound; cbn [for_each].
  - intros [= <-]. cbn. rewrite Z.add_0_r. split; [exact Hsd|lia].
  - cbn [fmap list_fmap foldr] in *.
    assert (0 <= foldr Z.add 0 (label_count a <$> bs)) as Hrest.
    { apply (sum_Z_nonneg (label_count a <$> bs)), Forall_fmap, Forall_forall.
      intros x _. apply label_count_nonneg. }
    destruct (score_batch _ _ _ _ _ _ st b) as [s1|] eqn:Hb; cbn [mbind result_bind];
      [|discriminate].
    apply (score_batch_accuracy _ _ _ _ _ _ _ _ m Hsd Hm) in Hb as [Hs1 Hc]; [|lia].
    intros Hrun.
    destruct (IH s1 (m + correct_in model a b) Hs1 ltac:(lia) ltac:(lia) Hrun)
      as [Hfinal Hsum].
    split; [|lia]. rewrite Hfinal. do 3 f_equal. lia.
Qed.

(** X15. With [accuracy_metric] as the only metric on a labeled
    dataset, the metric sum at the end of the loop is exactly 100 times
    the number of examples whose predicted label (the argmax of the
    masked logits) is their label, over all batches, for up to
    [2^53 / 100] examples; that number is between 0 and [total]. *)
Theorem accuracy_sum_counts_correct_predictions model dl key examples
    output_predictions a st :
  scoring_block env model dl [(key, accuracy_metric)] examples output_predictions
                a true = Ok st ->
  100 * sum_Z (label_count a <$> dl_batches dl) <= 2 ^ 53 ->
  score_dict st
  = [(key, of_int float64 (100 * sum_Z (correct_in model a <$> dl_batches dl)))]
  /\ 0 <= sum_Z (correct_in model a <$> dl_batches dl) <= total st.
Proof.
  intros Hb Hbound.
  pose proof (scoring_block_total env _ _ _ _ _ _ _ _ Hb) as [Ht _].
  unfold scoring_block in Hb.
  destruct (if output_predictions then _ else _) as [[]|]; cbn [mbind result_bind] in Hb;
    [|discriminate].
  apply (scoring_loop_accuracy _ _ _ _ _ _ _ _ 0) in Hb; [|reflexivity|lia|lia].
  rewrite Z.add_0_l in Hb. rewrite Ht. exact Hb.
Qed.

Lemma all_reduce_same_length t (w : world uid) :
  Forall (fun p => length p = length t) (peer_vectors env (collectives w)) ->
  (all_reduce env t w).1 = Ok (group_sum t (peer_vectors env (collectives w))).
Proof.
  intros Hlen. unfold all_reduce.
  destruct (forallb _ _) eqn:Hall; [reflexivity|].
  apply not_true_iff_false in Hall. destruct Hall.
  apply forallb_forall. intros p Hp. apply bool_decide_eq_true_2.
  rewrite Forall_forall in Hlen. apply Hlen. now apply list_elem_of_In.
Qed.

(** The reduction goes through when every peer sends one entry per
    metric and one for the count. *)
Lemma reduce_scores_succeeds (sd : dict pyfloat) (total : Z) (w : world uid) :
  dict_wf sd ->
  Forall (fun p => length p = S (length sd)) (peer_vectors env (collectives w)) ->
  exists sd' tc w', reduce_scores env sd total w = (Ok (sd', tc), w').
Proof.
  intros Hwf Hlen.
  destruct (reduce_scores_spec env sd total w) as (vals & Hvals & Hspec).
  assert (length vals = length sd) as Hv.
  { rewrite <- (Forall2_length _ _ _ Hvals). unfold sort_keys, dict_keys.
    now rewrite merge_sort_Permutation, length_fmap. }
  pose proof (all_reduce_same_length
                (float_tensor ((PyFloat <$> vals) ++ [PyInt total])) w) as Hok.
  destruct (all_reduce env _ w) as [[reduced|e] w1].
  - destruct (Hspec Hwf) as (sd' & tc & Hrun & _). eauto.
  - cbn [fst] in Hok. discriminate Hok.
    eapply Forall_impl; [exact Hlen|]. intros p ->.
    rewrite length_float_tensor, length_app, length_fmap, Hv. cbn. lia.
Qed.

(** X16. [metrics_func] over one labeled dataset with
    [accuracy_metric] as the only metric, in a group whose peers report
    the metric sums [s_j] and the counts [n_j], returns the ratio of
    the sum of the group, [100 * correct + s_1 + ...], to the count of
    the group, [n + n_1 + ...], the division done in binary64 on the
    exact integers, as long as both are at most [2^24] and there is one
    example at least.  With peers that ran the same code this is the
    accuracy of the group in percent; without peers it is
    [100 * correct / n]. *)
Theorem accuracy_of_one_dataset name dl key a is_test model epoch summary_writer
    (w : world uid) st (reports : list (Z * Z)) :
  peer_vectors env (collectives w)
  = (fun r : Z * Z => float_tensor [PyFloat (of_int float64 r.1); PyInt r.2])
      <$> reports ->
  Forall (fun r => 0 <= r.1 /\ 0 <= r.2) reports ->
  labeled (dl_dataset dl) = true ->
  scoring_block env model dl [(key, accuracy_metric)] (examples (dl_dataset dl))
                false a true = Ok st ->
  let sum := 100 * sum_Z (correct_in model a <$> dl_batches dl)
             + sum_Z (reports.*1) in
  let count := sum_Z (label_count a <$> dl_batches dl) + sum_Z (reports.*2) in
  0 < count -> count <= 2 ^ 24 -> sum <= 2 ^ 24 ->
  (metrics_func env [(name, dl)] [(key, accuracy_metric)] a is_test model epoch
                false summary_writer w).1
  = Ok [(key, fdiv float64 (of_int float64 sum) (of_int float64 count))].
Proof.
  intros Hpeers Hrep Hlab Hb sum count Hpos Hcount Hsum.
  assert (2 ^ 24 <= 2 ^ 53) as Hpow by (apply Z.pow_le_mono_r; lia).
  assert (100 * 2 ^ 24 <= 2 ^ 53) as Hpow' by (vm_compute; discriminate).
  pose proof (scoring_block_total env _ _ _ _ _ _ _ _ Hb) as [Ht _].
  set (n := sum_Z (label_count a <$> dl_batches dl)) in *.
  assert (Forall (fun m => 0 <= m) reports.*1 /\ Forall (fun m => 0 <= m) reports.*2)
    as [Hs1 Hs2].
  { clear -Hrep. induction Hrep as [|r l [H1 H2] _ [IH1 IH2]]; cbn;
      split; constructor; assumption. }
  pose proof (sum_Z_nonneg _ Hs1) as Hp1. pose proof (sum_Z_nonneg _ Hs2) as Hp2.
  assert (0 <= n) as Hn.
  { apply sum_Z_nonneg, Forall_fmap, Forall_forall. intros b _.
    apply label_count_nonneg. }
  assert (score_dict st
          = [(key, of_int float64 (100 * sum_Z (correct_in model a <$> dl_batches dl)))]
          /\ 0 <= sum_Z (correct_in model a <$> dl_batches dl) <= n) as [Hsd Hc].
  { unfold scoring_block in Hb. cbn [mbind result_bind] in Hb.
    apply (scoring_loop_accuracy _ _ _ _ _ _ _ _ 0) in Hb; [|reflexivity|lia|fold n; lia].
    rewrite Z.add_0_l in Hb. exact Hb. }
  set (c := sum_Z (correct_in model a <$> dl_batches dl)) in *.
  set (w0 := (emit (PrintRank0 Calculating) w).2).
  assert (exists w1,
             evaluate_metrics env name model dl [(key, accuracy_metric)]
               (examples (dl_dataset dl)) epoch false a (labeled (dl_dataset dl)) w0
             = (Ok ([(key, of_int float64 sum)], of_int float64 count, None), w1))
    as [w1 Hev].
  { rewrite evaluate_metrics_steps, Hlab, Hb, Hsd, Ht.
    match goal with |- context [reduce_scores env ?d ?t ?w'] => set (wT := w') end.
    assert (peer_vectors env (collectives wT)
            = (fun r : Z * Z => float_tensor [PyFloat (of_int float64 r.1); PyInt r.2])
                <$> reports) as HpT by exact Hpeers.
    assert (dict_wf [(key, of_int float64 (100 * c))]) as Hwf
        by apply NoDup_singleton.
    destruct (reduce_scores_succeeds [(key, of_int float64 (100 * c))] n wT Hwf)
      as (sd' & tc & w1 & Hred).
    { rewrite HpT. apply Forall_fmap, Forall_forall. intros r _. reflexivity. }
    rewrite Hred.
    assert (sort_keys (dict_keys [(key, of_int float64 (100 * c))]) !! 0%nat
            = Some key) as Hi.
    { reflexivity. }
    assert (dict_get [(key, of_int float64 (100 * c))] key
            = Some (of_int float64 (100 * c))) as Hv
        by (cbn; now rewrite decide_True).
    destruct (reduce_scores_value env _ _ _ _ _ _ 0%nat key _
                ((fun m => cast float32 (of_int float64 m)) <$> reports.*1)
                Hwf Hred Hi Hv) as [Hkeys Hval].
    { rewrite HpT. clear. induction reports as [|r l IH]; [constructor|].
      cbn [fmap list_fmap]. constructor; [reflexivity|exact IH]. }
    rewrite exact_group_sum in Hval by (assumption || lia).
    pose proof (reduced_total env _ _ _ _ _ _
                  ((fun m => cast float32 (of_int float64 m)) <$> reports.*2) Hred)
      as Htc.
    rewrite exact_group_sum in Htc by (assumption || lia).
    rewrite Htc.
    2:{ rewrite HpT. clear. induction reports as [|r l IH]; [constructor|].
        cbn [fmap list_fmap]. constructor; [reflexivity|exact IH]. }
    destruct sd' as [|[k v] [|? ?]]; try discriminate.
    injection Hkeys as ->. cbn [dict_get] in Hval. rewrite decide_True in Hval by reflexivity.
    injection Hval as ->.
    unfold report_rates. cbn [comprehension snd]. unfold py_truediv.
    fold sum. fold count.
    rewrite of_int_nonzero by (change (prec_of float64) with 53; lia).
    cbn [mbind result_bind]. eauto. }
  assert (scoring_passes env [(name, dl)] [(key, accuracy_metric)] a model epoch
                         false w
          = (Ok {| c_score_dict := [(key, of_int float64 sum)];
                   c_total := PyFloat (of_int float64 count);
                   named_predictions := []; names := "predictions" |}, w1)) as Hpass.
  { rewrite scoring_passes_quiet, for_eachM_cons. fold w0.
    erewrite combine_dataset_ok; [|exact Hev|apply add_single_one].
    cbn [for_eachM mret M_ret c_score_dict c_total named_predictions names].
    assert (fadd float64 py_zero (of_int float64 sum) = of_int float64 sum) as ->.
    { change py_zero with (of_int float64 0).
      rewrite fadd_of_int by (change (prec_of float64) with 53; lia).
      reflexivity. }
    assert (py_add (PyInt 0) (of_int float64 count) = PyFloat (of_int float64 count))
      as ->.
    { unfold py_add, py_float.
      rewrite fadd_of_int by (change (prec_of float64) with 53; lia).
      reflexivity. }
    reflexivity. }
  rewrite metrics_func_steps, Hpass. cbn [c_score_dict c_total].
  unfold rates. cbn [comprehension fst snd py_float]. unfold py_truediv.
  rewrite of_int_nonzero by (change (prec_of float64) with 53; lia).
  cbn [mbind result_bind]. rewrite report_world, persist_world. reflexivity.
Qed.

(** X17. [metrics_func] writes at most one file, and its path is the
    load directory, a separator unless the directory is empty or ends
    with one, and [predictions_<dataset1>_<dataset2>....pt]: a dataset
    name cannot turn the path into an absolute one. *)
Theorem predictions_written_under_load dataloaders
    (metric_dict : dict (metric example)) a is_test model epoch output_predictions
    summary_writer (w : world uid) :
  let out := metrics_func env dataloaders metric_dict a is_test model epoch
                          output_predictions summary_writer w in
  saved (trace out.2) = saved (trace w)
  \/ exists dir content,
      load a = Some dir
      /\ saved (trace out.2)
         = saved (trace w)
           ++ [(dir +:+ sep_after dir +:+ predictions_file dataloaders.*1, content)].
Proof.
  cbn zeta. rewrite metrics_func_steps.
  destruct (calm_scoring_passes env dataloaders metric_dict a model epoch
              output_predictions w) as [Hs _].
  pose proof (scoring_passes_combined env dataloaders metric_dict a model epoch
                output_predictions w) as Hcomb.
  destruct (scoring_passes _ _ _ _ _ _ _ _) as [[c|e'] w1]; cbn [fst snd] in *;
    [|now left].
  destruct (rates _ _) as [sd|e']; [|now left].
  cbn zeta.
  destruct (report_ok is_test epoch summary_writer (c_total c) sd w1) as [_ Hrep].
  rewrite persist_world.
  destruct output_predictions; cbn [andb];
    [|left; cbn [snd]; congruence].
  destruct (Hcomb c w1 eq_refl) as [[_ Hnames] _].
  destruct (Hnames eq_refl) as [_ Hn].
  case_bool_decide; [|left; cbn [snd]; congruence].
  destruct (load a) as [dir|]; [|left; cbn [snd]; congruence].
  right. exists dir, (named_predictions c). split; [reflexivity|].
  cbn [snd trace]. rewrite saved_save, Hrep, Hs. do 3 f_equal.
  rewrite Hn. fold (predictions_file dataloaders.*1).
  unfold os_path_join, sep_after.
  rewrite predictions_file_relative. destruct (_ || _); reflexivity.
Qed.
End Accuracy.

(** ** Any number of datasets *)

Lemma foldl_fadd_ints dt (a : Z) (ns : list Z) :
  0 <= a -> Forall (fun n => 0 <= n) ns -> a + sum_Z ns <= 2 ^ prec_of dt ->
  foldl (fadd dt) (of_int dt a) (of_int dt <$> ns) = of_int dt (a + sum_Z ns).
Proof.
  unfold sum_Z. revert a. induction ns as [|n ns IH]; intros a Ha Hns Hsum.
  - cbn. now rewrite Z.add_0_r.
  - apply Forall_cons in Hns as [Hn Hns]. cbn [fmap list_fmap foldl foldr] in *.
    pose proof (sum_Z_nonneg ns Hns) as Hs. unfold sum_Z in Hs.
    assert (a + n <= 2 ^ prec_of dt) as Han.
    { etransitivity; [|exact Hsum]. lia. }
    rewrite fadd_of_int by assumption.
    rewrite IH; [f_equal; lia|lia|assumption|].
    etransitivity; [|exact Hsum]. lia.
Qed.

Lemma py_float_foldl_py_add (t : pynum) (xs : list spec_float) :
  py_float (foldl py_add t xs) = foldl (fadd float64) (py_float t) xs.
Proof. revert t. induction xs as [|x xs IH]; intros t; [reflexivity|]. cbn. now rewrite IH. Qed.

Section Datasets.
Context {elt uid example batch : Type}.
Context `{!External elt uid example batch}.
Variable env : dist_env.

(** The loop over the dataloaders adds the sums and the counts from
    left to right. *)
Lemma passes_loop_adds key (m : metric example) a model epoch
    (dataloaders : list (string * dataloader uid example batch))
    (outs : list (spec_float * spec_float)) x t (w : world uid) :
  Forall2 (fun nd o =>
             forall w0 : world uid, exists w1,
               evaluate_metrics env nd.1 model nd.2 [(key, m)]
                 (examples (dl_dataset nd.2)) epoch false a
                 (labeled (dl_dataset nd.2)) w0
               = (Ok ([(key, o.1)], o.2, None), w1)) dataloaders outs ->
  exists w',
    for_eachM dataloaders (combine_dataset env [(key, m)] a model epoch false)
      {| c_score_dict := [(key, x)]; c_total := t; named_predictions := [];
         names := "predictions" |} w
    = (Ok {| c_score_dict := [(key, foldl (fadd float64) x outs.*1)];
             c_total := foldl py_add t outs.*2;
             named_predictions := []; names := "predictions" |}, w').
Proof.
  intros Hall. revert x t w.
  induction Hall as [|[name dl] [s n] dls outs Hnd _ IH]; intros x t w.
  - exists w. reflexivity.
  - rewrite for_eachM_cons. destruct (Hnd w) as [w1 Hev]. cbn [fst snd] in Hev.
    erewrite combine_dataset_ok; [|exact Hev|apply add_single_one].
    cbn [c_score_dict c_total named_predictions names].
    destruct (IH (fadd float64 x s) (py_add t n) w1) as [w' Hrest].
    exists w'. exact Hrest.
Qed.

(** X18. Over any number of dataloaders and one metric (without
    prediction output), [metrics_func] adds the metric sums of the
    passes from left to right, starting at 0.0, and their counts in the
    same way; it returns the quotient of the two, and divides by zero
    when the count added up is zero.  For sums and counts that are
    non-negative integers the rate is the sum of the sums over the
    sum of the counts, not the mean of the rates of the datasets. *)
Theorem combined_rate_over_datasets key (m : metric example) a is_test model epoch
    summary_writer (dataloaders : list (string * dataloader uid example batch))
    (outs : list (spec_float * spec_float)) (w : world uid) :
  Forall2 (fun nd o =>
             forall w0 : world uid, exists w1,
               evaluate_metrics env nd.1 model nd.2 [(key, m)]
                 (examples (dl_dataset nd.2)) epoch false a
                 (labeled (dl_dataset nd.2)) w0
               = (Ok ([(key, o.1)], o.2, None), w1)) dataloaders outs ->
  let out := metrics_func env dataloaders [(key, m)] a is_test model epoch false
                          summary_writer w in
  let score := foldl (fadd float64) py_zero outs.*1 in
  let total := foldl py_add (PyInt 0) outs.*2 in
  out.1 = (if is_zero (py_float total) then Raise (ZeroDivisionError overall_rate)
           else Ok [(key, fdiv float64 score (py_float total))])
  /\ (forall reports : list (Z * Z),
         outs = (fun r : Z * Z => (of_int float64 r.1, of_int float64 r.2)) <$> reports ->
         Forall (fun r => 0 <= r.1 /\ 0 <= r.2) reports ->
         sum_Z reports.*1 <= 2 ^ 53 -> 0 < sum_Z reports.*2 <= 2 ^ 53 ->
         out.1 = Ok [(key, fdiv float64 (of_int float64 (sum_Z reports.*1))
                                (of_int float64 (sum_Z reports.*2)))]).
Proof.
  intros Hall. cbn zeta.
  assert ((metrics_func env dataloaders [(key, m)] a is_test model epoch false
                        summary_writer w).1
          = (if is_zero (py_float (foldl py_add (PyInt 0) outs.*2))
             then Raise (ZeroDivisionError overall_rate)
             else Ok [(key, fdiv float64 (foldl (fadd float64) py_zero outs.*1)
                                 (py_float (foldl py_add (PyInt 0) outs.*2)))]))
    as Hout.
  { rewrite metrics_func_steps, scoring_passes_quiet.
    destruct (passes_loop_adds key m a model epoch dataloaders outs py_zero (PyInt 0)
                (emit (PrintRank0 Calculating) w).2 Hall) as [w' Hloop].
    cbn [fmap list_fmap fst]. rewrite Hloop. cbn [c_score_dict c_total].
    unfold rates. cbn [comprehension fst snd]. unfold py_truediv.
    destruct (is_zero _); cbn [mbind result_bind]; [reflexivity|].
    rewrite report_world, persist_world. reflexivity. }
  split; [exact Hout|].
  intros reports -> Hrep Hsum [Hpos Hcount]. rewrite Hout.
  assert (Forall (fun n => 0 <= n) reports.*1 /\ Forall (fun n => 0 <= n) reports.*2)
    as [Hs1 Hs2].
  { clear -Hrep. induction Hrep as [|r l [H1 H2] _ [IH1 IH2]]; cbn;
      split; constructor; assumption. }
  assert (((fun r : Z * Z => (of_int float64 r.1, of_int float64 r.2)) <$> reports).*1
          = of_int float64 <$> reports.*1) as ->
      by (rewrite <- !list_fmap_compose; reflexivity).
  assert (((fun r : Z * Z => (of_int float64 r.1, of_int float64 r.2)) <$> reports).*2
          = of_int float64 <$> reports.*2) as ->
      by (rewrite <- !list_fmap_compose; reflexivity).
  rewrite py_float_foldl_py_add.
  change py_zero with (of_int float64 0). change (py_float (PyInt 0)) with (of_int float64 0).
  rewrite !foldl_fadd_ints by (change (prec_of float64) with 53; assumption || lia).
  rewrite !Z.add_0_l.
  rewrite of_int_nonzero by (change (prec_of float64) with 53; lia).
  reflexivity.
Qed.
End Datasets.

Lemma combined_rate_over_datasets_witness :
  (metrics_func SampleEval.single_worker
     [("a", SampleCombine.loader_of "a" 100); ("b", SampleCombine.loader_of "b" 200);
      ("c", SampleCombine.loader_of "c" 100)]
     [("rate", SampleCombine.score)] SampleEval.default_args false SampleForward.model
     1 false true SampleEval.start).1
  = Ok [("rate", fdiv float64 (of_int float64 (sum_Z [80; 150; 80]))
                      (of_int float64 (sum_Z [100; 200; 100])))].
Proof.
  apply (proj2 (combined_rate_over_datasets SampleEval.single_worker "rate"
                  SampleCombine.score SampleEval.default_args false
                  SampleForward.model 1 true
                  [("a", SampleCombine.loader_of "a" 100);
                   ("b", SampleCombine.loader_of "b" 200);
                   ("c", SampleCombine.loader_of "c" 100)]
                  [(of_int float64 80, of_int float64 100);
                   (of_int float64 150, of_int float64 200);
                   (of_int float64 80, of_int float64 100)]
                  SampleEval.start
                  ltac:(repeat constructor; intros w0; eexists; vm_compute; reflexivity))
               [(80, 100); (150, 200); (80, 100)]).
  - reflexivity.
  - repeat constructor; cbn; lia.
  - vm_compute. discriminate.
  - split; [vm_compute; reflexivity|vm_compute; discriminate].
Defined.

(** ** Worked instances *)

Lemma unlabeled_dataset_calls_no_metric_witness :
  exists tc preds w',
    evaluate_metrics SampleEval.single_worker "dev" SampleForward.model
      SampleEval.loader [("acc", SampleEval.failing_metric)] None 0 false
      SampleEval.default_args false SampleEval.start
    = (Ok ([("acc", py_zero)], tc, preds), w').
Proof.
  destruct (evaluate_metrics SampleEval.single_worker "dev" SampleForward.model
              SampleEval.loader [("acc", SampleEval.failing_metric)] None 0 false
              SampleEval.default_args false SampleEval.start)
    as [[[[sd tc] preds]|e] w'] eqn:Hrun; [|vm_compute in Hrun; discriminate].
  destruct (unlabeled_dataset_calls_no_metric SampleEval.single_worker "dev"
              SampleForward.model SampleEval.loader
              [("acc", SampleEval.failing_metric)] None 0 false
              SampleEval.default_args SampleEval.start) as (_ & _ & Hzero).
  rewrite (Hzero sd tc preds w' (NoDup_singleton "acc") eq_refl Hrun).
  exists tc, preds, w'. reflexivity.
Defined.

Lemma predictions_follow_the_batches_witness :
  exists sd tc sm w',
    evaluate_metrics SampleEval.single_worker "dev" SampleForward.model
      SampleEval.loader [("acc", accuracy_metric)] None 0 true
      SampleEval.default_args true SampleEval.start
    = (Ok (sd, tc, Some (sm, [2; 2; 0], [7; 8; 9])), w').
Proof.
  destruct (evaluate_metrics SampleEval.single_worker "dev" SampleForward.model
              SampleEval.loader [("acc", accuracy_metric)] None 0 true
              SampleEval.default_args true SampleEval.start)
    as [[[[sd tc] preds]|e] w'] eqn:Hrun; [|vm_compute in Hrun; discriminate].
  destruct (predictions_follow_the_batches SampleEval.single_worker "dev"
              SampleForward.model SampleEval.loader [("acc", accuracy_metric)] None 0
              true SampleEval.default_args true SampleEval.start sd tc preds w' Hrun)
    as (st & _ & _ & -> & -> & -> & _).
  exists sd, tc, (softmaxes st), w'. reflexivity.
Defined.

Lemma packing_ignores_insertion_order_witness :
  comprehension (dict_item SampleReduce.scores)
                (sort_keys (dict_keys SampleReduce.scores))
  = comprehension (dict_item SampleOrder.scores)
                  (sort_keys (dict_keys SampleOrder.scores)).
Proof.
  apply (packing_ignores_insertion_order (uid:=Z) SampleEval.single_worker
           SampleReduce.scores SampleOrder.scores 3 SampleEval.start).
  - apply perm_swap.
  - intros k. unfold SampleReduce.scores, SampleOrder.scores. cbn [dict_get].
    repeat destruct (decide _); subst; reflexivity || discriminate.
Defined.



Lemma results_carry_the_metric_keys_witness :
  exists sd,
    (metrics_func SampleEval.single_worker [("dev", SampleEval.loader)]
       [("acc", accuracy_metric)] SampleEval.default_args false SampleForward.model
       3 false true SampleEval.start).1 = Ok sd
    /\ dict_keys sd = ["acc"].
Proof.
  destruct (metrics_func SampleEval.single_worker [("dev", SampleEval.loader)]
              [("acc", accuracy_metric)] SampleEval.default_args false
              SampleForward.model 3 false true SampleEval.start).1
    as [sd|e] eqn:Hrun; [|vm_compute in Hrun; discriminate].
  exists sd. split; [reflexivity|].
  exact (proj2 (results_carry_the_metric_keys SampleEval.single_worker
                  [("dev", SampleEval.loader)] "dev" SampleEval.loader
                  [("acc", accuracy_metric)] None SampleEval.default_args false
                  SampleForward.model 3 false true true SampleEval.start) sd Hrun).
Defined.

Lemma metrics_func_world_witness :
  let out := metrics_func SampleEval.single_worker [("dev", SampleEval.loader)]
               [("acc", accuracy_metric)] SampleEval.default_args false
               SampleForward.model 3 false true SampleEval.start in
  collectives out.2 = 1%nat /\ training out.2 = true.
Proof.
  cbn zeta.
  destruct (metrics_func_world SampleEval.single_worker [("dev", SampleEval.loader)]
              [("acc", accuracy_metric)] SampleEval.default_args false
              SampleForward.model 3 false true SampleEval.start)
    as (_ & _ & _ & Hok & _).
  destruct (Hok ltac:(vm_compute; reflexivity)) as [Hc Ht].
  split; [exact Hc|]. apply Ht. discriminate.
Defined.

Lemma telemetry_of_metrics_func_witness :
  let out := metrics_func SampleEval.single_worker [("dev", SampleEval.loader)]
               [("acc", accuracy_metric)] SampleEval.default_args false
               SampleForward.model 3 false true SampleEval.start in
  scalars (trace out.2)
  = [("Train/valid_acc",
      fdiv float64 (of_int float64 200) (of_int float64 3), 3)].
Proof.
  cbn zeta.
  destruct (telemetry_of_metrics_func SampleEval.single_worker
              [("dev", SampleEval.loader)] [("acc", accuracy_metric)]
              SampleEval.default_args false SampleForward.model 3 false true
              SampleEval.start) as [Hon _].
  rewrite (Hon [("acc", fdiv float64 (of_int float64 200) (of_int float64 3))]);
    [reflexivity|vm_compute; reflexivity].
Defined.

Lemma accuracy_sum_counts_correct_predictions_witness :
  exists st,
    scoring_block SampleEval.single_worker SampleForward.model SampleEval.loader
                  [("acc", accuracy_metric)] None false SampleEval.default_args true
    = Ok st
    /\ score_dict st = [("acc", of_int float64 200)].
Proof.
  destruct (scoring_block SampleEval.single_worker SampleForward.model
              SampleEval.loader [("acc", accuracy_metric)] None false
              SampleEval.default_args true) as [st|e] eqn:Hb;
    [|vm_compute in Hb; discriminate].
  exists st. split; [reflexivity|].
  destruct (accuracy_sum_counts_correct_predictions SampleEval.single_worker
              SampleForward.model SampleEval.loader "acc" None false
              SampleEval.default_args st Hb) as [Hsd _];
    [vm_compute; discriminate|].
  rewrite Hsd. reflexivity.
Defined.

Lemma accuracy_of_one_dataset_witness :
  (metrics_func SampleReduce.small_group [("dev", SampleEval.loader)]
     [("acc", accuracy_metric)] SampleEval.default_args false SampleForward.model
     3 false true SampleEval.start).1
  = Ok [("acc", fdiv float64 (of_int float64 500) (of_int float64 8))].
Proof.
  destruct (scoring_block SampleReduce.small_group SampleForward.model
              SampleEval.loader [("acc", accuracy_metric)]
              (examples (dl_dataset SampleEval.loader)) false
              SampleEval.default_args true) as [st|e] eqn:Hb;
    [|vm_compute in Hb; discriminate].
  pose proof (accuracy_of_one_dataset SampleReduce.small_group "dev"
                SampleEval.loader "acc" SampleEval.default_args false
                SampleForward.model 3 true SampleEval.start st [(300, 5)] eq_refl
                ltac:(repeat constructor; cbn; lia) eq_refl Hb) as Hrate.
  cbn zeta in Hrate.
  rewrite Hrate;
    [reflexivity|vm_compute; reflexivity|vm_compute; discriminate
    |vm_compute; discriminate].
Defined.
